(** * termai: file tools and the Anthropic provider, embedded in Rocq

    The development follows the Go sources:
    - [internal/llm/tools]: the file-record map ([recordFileRead],
      [recordFileWrite], [getLastReadTime]), the [edit] tool
      ([createNewFile], [deleteContent], [replaceContent]) and the [write]
      tool;
    - [internal/llm/provider]: [shouldRetry] and the retry loop of [send],
      [convertMessages], [convertTools], [preparedMessages], and the first
      provider's [NewMessage] (title job, parallel tool dispatch);
    - [internal/llm/tools/ls.go]: the tree [createFileTree] builds from the
      listed paths;
    - [internal/tui/components/chat]: the sidebar's map of modified files
      ([loadModifiedFiles], [processFileChanges], [getDisplayPath]).

    Go strings are byte strings ([string]); Go [int] and [int64] are [Z]
    with the 64-bit wrap-around written out where it can occur; [time.Time]
    is a [Z] counting nanoseconds from the zero time. *)

From Stdlib Require Import ZArith Floats Uint63 DecimalString.
From stdpp Require Import base gmap strings list.

Open Scope Z_scope.

(** ** Byte strings: the parts of Go's [strings] package the tools use *)

Module strings.

(** [len(s)] *)
Definition len (s : string) : Z := Z.of_nat (String.length s).

(** [s[:n]] and [s[n:]] on naturals; the Go slices are taken at [Z]
    offsets below. *)
Fixpoint take (n : nat) (s : string) : string :=
  match n, s with
  | O, _ => EmptyString
  | S _, EmptyString => EmptyString
  | S n', String a s' => String a (take n' s')
  end.

Fixpoint drop (n : nat) (s : string) : string :=
  match n, s with
  | O, _ => s
  | S _, EmptyString => EmptyString
  | S n', String _ s' => drop n' s'
  end.

Definition slice_to (s : string) (i : Z) : string := take (Z.to_nat i) s.
Definition slice_from (s : string) (i : Z) : string := drop (Z.to_nat i) s.

(** [strings.HasPrefix(s, prefix)] *)
Fixpoint HasPrefix (s prefix : string) {struct prefix} : bool :=
  match prefix with
  | EmptyString => true
  | String a p' =>
      match s with
      | EmptyString => false
      | String b s' => if Ascii.eqb a b then HasPrefix s' p' else false
      end
  end.

(** [strings.Index(s, substr)]: the offset of the first occurrence, or -1. *)
Fixpoint Index (s substr : string) : Z :=
  if HasPrefix s substr then 0
  else match s with
       | EmptyString => -1
       | String _ s' =>
           let i := Index s' substr in
           if i =? -1 then -1 else i + 1
       end.

(** [strings.LastIndex(s, substr)]: the offset of the last occurrence, or -1. *)
Fixpoint LastIndex (s substr : string) : Z :=
  match s with
  | EmptyString => if HasPrefix s substr then 0 else -1
  | String _ s' =>
      let i := LastIndex s' substr in
      if i =? -1 then (if HasPrefix s substr then 0 else -1) else i + 1
  end.

(** [strings.Contains(s, substr)] is [Index(s, substr) >= 0]. *)
Definition Contains (s substr : string) : bool := 0 <=? Index s substr.

(** The number of offsets of [s] at which [substr] occurs. *)
Fixpoint occurrences (s substr : string) : nat :=
  ((if HasPrefix s substr then 1 else 0) +
   match s with
   | EmptyString => 0
   | String _ s' => occurrences s' substr
   end)%nat.

End strings.


(** ** Results, time, and the file system the tools see *)

(** A Go [(T, error)] pair: either the value or the error's message. *)
Inductive result (A : Type) : Type :=
| Ok (a : A)
| Err (msg : string).
Arguments Ok {A} a.
Arguments Err {A} msg.

Definition is_Err {A : Type} (r : result A) : bool :=
  match r with Ok _ => false | Err _ => true end.

Module time.
(** [time.Time] as nanoseconds counted from the zero time (January 1,
    year 1); the zero value [time.Time{}] is [0]. *)
Definition Time : Type := Z.
Definition IsZero (t : Time) : bool := t =? 0.
(** [t.After(u)] *)
Definition After (t u : Time) : bool := u <? t.
End time.

(** What lives at a path: a regular file (with the error [os.ReadFile]
    gives on it, if any), a directory, or an entry on which [os.Stat] fails
    with an error other than "does not exist". *)
Inductive Node : Type :=
| RegularFile (content : string) (modTime : time.Time) (readErr : option string)
| Directory (modTime : time.Time)
| Inaccessible (statErr : string).

Record FileInfo : Type := { IsDir : bool; ModTime : time.Time }.

Inductive StatResult : Type :=
| StatOk (fileInfo : FileInfo)
| StatNotExist
| StatError (err : string).

(** File record to track when files were read/written *)
Record fileRecord : Type :=
  { path : string; readTime : time.Time; writeTime : time.Time }.

(** A row of the file-history store, as the sidebar reads it
    ([history.File]: ID, Path, Content, Version). *)
Record history_File : Type :=
  { ID : string; SessionID : string; Path : string;
    Content : string; Version : string }.

(** The state the tools run in: the files on disk, the process-wide
    [fileRecords] map, the clock read by [time.Now()] (always after the zero
    time), and the file-history store. *)
Record World : Type :=
  { fs : gmap string Node;
    fileRecords : gmap string fileRecord;
    clock : positive;
    snapshots : list history_File }.

Definition set_fs (f : gmap string Node) (w : World) : World :=
  {| fs := f; fileRecords := fileRecords w; clock := clock w;
     snapshots := snapshots w |}.

Definition set_fileRecords (r : gmap string fileRecord) (w : World) : World :=
  {| fs := fs w; fileRecords := r; clock := clock w;
     snapshots := snapshots w |}.

(** Time passing: the clock never runs backwards. *)
Definition elapse (d : N) (w : World) : World :=
  {| fs := fs w; fileRecords := fileRecords w;
     clock := match d with N0 => clock w | Npos p => (clock w + p)%positive end;
     snapshots := snapshots w |}.

Definition time_Now (w : World) : time.Time := Z.pos (clock w).

(** What one tool call gets from outside the tool: the context values, the
    outcome of the calls into the operating system, the modification time
    the file system stamps on a written file, and how much time passes
    before each [time.Now()]. For the calls that fail it also tells how
    far they got: [mkdirMade] is the number of directories a failing
    [os.MkdirAll] had gone through, outermost first, and [writeDone] tells
    whether a failing [os.WriteFile] had opened the file (which creates or
    truncates it) and how many bytes it had written ([None]: the file was
    not opened). [mkdirModTime] is the stamp of the directories made. *)
Record Env : Type :=
  { sessionID : string;
    messageID : string;
    mkdirErr : option string;
    writeErr : option string;
    writeModTime : time.Time;
    elapsedWrite : N;
    elapsedRead : N;
    mkdirModTime : time.Time;
    mkdirMade : nat;
    writeDone : option nat }.

Definition os_Stat (w : World) (filePath : string) : StatResult :=
  match fs w !! filePath with
  | None => StatNotExist
  | Some (RegularFile _ mt _) => StatOk {| IsDir := false; ModTime := mt |}
  | Some (Directory mt) => StatOk {| IsDir := true; ModTime := mt |}
  | Some (Inaccessible e) => StatError e
  end.

Definition os_ReadFile (w : World) (filePath : string) : result string :=
  match fs w !! filePath with
  | None => Err "no such file or directory"
  | Some (RegularFile c _ None) => Ok c
  | Some (RegularFile _ _ (Some e)) => Err e
  | Some (Directory _) => Err "is a directory"
  | Some (Inaccessible e) => Err e
  end.

(** [os.WriteFile(filePath, content, 0o644)] opens the file with
    [O_WRONLY|O_CREATE|O_TRUNC], writes and closes. On success the path
    holds a regular file with the new content; an existing file keeps its
    mode. A call that fails before the file is opened leaves everything as
    it was; one that fails later leaves the file created or truncated,
    with the bytes written so far. *)
Definition os_WriteFile (env : Env) (filePath content : string) (w : World)
  : option string * World :=
  let readErr :=
    match fs w !! filePath with
    | Some (RegularFile _ _ r) => r
    | _ => None
    end in
  match writeErr env with
  | Some e =>
      match writeDone env with
      | None => (Some e, w)
      | Some n =>
          (Some e,
           set_fs (<[filePath := RegularFile (strings.take n content)
                                   (writeModTime env) readErr]> (fs w)) w)
      end
  | None =>
      (None,
       set_fs (<[filePath := RegularFile content (writeModTime env) readErr]> (fs w)) w)
  end.

(** The content of the regular file at a path, if there is one. *)
Definition file_content (w : World) (filePath : string) : option string :=
  match fs w !! filePath with
  | Some (RegularFile c _ _) => Some c
  | _ => None
  end.

(** ** The file-record map *)

Definition recordFileRead (filePath : string) (w : World) : World :=
  let record :=
    match fileRecords w !! filePath with
    | Some r => r
    | None => {| path := filePath; readTime := 0; writeTime := 0 |}
    end in
  let record :=
    {| path := path record; readTime := time_Now w;
       writeTime := writeTime record |} in
  set_fileRecords (<[filePath := record]> (fileRecords w)) w.

Definition getLastReadTime (filePath : string) (w : World) : time.Time :=
  match fileRecords w !! filePath with
  | None => 0
  | Some record => readTime record
  end.

Definition recordFileWrite (filePath : string) (w : World) : World :=
  let record :=
    match fileRecords w !! filePath with
    | Some r => r
    | None => {| path := filePath; readTime := 0; writeTime := 0 |}
    end in
  let record :=
    {| path := path record; readTime := readTime record;
       writeTime := time_Now w |} in
  set_fileRecords (<[filePath := record]> (fileRecords w)) w.

(** ** Tool requests and responses *)

Record EditParams : Type :=
  { FilePath : string; OldString : string; NewString : string }.

Record WriteParams : Type :=
  { write_FilePath : string; write_Content : string }.

(** [EditPermissionsParams] and [WritePermissionsParams] have the same two
    fields. *)
Record PermissionsParams : Type :=
  { perm_FilePath : string; perm_Diff : string }.

Record CreatePermissionRequest : Type :=
  { req_Path : string; ToolName : string; Action : string;
    Description : string; Params : PermissionsParams }.

Record DiffStats : Type := { Additions : Z; Removals : Z }.

Inductive ResponseMetadata : Type :=
| NoMetadata
| EditResponseMetadata (additions removals : Z)
| WriteResponseMetadata (diff : string) (additions removals : Z).

(** Modelled from the spec: the [ToolResponse] type and its constructors
    [NewTextResponse], [NewTextErrorResponse] and [WithResponseMetadata] are
    declared outside the files at hand; the spec gives a response as
    [{type, content, metadata?, is_error}]. *)
Record ToolResponse : Type :=
  { Type_ : string; resp_Content : string;
    Metadata : ResponseMetadata; IsError : bool }.

Definition NewTextResponse (content : string) : ToolResponse :=
  {| Type_ := "text"; resp_Content := content;
     Metadata := NoMetadata; IsError := false |}.

Definition NewTextErrorResponse (content : string) : ToolResponse :=
  {| Type_ := "text"; resp_Content := content;
     Metadata := NoMetadata; IsError := true |}.

Definition WithResponseMetadata (r : ToolResponse) (m : ResponseMetadata)
  : ToolResponse :=
  {| Type_ := Type_ r; resp_Content := resp_Content r;
     Metadata := m; IsError := IsError r |}.

Record editResponse : Type :=
  { text : string; additions : Z; removals : Z }.

Definition EditToolName : string := "edit".
Definition WriteToolName : string := "write".

(** The line feed of the Go string literals. *)
Definition LF : string := String (Ascii.ascii_of_nat 10) "".


(** ** The edit and write tools *)

Section Termai.

(** Collaborators declared outside the files at hand. *)
Variable WorkingDirectory : string.
Variable filepath_IsAbs : string → bool.
Variable filepath_Join : string → string → string.
Variable filepath_Dir : string → string.
(** [t.Format(time.RFC3339)] *)
Variable Format_RFC3339 : time.Time → string.
Variable GenerateGitDiffWithStats :
  string → string → string → result (string * DiffStats).
Variable permissions_Request : CreatePermissionRequest → bool.
Variable appendDiagnostics : string → string.
Variable getDiagnostics : string → string.

Definition removeWorkingDirectoryPrefix (filePath : string) : string :=
  let wd := WorkingDirectory in
  if (strings.len wd <? strings.len filePath)
     && String.eqb (strings.slice_to filePath (strings.len wd)) wd
  then strings.slice_from filePath (strings.len wd + 1)
  else filePath.

Definition mustReadMessage : string :=
  "you must read the file before editing it. Use the View tool first".

Definition editStaleMessage (filePath : string) (modTime lastRead : time.Time)
  : string :=
  "file " +:+ filePath +:+
  " has been modified since it was last read (mod time: " +:+
  Format_RFC3339 modTime +:+ ", last read: " +:+
  Format_RFC3339 lastRead +:+ ")".

(** [dir] and the directories above it, innermost first: [filepath.Dir]
    is followed until it gives its argument back (the root, or "."). It
    shortens every other path, so the length of [dir] bounds the number of
    steps. *)
Fixpoint lineage_from (fuel : nat) (dir : string) : list string :=
  match fuel with
  | O => [dir]
  | S fuel' =>
      if String.eqb (filepath_Dir dir) dir then [dir]
      else dir :: lineage_from fuel' (filepath_Dir dir)
  end.

Definition lineage (dir : string) : list string :=
  lineage_from (String.length dir) dir.

(** A directory is made where nothing exists; what exists is left alone. *)
Definition make_directory (stamp : time.Time) (f : gmap string Node)
  (dir : string) : gmap string Node :=
  match f !! dir with
  | None => <[dir := Directory stamp]> f
  | Some _ => f
  end.

(** [os.MkdirAll(dir, 0o755)] makes [dir] and the missing directories
    above it, outermost first. Whether it fails is the operating system's
    answer; a failing call has gone through the outermost [mkdirMade env]
    directories. The stamp of a directory that exists is not followed when
    an entry is made in it: the tools refuse a directory before they look
    at its modification time, and the statements on what a run leaves
    alone speak of what is not a directory. *)
Definition os_MkdirAll (env : Env) (dir : string) (w : World)
  : option string * World :=
  let dirs := reverse (lineage dir) in
  match mkdirErr env with
  | Some e =>
      (Some e,
       set_fs (foldl (make_directory (mkdirModTime env)) (fs w)
                 (take (mkdirMade env) dirs)) w)
  | None =>
      (None, set_fs (foldl (make_directory (mkdirModTime env)) (fs w) dirs) w)
  end.

Definition createNewFile (env : Env) (filePath content : string) (w : World)
  : result editResponse * World :=
  match os_Stat w filePath with
  | StatOk fileInfo =>
      if IsDir fileInfo
      then (Err ("path is a directory, not a file: " +:+ filePath), w)
      else (Err ("file already exists: " +:+ filePath +:+
                 ". Use the Replace tool to overwrite an existing file"), w)
  | StatError e => (Err ("failed to access file: " +:+ e), w)
  | StatNotExist =>
      let dir := filepath_Dir filePath in
      match os_MkdirAll env dir w with
      | (Some e, w) =>
          (Err ("failed to create parent directories: " +:+ e), w)
      | (None, w) =>
          if String.eqb (sessionID env) "" || String.eqb (messageID env) ""
          then (Err "session ID and message ID are required for creating a new file", w)
          else
            match GenerateGitDiffWithStats
                    (removeWorkingDirectoryPrefix filePath) "" content with
            | Err e => (Err ("failed to get file diff: " +:+ e), w)
            | Ok (diff, stats) =>
                let p := permissions_Request
                  {| req_Path := filepath_Dir filePath;
                     ToolName := EditToolName;
                     Action := "create";
                     Description := "Create file " +:+ filePath;
                     Params := {| perm_FilePath := filePath; perm_Diff := diff |} |} in
                if negb p then (Err "permission denied", w)
                else
                  match os_WriteFile env filePath content w with
                  | (Some e, w1) => (Err ("failed to write file: " +:+ e), w1)
                  | (None, w1) =>
                      let w2 := recordFileWrite filePath (elapse (elapsedWrite env) w1) in
                      let w3 := recordFileRead filePath (elapse (elapsedRead env) w2) in
                      (Ok {| text := "File created: " +:+ filePath;
                             additions := Additions stats;
                             removals := Removals stats |}, w3)
                  end
            end
      end
  end.

Definition deleteContent (env : Env) (filePath oldString : string) (w : World)
  : result editResponse * World :=
  match os_Stat w filePath with
  | StatNotExist => (Err ("file not found: " +:+ filePath), w)
  | StatError e => (Err ("failed to access file: " +:+ e), w)
  | StatOk fileInfo =>
      if IsDir fileInfo
      then (Err ("path is a directory, not a file: " +:+ filePath), w)
      else if time.IsZero (getLastReadTime filePath w)
      then (Err mustReadMessage, w)
      else
        let modTime := ModTime fileInfo in
        let lastRead := getLastReadTime filePath w in
        if time.After modTime lastRead
        then (Err (editStaleMessage filePath modTime lastRead), w)
        else
          match os_ReadFile w filePath with
          | Err e => (Err ("failed to read file: " +:+ e), w)
          | Ok oldContent =>
              let index := strings.Index oldContent oldString in
              if index =? -1
              then (Err "old_string not found in file. Make sure it matches exactly, including whitespace and line breaks", w)
              else
                let lastIndex := strings.LastIndex oldContent oldString in
                if negb (index =? lastIndex)
                then (Err "old_string appears multiple times in the file. Please provide more context to ensure a unique match", w)
                else
                  let newContent :=
                    strings.slice_to oldContent index +:+
                    strings.slice_from oldContent (index + strings.len oldString) in
                  if String.eqb (sessionID env) "" || String.eqb (messageID env) ""
                  then (Err "session ID and message ID are required for creating a new file", w)
                  else
                    match GenerateGitDiffWithStats
                            (removeWorkingDirectoryPrefix filePath)
                            oldContent newContent with
                    | Err e => (Err ("failed to get file diff: " +:+ e), w)
                    | Ok (diff, stats) =>
                        let p := permissions_Request
                          {| req_Path := filepath_Dir filePath;
                             ToolName := EditToolName;
                             Action := "delete";
                             Description := "Delete content from file " +:+ filePath;
                             Params := {| perm_FilePath := filePath; perm_Diff := diff |} |} in
                        if negb p then (Err "permission denied", w)
                        else
                          match os_WriteFile env filePath newContent w with
                          | (Some e, w1) => (Err ("failed to write file: " +:+ e), w1)
                          | (None, w1) =>
                              let w2 := recordFileWrite filePath (elapse (elapsedWrite env) w1) in
                              let w3 := recordFileRead filePath (elapse (elapsedRead env) w2) in
                              (Ok {| text := "Content deleted from file: " +:+ filePath;
                                     additions := Additions stats;
                                     removals := Removals stats |}, w3)
                          end
                    end
          end
  end.

Definition replaceContent (env : Env) (filePath oldString newString : string)
  (w : World) : result editResponse * World :=
  match os_Stat w filePath with
  | StatNotExist => (Err ("file not found: " +:+ filePath), w)
  | StatError e => (Err ("failed to access file: " +:+ e), w)
  | StatOk fileInfo =>
      if IsDir fileInfo
      then (Err ("path is a directory, not a file: " +:+ filePath), w)
      else if time.IsZero (getLastReadTime filePath w)
      then (Err mustReadMessage, w)
      else
        let modTime := ModTime fileInfo in
        let lastRead := getLastReadTime filePath w in
        if time.After modTime lastRead
        then (Err (editStaleMessage filePath modTime lastRead), w)
        else
          match os_ReadFile w filePath with
          | Err e => (Err ("failed to read file: " +:+ e), w)
          | Ok oldContent =>
              let index := strings.Index oldContent oldString in
              if index =? -1
              then (Err "old_string not found in file. Make sure it matches exactly, including whitespace and line breaks", w)
              else
                let lastIndex := strings.LastIndex oldContent oldString in
                if negb (index =? lastIndex)
                then (Err "old_string appears multiple times in the file. Please provide more context to ensure a unique match", w)
                else
                  let newContent :=
                    strings.slice_to oldContent index +:+ newString +:+
                    strings.slice_from oldContent (index + strings.len oldString) in
                  if String.eqb (sessionID env) "" || String.eqb (messageID env) ""
                  then (Err "session ID and message ID are required for creating a new file", w)
                  else
                    match GenerateGitDiffWithStats
                            (removeWorkingDirectoryPrefix filePath)
                            oldContent newContent with
                    | Err e => (Err ("failed to get file diff: " +:+ e), w)
                    | Ok (diff, stats) =>
                        let p := permissions_Request
                          {| req_Path := filepath_Dir filePath;
                             ToolName := EditToolName;
                             Action := "replace";
                             Description := "Replace content in file " +:+ filePath;
                             Params := {| perm_FilePath := filePath; perm_Diff := diff |} |} in
                        if negb p then (Err "permission denied", w)
                        else
                          match os_WriteFile env filePath newContent w with
                          | (Some e, w1) => (Err ("failed to write file: " +:+ e), w1)
                          | (None, w1) =>
                              let w2 := recordFileWrite filePath (elapse (elapsedWrite env) w1) in
                              let w3 := recordFileRead filePath (elapse (elapsedRead env) w2) in
                              (Ok {| text := "Content replaced in file: " +:+ filePath;
                                     additions := Additions stats;
                                     removals := Removals stats |}, w3)
                          end
                    end
          end
  end.

(** The path a tool works on: relative paths are joined to the working
    directory. *)
Definition absPath (filePath : string) : string :=
  if filepath_IsAbs filePath then filePath
  else filepath_Join WorkingDirectory filePath.

(** [editTool.Run]; [input] is the outcome of [json.Unmarshal] on the
    call's input ([None] when it fails). *)
Definition edit_Run (env : Env) (input : option EditParams) (w : World)
  : result ToolResponse * World :=
  match input with
  | None => (Ok (NewTextErrorResponse "invalid parameters"), w)
  | Some params =>
      if String.eqb (FilePath params) ""
      then (Ok (NewTextErrorResponse "file_path is required"), w)
      else
        let filePath := absPath (FilePath params) in
        if String.eqb (OldString params) "" then
          match createNewFile env filePath (NewString params) w with
          | (Err e, w') =>
              (Ok (NewTextErrorResponse ("error creating file: " +:+ e)), w')
          | (Ok r, w') =>
              (Ok (WithResponseMetadata (NewTextResponse (text r))
                     (EditResponseMetadata (additions r) (removals r))), w')
          end
        else if String.eqb (NewString params) "" then
          match deleteContent env filePath (OldString params) w with
          | (Err e, w') =>
              (Ok (NewTextErrorResponse ("error deleting content: " +:+ e)), w')
          | (Ok r, w') =>
              (Ok (WithResponseMetadata (NewTextResponse (text r))
                     (EditResponseMetadata (additions r) (removals r))), w')
          end
        else
          match replaceContent env filePath (OldString params)
                  (NewString params) w with
          | (Err e, w') =>
              (Ok (NewTextErrorResponse ("error replacing content: " +:+ e)), w')
          | (Ok r, w') =>
              let text := "<result>" +:+ LF +:+ text r +:+ LF +:+ "</result>" +:+ LF in
              let text := text +:+ appendDiagnostics filePath in
              (Ok (WithResponseMetadata (NewTextResponse text)
                     (EditResponseMetadata (additions r) (removals r))), w')
          end
  end.

Definition writeStaleMessage (filePath : string) (modTime lastRead : time.Time)
  : string :=
  "File " +:+ filePath +:+ " has been modified since it was last read." +:+ LF +:+
  "Last modification: " +:+ Format_RFC3339 modTime +:+ LF +:+
  "Last read: " +:+ Format_RFC3339 lastRead +:+ LF +:+ LF +:+
  "Please read the file again before modifying it.".

(** [writeTool.Run]; an [Err] is a non-nil Go error, an [Ok] response may
    itself be an error response. *)
Definition write_Run (env : Env) (input : result WriteParams) (w : World)
  : result ToolResponse * World :=
  match input with
  | Err e => (Ok (NewTextErrorResponse ("error parsing parameters: " +:+ e)), w)
  | Ok params =>
      if String.eqb (write_FilePath params) ""
      then (Ok (NewTextErrorResponse "file_path is required"), w)
      else if String.eqb (write_Content params) ""
      then (Ok (NewTextErrorResponse "content is required"), w)
      else
        let filePath := absPath (write_FilePath params) in
        let stat := os_Stat w filePath in
        let checked : option (result ToolResponse) :=
          match stat with
          | StatOk fileInfo =>
              if IsDir fileInfo
              then Some (Ok (NewTextErrorResponse
                               ("Path is a directory, not a file: " +:+ filePath)))
              else
                let modTime := ModTime fileInfo in
                let lastRead := getLastReadTime filePath w in
                if time.After modTime lastRead
                then Some (Ok (NewTextErrorResponse
                                 (writeStaleMessage filePath modTime lastRead)))
                else
                  match os_ReadFile w filePath with
                  | Ok oldContent =>
                      if String.eqb oldContent (write_Content params)
                      then Some (Ok (NewTextErrorResponse
                                       ("File " +:+ filePath +:+
                                        " already contains the exact content. No changes made.")))
                      else None
                  | Err _ => None
                  end
          | StatNotExist => None
          | StatError e => Some (Err ("error checking file: " +:+ e))
          end in
        match checked with
        | Some r => (r, w)
        | None =>
            let dir := filepath_Dir filePath in
            match os_MkdirAll env dir w with
            | (Some e, w) => (Err ("error creating directory: " +:+ e), w)
            | (None, w) =>
                let oldContent :=
                  match stat with
                  | StatOk fileInfo =>
                      if negb (IsDir fileInfo) then
                        match os_ReadFile w filePath with
                        | Ok oldBytes => oldBytes
                        | Err _ => ""
                        end
                      else ""
                  | _ => ""
                  end in
                if String.eqb (sessionID env) "" || String.eqb (messageID env) ""
                then (Err "session_id and message_id are required", w)
                else
                  match GenerateGitDiffWithStats
                          (removeWorkingDirectoryPrefix filePath)
                          oldContent (write_Content params) with
                  | Err e => (Err ("error generating diff: " +:+ e), w)
                  | Ok (diff, stats) =>
                      let p := permissions_Request
                        {| req_Path := filePath;
                           ToolName := WriteToolName;
                           Action := "create";
                           Description := "Create file " +:+ filePath;
                           Params := {| perm_FilePath := filePath; perm_Diff := diff |} |} in
                      if negb p then (Err "permission denied", w)
                      else
                        match os_WriteFile env filePath (write_Content params) w with
                        | (Some e, w1) => (Err ("error writing file: " +:+ e), w1)
                        | (None, w1) =>
                            let w2 := recordFileWrite filePath (elapse (elapsedWrite env) w1) in
                            let w3 := recordFileRead filePath (elapse (elapsedRead env) w2) in
                            let result := "File successfully written: " +:+ filePath in
                            let result := "<result>" +:+ LF +:+ result +:+ LF +:+ "</result>" in
                            let result := result +:+ getDiagnostics filePath in
                            (Ok (WithResponseMetadata (NewTextResponse result)
                                   (WriteResponseMetadata diff (Additions stats)
                                      (Removals stats))), w3)
                        end
                  end
            end
        end
  end.

(** A run failed when it returned a Go error or an error response. *)
Definition run_failed (r : result ToolResponse) : bool :=
  match r with
  | Err _ => true
  | Ok resp => IsError resp
  end.

(** The message of a failed run. *)
Definition run_message (r : result ToolResponse) : string :=
  match r with
  | Err e => e
  | Ok resp => resp_Content resp
  end.

(** ** The provider: retry policy *)

(** An error returned by the vendor client: an [*anthropic.Error] with its
    HTTP status and the values of the response's [Retry-After] header, or
    any other error. *)
Inductive error : Type :=
| APIError (StatusCode : Z) (RetryAfter : list string)
| OtherError (msg : string).

(** Modelled from the spec: the constant [maxRetries] is declared outside
    the files at hand; the spec gives "retry up to 8 times". *)
Definition maxRetries : Z := 8.

(** Go's [int] and [int64]: 64 bits, two's complement. *)
Definition wrap64 (z : Z) : Z := (z + 2 ^ 63) mod 2 ^ 64 - 2 ^ 63.

(** [float64(n)] for an [int] and [int(f)] for a [float64] (truncation
    toward zero), on IEEE 754 binary64. *)
Definition float64_of_int (z : Z) : float :=
  if z <? 0 then PrimFloat.opp (PrimFloat.of_uint63 (Uint63.of_Z (- z)))
  else PrimFloat.of_uint63 (Uint63.of_Z z).

Definition int_of_float64 (f : float) : Z :=
  match Prim2SF f with
  | S754_finite s m e =>
      let a := if 0 <=? e then Z.pos m * 2 ^ e else Z.pos m / 2 ^ (- e) in
      if s then - a else a
  | _ => 0
  end.

(** The binary64 nearest to 0.2. *)
Definition float_0_2 : float := 0x1.999999999999ap-3%float.

Definition itoa (z : Z) : string :=
  DecimalString.NilZero.string_of_int (Z.to_int z).

(** [fmt.Sscanf(s, "%d", &n)]: the integer stored in [n] when the scan
    succeeds, [None] when it returns an error (nothing is stored then). *)
Variable Sscanf_d : string → option Z.

(** [shouldRetry]; [None] is the run-time panic of a negative shift count. *)
Definition shouldRetry (attempts : Z) (err : error)
  : option (bool * Z * option error) :=
  match err with
  | OtherError _ => Some (false, 0, Some err)
  | APIError StatusCode retryAfterValues =>
      if negb (StatusCode =? 429) && negb (StatusCode =? 529)
      then Some (false, 0, Some err)
      else if maxRetries <? attempts
      then Some (false, 0,
                 Some (OtherError
                         ("maximum retry attempts reached for rate limit: " +:+
                          itoa maxRetries +:+ " retries")))
      else if attempts - 1 <? 0 then None
      else
        let backoffMs := wrap64 (2000 * wrap64 (Z.shiftl 1 (attempts - 1))) in
        let jitterMs :=
          int_of_float64 (PrimFloat.mul (float64_of_int backoffMs) float_0_2) in
        let retryMs := wrap64 (backoffMs + jitterMs) in
        let retryMs :=
          match retryAfterValues with
          | v :: _ =>
              match Sscanf_d v with
              | Some n => wrap64 (n * 1000)
              | None => retryMs
              end
          | [] => retryMs
          end in
        Some (true, retryMs, None)
  end.

(** A vendor message: its content blocks and the usage counters. *)
Inductive ContentBlock : Type :=
| TextBlock (Text : string)
| ToolUseBlock (id name input type_ : string).

Record Usage : Type :=
  { InputTokens : Z; OutputTokens : Z;
    CacheCreationInputTokens : Z; CacheReadInputTokens : Z }.

Record anthropic_Message : Type :=
  { am_Content : list ContentBlock; am_Usage : Usage }.

Record ToolCall : Type :=
  { tc_ID : string; tc_Name : string; tc_Input : string; tc_Type : string }.

Record TokenUsage : Type :=
  { tu_InputTokens : Z; tu_OutputTokens : Z;
    CacheCreationTokens : Z; CacheReadTokens : Z }.

Record ProviderResponse : Type :=
  { pr_Content : string; pr_ToolCalls : list ToolCall; pr_Usage : TokenUsage }.

Fixpoint toolCalls (blocks : list ContentBlock) : list ToolCall :=
  match blocks with
  | [] => []
  | ToolUseBlock id name input ty :: rest =>
      {| tc_ID := id; tc_Name := name; tc_Input := input; tc_Type := ty |}
      :: toolCalls rest
  | TextBlock _ :: rest => toolCalls rest
  end.

Definition usage (msg : anthropic_Message) : TokenUsage :=
  {| tu_InputTokens := InputTokens (am_Usage msg);
     tu_OutputTokens := OutputTokens (am_Usage msg);
     CacheCreationTokens := CacheCreationInputTokens (am_Usage msg);
     CacheReadTokens := CacheReadInputTokens (am_Usage msg) |}.

Fixpoint textOf (blocks : list ContentBlock) : string :=
  match blocks with
  | [] => ""
  | TextBlock t :: rest => t +:+ textOf rest
  | ToolUseBlock _ _ _ _ :: rest => textOf rest
  end.

(** One round of the loop of [send] as the outside world answers it: what
    [client.Messages.New] returns, and whether the context is done before
    the retry timer fires. *)
Record Round : Type :=
  { answer : anthropic_Message + error; ctxDone : bool }.

Inductive SendResult : Type :=
| Returned (response : ProviderResponse)
| Failed (err : error)
| ReturnedNil
| Canceled
| Panicked
| Pending.

(** The loop of [send], started with [attempts] calls already made. It
    returns the result together with the waits (in milliseconds) slept
    before the retries; [Pending] when the script of answers ends while
    the loop is about to call the vendor again. *)
Fixpoint send_loop (attempts : Z) (script : list Round)
  : SendResult * list Z :=
  match script with
  | [] => (Pending, [])
  | round :: rest =>
      let attempts := attempts + 1 in
      match answer round with
      | inr err =>
          match shouldRetry attempts err with
          | None => (Panicked, [])
          | Some (retry, after, Some retryErr) => (Failed retryErr, [])
          | Some (retry, after, None) =>
              if retry then
                if ctxDone round then (Canceled, [])
                else
                  let '(r, waits) := send_loop attempts rest in
                  (r, after :: waits)
              else (ReturnedNil, [])
          end
      | inl anthropicResponse =>
          (Returned {| pr_Content := textOf (am_Content anthropicResponse);
                       pr_ToolCalls := toolCalls (am_Content anthropicResponse);
                       pr_Usage := usage anthropicResponse |}, [])
      end
  end.

Definition send (script : list Round) : SendResult * list Z :=
  send_loop 0 script.

(** ** The provider: translating the history *)

Inductive MessageRole : Type := User | Assistant | Tool | System.

Record ToolResult : Type :=
  { ToolCallID : string; tr_Content : string; tr_IsError : bool }.

(** A stored message, as its accessors present it: the text content, the
    tool calls and the tool results. *)
Record Message : Type :=
  { msg_SessionID : string; Role : MessageRole; msg_Content : string;
    ToolCalls : list ToolCall; ToolResults : list ToolResult }.

(** The decoded input of a tool call ([map[string]any]) and
    [json.Unmarshal] into it. *)
Variable JsonMap : Type.
Variable json_Unmarshal : string → option JsonMap.

(** The vendor's request blocks; [CacheControl] tells whether the text
    block carries the ephemeral cache hint. *)
Inductive ContentBlockParam : Type :=
| RequestTextBlock (Text : string) (CacheControl : bool)
| RequestToolUseBlock (id : string) (input : JsonMap) (name : string)
| RequestToolResultBlock (toolUseID content : string) (isError : bool).

Inductive MessageParamRole : Type := RoleUser | RoleAssistant.

Record MessageParam : Type :=
  { mp_Role : MessageParamRole; mp_Content : list ContentBlockParam }.

Definition NewUserMessage (blocks : list ContentBlockParam) : MessageParam :=
  {| mp_Role := RoleUser; mp_Content := blocks |}.

Definition NewAssistantMessage (blocks : list ContentBlockParam) : MessageParam :=
  {| mp_Role := RoleAssistant; mp_Content := blocks |}.

Record anthropicOptions : Type :=
  { useBedrock : bool; disableCache : bool }.

Definition WithAnthropicDisableCache (options : anthropicOptions)
  : anthropicOptions :=
  {| useBedrock := useBedrock options; disableCache := true |}.

(** The tool-use blocks of an assistant message; a call whose input does
    not decode is skipped. *)
Fixpoint toolUseBlocks (calls : list ToolCall) : list ContentBlockParam :=
  match calls with
  | [] => []
  | toolCall :: rest =>
      match json_Unmarshal (tc_Input toolCall) with
      | None => toolUseBlocks rest
      | Some inputMap =>
          RequestToolUseBlock (tc_ID toolCall) inputMap (tc_Name toolCall)
          :: toolUseBlocks rest
      end
  end.

Definition toolResultBlocks (results : list ToolResult)
  : list ContentBlockParam :=
  map (λ toolResult,
         RequestToolResultBlock (ToolCallID toolResult) (tr_Content toolResult)
           (tr_IsError toolResult)) results.

(** The loop of [convertMessages], with the counter [cachedBlocks] as it
    stands before the remaining messages. *)
Fixpoint convertMessages_from (options : anthropicOptions) (cachedBlocks : Z)
  (messages : list Message) : list MessageParam :=
  match messages with
  | [] => []
  | msg :: rest =>
      match Role msg with
      | User =>
          let mark := (cachedBlocks <? 2) && negb (disableCache options) in
          let cachedBlocks := if mark then cachedBlocks + 1 else cachedBlocks in
          NewUserMessage [RequestTextBlock (msg_Content msg) mark]
          :: convertMessages_from options cachedBlocks rest
      | Assistant =>
          let hasText := negb (String.eqb (msg_Content msg) "") in
          let mark :=
            hasText && (cachedBlocks <? 2) && negb (disableCache options) in
          let cachedBlocks := if mark then cachedBlocks + 1 else cachedBlocks in
          let blocks :=
            (if hasText then [RequestTextBlock (msg_Content msg) mark] else [])
            ++ toolUseBlocks (ToolCalls msg) in
          match blocks with
          | [] => convertMessages_from options cachedBlocks rest
          | _ => NewAssistantMessage blocks
                 :: convertMessages_from options cachedBlocks rest
          end
      | Tool =>
          NewUserMessage (toolResultBlocks (ToolResults msg))
          :: convertMessages_from options cachedBlocks rest
      | System => convertMessages_from options cachedBlocks rest
      end
  end.

Definition convertMessages (options : anthropicOptions)
  (messages : list Message) : list MessageParam :=
  convertMessages_from options 0 messages.

(** The cache hints of the text blocks of a request, in request order. *)
Definition blockHints (blocks : list ContentBlockParam) : list bool :=
  flat_map (λ b, match b with
                 | RequestTextBlock _ c => [c]
                 | _ => []
                 end) blocks.

Definition cacheHints (request : list MessageParam) : list bool :=
  flat_map (λ m, blockHints (mp_Content m)) request.

(** The claim's words, for comparison with the code: the hinted text
    blocks are the most recent ones, at most two of them. *)
Definition hints_on_most_recent (hints : list bool) : Prop :=
  hints = replicate (length hints - 2) false
          ++ replicate (Nat.min 2 (length hints)) true.

(** What the code does: the hinted text blocks are the earliest ones.
    [earliest_hints k n] are the hints of [n] text blocks when [k] more
    blocks may be hinted. *)
Definition earliest_hints (k n : nat) : list bool :=
  replicate (Nat.min k n) true ++ replicate (n - k) false.

Definition hints_on_earliest (hints : list bool) : Prop :=
  hints = earliest_hints 2 (length hints).

(** ** The provider: sessions, the title job and tool dispatch *)

Record Session : Type :=
  { sess_ID : string; Title : string;
    PromptTokens : Z; CompletionTokens : Z }.

(** Modelled from the spec: the message and session services behind
    [a.app.Messages] and [a.app.Sessions] are declared outside the files at
    hand; the spec gives them as stores with create, get, save and
    list-by-session operations. A store failure is an outcome supplied from
    outside. *)
Record App : Type :=
  { Messages : list Message; Sessions : gmap string Session }.

Definition Messages_List (app : App) (sessionID : string) : list Message :=
  filter (λ m, msg_SessionID m = sessionID) (Messages app).

Definition Messages_Create (storeErr : option string) (m : Message) (app : App)
  : result Message * App :=
  match storeErr with
  | Some e => (Err e, app)
  | None => (Ok m, {| Messages := Messages app ++ [m]; Sessions := Sessions app |})
  end.

Definition Sessions_Get (app : App) (sessionID : string) : result Session :=
  match Sessions app !! sessionID with
  | Some session => Ok session
  | None => Err "session not found"
  end.

Definition Sessions_Save (storeErr : option string) (session : Session)
  (app : App) : option string * App :=
  match storeErr with
  | Some e => (Some e, app)
  | None =>
      (None, {| Messages := Messages app;
                Sessions := <[sess_ID session := session]> (Sessions app) |})
  end.

Record Model : Type :=
  { ModelID : string; ModelName : string; Provider : string; APIModel : string }.

(** [models.SupportedModels[id]]; a missing key gives the zero [Model]. The
    price fields are left out. *)
Definition SupportedModels (id : string) : Model :=
  if String.eqb id "claude-3.5-sonnet" then
    {| ModelID := "claude-3.5-sonnet"; ModelName := "Claude 3.5 Sonnet";
       Provider := "anthropic"; APIModel := "claude-3-5-sonnet-latest" |}
  else if String.eqb id "claude-3-haiku" then
    {| ModelID := "claude-3-haiku"; ModelName := "Claude 3 Haiku";
       Provider := "anthropic"; APIModel := "claude-3-haiku-latest" |}
  else if String.eqb id "claude-3.7-sonnet" then
    {| ModelID := "claude-3.7-sonnet"; ModelName := "Claude 3.7 Sonnet";
       Provider := "anthropic"; APIModel := "claude-3-7-sonnet-latest" |}
  else {| ModelID := ""; ModelName := ""; Provider := ""; APIModel := "" |}.

Record MessageNewParams : Type :=
  { mnp_Model : string; MaxTokens : Z;
    mnp_Messages : list MessageParam;
    (** the system text blocks, each with its cache hint *)
    mnp_System : list (string * bool) }.

Definition titleSystemMessage : string :=
  "You will generate a short title based on the first message a user begins a conversation with" +:+ LF +:+
  "- ensure it is not more than 50 characters long" +:+ LF +:+
  "- the title should be a summary of the user's message" +:+ LF +:+
  "- do not use quotes or colons" +:+ LF +:+
  "- the entire text you return will be used as the title".

(** The request [generateSessionTitle] sends; [bigModel] is
    [viper.GetString("models.big")]. *)
Definition titleRequest (bigModel userMessage : string) : MessageNewParams :=
  let model := APIModel (SupportedModels bigModel) in
  {| mnp_Model := model;
     MaxTokens := 5000;
     mnp_Messages := [NewUserMessage [RequestTextBlock userMessage false]];
     mnp_System := [(titleSystemMessage, true)] |}.

Definition generateSessionTitle
  (client : MessageNewParams → anthropic_Message + error)
  (bigModel userMessage : string) : string + error :=
  match client (titleRequest bigModel userMessage) with
  | inr err => inr err
  | inl response => inl (textOf (am_Content response))
  end.

(** A task started with [go]: the title generation, with the timeout of its
    context in seconds. *)
Inductive Detached : Type :=
| TitleGeneration (timeoutSeconds : Z) (sessionID content : string).

(** The head of [NewMessage]: the tasks it starts before the user message
    is created. *)
Definition NewMessage_launch (app : App) (sessionID content : string)
  : list Detached :=
  let messages := Messages_List app sessionID in
  if Nat.eqb (length messages) 0
  then [TitleGeneration 30 sessionID content]
  else [].

(** The body of the title task: what it leaves in the stores and what it
    writes to the log. Nothing of it reaches the caller of [NewMessage].
    The task runs beside the main flow of [NewMessage], which reads and
    saves the same session: [between] is what the main flow does to the
    stores after the task's [Sessions.Get] and before its
    [Sessions.Save]. *)
Definition runDetached_beside (between : App → App)
  (client : MessageNewParams → anthropic_Message + error)
  (bigModel : string) (saveErr : option string) (job : Detached) (app : App)
  : App * list string :=
  match job with
  | TitleGeneration _ sessionID content =>
      match generateSessionTitle client bigModel content with
      | inr _ => (app, ["failed to generate session title"])
      | inl title =>
          match Sessions_Get app sessionID with
          | Err _ => (app, [])
          | Ok session =>
              let session :=
                {| sess_ID := sess_ID session; Title := title;
                   PromptTokens := PromptTokens session;
                   CompletionTokens := CompletionTokens session |} in
              match Sessions_Save saveErr session (between app) with
              | (Some _, app') => (app', ["failed to set session title"])
              | (None, app') => (app', [])
              end
          end
      end
  end.

(** The title task when the main flow does nothing to the stores between
    the task's [Sessions.Get] and its [Sessions.Save]. *)
Definition runDetached
  (client : MessageNewParams → anthropic_Message + error)
  (bigModel : string) (saveErr : option string) (job : Detached) (app : App)
  : App * list string :=
  runDetached_beside (λ app, app) client bigModel saveErr job app.

(** The main flow of [NewMessage] after an answer of the vendor: the
    usage is added to the counters of the session, which is read and saved
    (the cost, a [float64] sum, is left out). *)
Definition addUsage (saveErr : option string) (sessionID : string)
  (answer : anthropic_Message) (app : App) : option string * App :=
  match Sessions_Get app sessionID with
  | Err e => (Some e, app)
  | Ok session =>
      let session :=
        {| sess_ID := sess_ID session; Title := Title session;
           PromptTokens :=
             wrap64 (PromptTokens session + InputTokens (am_Usage answer));
           CompletionTokens :=
             wrap64 (CompletionTokens session
                     + OutputTokens (am_Usage answer)) |} in
      Sessions_Save saveErr session app
  end.

(** A registered tool: its name and its [Run] on the call's input. *)
Record BaseTool : Type :=
  { Info_Name : string;
    tool_Run : string → World → result ToolResponse * World }.

(** The search for the tool in the task of one tool call: the response,
    [isError] and [found] after the loop over [a.tools]. *)
Fixpoint findAndRun (tools : list BaseTool) (toolCall : ToolCall) (w : World)
  : (string * bool * bool) * World :=
  match tools with
  | [] => (("", false, false), w)
  | tool :: rest =>
      if String.eqb (Info_Name tool) (tc_Name toolCall) then
        match tool_Run tool (tc_Input toolCall) w with
        | (Err toolErr, w') =>
            (("error running tool: " +:+ toolErr, true, true), w')
        | (Ok toolResult, w') =>
            ((resp_Content toolResult, IsError toolResult, true), w')
        end
      else findAndRun rest toolCall w
  end.

(** The result one task computes for its tool call. *)
Definition runToolCall (tools : list BaseTool) (toolCall : ToolCall) (w : World)
  : ToolResult * World :=
  let '((response, isError, found), w') := findAndRun tools toolCall w in
  let response :=
    if negb found then "tool not found: " +:+ tc_Name toolCall else response in
  ({| ToolCallID := tc_ID toolCall; tr_Content := response;
      tr_IsError := isError |}, w').

(** The state shared by the tasks of one dispatch. *)
Record Dispatch : Type :=
  { d_world : World;
    toolResults : list ToolResult;
    anthropicToolResults : list ContentBlockParam }.

Definition zeroToolResult : ToolResult :=
  {| ToolCallID := ""; tr_Content := ""; tr_IsError := false |}.

(** One task, from its start to the end of its critical section. *)
Definition task (tools : list BaseTool) (index : nat) (toolCall : ToolCall)
  (d : Dispatch) : Dispatch :=
  let '(r, w') := runToolCall tools toolCall (d_world d) in
  {| d_world := w';
     toolResults := <[index := r]> (toolResults d);
     anthropicToolResults :=
       anthropicToolResults d ++
       [RequestToolResultBlock (tc_ID toolCall) (tr_Content r) (tr_IsError r)] |}.

(** A task is started for each call; an index outside the calls starts
    nothing. *)
Definition dispatch_step (tools : list BaseTool) (calls : list ToolCall)
  (d : Dispatch) (index : nat) : Dispatch :=
  match calls !! index with
  | Some toolCall => task tools index toolCall d
  | None => d
  end.

(** The tasks of a dispatch, finishing in the order of [schedule] (the
    indices of the tool calls in the order in which their tasks take the
    mutex). *)
Definition executeTools (tools : list BaseTool) (calls : list ToolCall)
  (schedule : list nat) (w : World) : Dispatch :=
  foldl (dispatch_step tools calls)
        {| d_world := w;
           toolResults := replicate (length calls) zeroToolResult;
           anthropicToolResults := [] |}
        schedule.

(** After [wg.Wait()]: the tool message is created and the results are
    appended to the vendor history. *)
Definition dispatchToolCalls (tools : list BaseTool) (storeErr : option string)
  (sessionID : string) (calls : list ToolCall) (schedule : list nat)
  (w : World) (app : App) (anthropicMessages : list MessageParam)
  : result (list MessageParam) * World * App :=
  let d := executeTools tools calls schedule w in
  match Messages_Create storeErr
          {| msg_SessionID := sessionID; Role := Tool; msg_Content := "";
             ToolCalls := []; ToolResults := toolResults d |} app with
  | (Err e, app') => (Err e, d_world d, app')
  | (Ok _, app') =>
      (Ok (anthropicMessages ++ [NewUserMessage (anthropicToolResults d)]),
       d_world d, app')
  end.

(** Every task runs once: the schedule is an ordering of the indices. *)
Definition complete_schedule (calls : list ToolCall) (schedule : list nat)
  : Prop :=
  Permutation schedule (seq 0 (length calls)).

(** The records of [filePath] after a mutation: written, then read. *)
Definition recorded (filePath : string) (w : World) : Prop :=
  ∃ record,
    fileRecords w !! filePath = Some record
    ∧ 0 < writeTime record
    ∧ writeTime record ≤ readTime record
    ∧ getLastReadTime filePath w = readTime record.

(** The slot of call [i] holds a result that carries the call's id. *)
Definition slot_ok (calls : list ToolCall) (results : list ToolResult)
  (i : nat) : Prop :=
  ∀ toolCall, calls !! i = Some toolCall →
    ∃ r, results !! i = Some r ∧ ToolCallID r = tc_ID toolCall.

(** ** What a run may touch *)

(** What a run may do to a path other than its target: leave it as it
    is, or make a directory there, where nothing existed, when the path is
    one of [dirs]. *)
Definition kept_or_made (dirs : list string) (w w' : World) (p : string)
  : Prop :=
  fs w' !! p = fs w !! p
  ∨ (p ∈ dirs ∧ fs w !! p = None
     ∧ ∃ stamp, fs w' !! p = Some (Directory stamp)).

(** [w'] is [w] but for directories made at some of [dirs]. *)
Definition only_directories (dirs : list string) (w w' : World) : Prop :=
  fileRecords w' = fileRecords w ∧ clock w' = clock w
  ∧ snapshots w' = snapshots w
  ∧ ∀ p, kept_or_made dirs w w' p.



(** The files of [w'] are those of [w]: what is not a directory lies at
    the same paths and is the same. *)
Definition same_files (w w' : World) : Prop :=
  ∀ p node, (∀ stamp, node ≠ Directory stamp) →
    (fs w' !! p = Some node ↔ fs w !! p = Some node).

(** ** Scripts of vendor answers *)

(** A round that makes [send] wait and call again: a 429 or 529 answer,
    with the context still live when the timer fires. *)
Definition retryable (round : Round) : Prop :=
  ∃ status values,
    answer round = inr (APIError status values)
    ∧ (status = 429 ∨ status = 529)
    ∧ ctxDone round = false.

(** The error [shouldRetry] makes up when the attempts are used up. *)
Definition retriesExhausted : error :=
  OtherError "maximum retry attempts reached for rate limit: 8 retries".

(** ** Identifiers carried by a request and by a history *)

Definition blockResultIDs (blocks : list ContentBlockParam) : list string :=
  flat_map (λ b, match b with
                 | RequestToolResultBlock toolUseID _ _ => [toolUseID]
                 | _ => []
                 end) blocks.

Definition blockToolUseIDs (blocks : list ContentBlockParam) : list string :=
  flat_map (λ b, match b with
                 | RequestToolUseBlock id _ _ => [id]
                 | _ => []
                 end) blocks.

Definition requestResultIDs (request : list MessageParam) : list string :=
  flat_map (λ m, blockResultIDs (mp_Content m)) request.

Definition requestToolUseIDs (request : list MessageParam) : list string :=
  flat_map (λ m, blockToolUseIDs (mp_Content m)) request.

(** The ids of the tool results of the tool messages of a history. *)
Definition historyResultIDs (messages : list Message) : list string :=
  flat_map (λ m, match Role m with
                 | Tool => map ToolCallID (ToolResults m)
                 | _ => []
                 end) messages.

(** The ids of the tool calls whose input decodes. *)
Fixpoint decodableIDs (calls : list ToolCall) : list string :=
  match calls with
  | [] => []
  | toolCall :: rest =>
      match json_Unmarshal (tc_Input toolCall) with
      | Some _ => tc_ID toolCall :: decodableIDs rest
      | None => decodableIDs rest
      end
  end.

Definition historyToolUseIDs (messages : list Message) : list string :=
  flat_map (λ m, match Role m with
                 | Assistant => decodableIDs (ToolCalls m)
                 | _ => []
                 end) messages.

Definition is_System (m : Message) : bool :=
  match Role m with System => true | _ => false end.

(** ** The provider: tools and request parameters *)

(** What [tool.Info()] returns. *)
Record ToolInfo : Type :=
  { info_Name : string; info_Description : string;
    info_Parameters : JsonMap; info_Required : list string }.

Record ToolParam : Type :=
  { tp_Name : string; tp_Description : string;
    tp_InputSchema : JsonMap; tp_CacheControl : bool }.

(** [convertTools], on the infos of the tools. *)
Definition convertTools (options : anthropicOptions) (tools : list ToolInfo)
  : list ToolParam :=
  imap (λ i info,
          {| tp_Name := info_Name info;
             tp_Description := info_Description info;
             tp_InputSchema := info_Parameters info;
             tp_CacheControl :=
               (Z.of_nat i =? Z.of_nat (length tools) - 1)
               && negb (disableCache options) |}) tools.

Record providerClientOptions : Type :=
  { po_APIModel : string; po_maxTokens : Z; po_systemMessage : string }.

(** The loop over the blocks of the last message: the text of the last
    text block that is not empty, [messageContent] when there is none. *)
Fixpoint lastText (blocks : list ContentBlockParam) (messageContent : string)
  : string :=
  match blocks with
  | [] => messageContent
  | RequestTextBlock t _ :: rest =>
      lastText rest (if String.eqb t "" then messageContent else t)
  | _ :: rest => lastText rest messageContent
  end.

Record PreparedParams : Type :=
  { prep_Model : string; prep_MaxTokens : Z;
    prep_Temperature : Z;
    prep_Messages : list MessageParam;
    prep_Tools : list ToolParam;
    (** the thinking budget, when thinking is enabled *)
    prep_Thinking : option Z;
    prep_System : list (string * bool) }.

(** The binary64 nearest to 0.8. *)
Definition float_0_8 : float := 0x1.999999999999ap-1%float.

(** [preparedMessages]; [shouldThink] is the option's predicate ([None]
    for nil); the result is [None] when [messages] is empty (the index
    [len(messages)-1] is out of range). *)
Definition preparedMessages (po : providerClientOptions)
  (shouldThink : option (string → bool)) (messages : list MessageParam)
  (tools : list ToolParam) : option PreparedParams :=
  match last messages with
  | None => None
  | Some lastMessage =>
      let isUser :=
        match mp_Role lastMessage with RoleUser => true | _ => false end in
      let messageContent :=
        if isUser then lastText (mp_Content lastMessage) "" else "" in
      let think :=
        isUser && negb (String.eqb messageContent "")
        && match shouldThink with
           | Some f => f messageContent
           | None => false
           end in
      Some {| prep_Model := po_APIModel po;
              prep_MaxTokens := po_maxTokens po;
              prep_Temperature := if think then 1 else 0;
              prep_Messages := messages;
              prep_Tools := tools;
              prep_Thinking :=
                if think
                then Some (int_of_float64
                             (PrimFloat.mul (float64_of_int (po_maxTokens po))
                                float_0_8))
                else None;
              prep_System := [(po_systemMessage po, true)] |}
  end.

(** ** The ls tool: the tree of the listed paths *)

(** [TreeNode]; [Children] is [None] for Go's nil slice. *)
#[warnings="-register-all"] Inductive TreeNode : Type :=
| mkTreeNode (Name Path Type_ : string) (Children : option (list TreeNode)).

Definition tn_Name (node : TreeNode) : string :=
  match node with mkTreeNode name _ _ _ => name end.

Definition tn_Path (node : TreeNode) : string :=
  match node with mkTreeNode _ path _ _ => path end.

Definition tn_Type (node : TreeNode) : string :=
  match node with mkTreeNode _ _ type _ => type end.

Definition tn_Children (node : TreeNode) : option (list TreeNode) :=
  match node with mkTreeNode _ _ _ children => children end.

(** The path separator, as a byte and as a string. *)
Definition Separator : Ascii.ascii := Ascii.ascii_of_nat 47.
Definition SeparatorString : string := String Separator "".

(** [strings.Split(s, string(filepath.Separator))] *)
Fixpoint strings_Split (s : string) : list string :=
  match s with
  | EmptyString => [""]
  | String c rest =>
      if Ascii.eqb c Separator then "" :: strings_Split rest
      else match strings_Split rest with
           | first :: others => String c first :: others
           | [] => [String c ""]
           end
  end.

(** [strings.HasSuffix(s, suffix)] *)
Definition strings_HasSuffix (s suffix : string) : bool :=
  (String.length suffix <=? String.length s)%nat
  && String.eqb
       (strings.drop (String.length s - String.length suffix) s) suffix.

(** The index of the first node of the level that bears the name. *)
Fixpoint findName (part : string) (level : list TreeNode) : option nat :=
  match level with
  | [] => None
  | node :: rest =>
      if String.eqb (tn_Name node) part then Some 0%nat
      else S <$> findName part rest
  end.

(** The loop over the parts of one path: the level [currentLevel] points
    to, after the remaining parts were worked in. [pathIsDir] tells whether
    the path ends with the separator. *)
Fixpoint insertParts (pathIsDir : bool) (parts : list string)
  (currentPath : string) (currentLevel : list TreeNode) : list TreeNode :=
  match parts with
  | [] => currentLevel
  | part :: rest =>
      if String.eqb part "" then
        insertParts pathIsDir rest currentPath currentLevel
      else
        let currentPath :=
          if String.eqb currentPath "" then part
          else filepath_Join currentPath part in
        let isLastPart := match rest with [] => true | _ => false end in
        let isDir := negb isLastPart || pathIsDir in
        match findName part currentLevel with
        | Some i =>
            match currentLevel !! i with
            | Some (mkTreeNode name path type (Some children)) =>
                <[i := mkTreeNode name path type
                         (Some (insertParts pathIsDir rest currentPath
                                  children))]> currentLevel
            | _ => insertParts pathIsDir rest currentPath currentLevel
            end
        | None =>
            if isDir then
              currentLevel ++
              [mkTreeNode part currentPath "directory"
                 (Some (insertParts pathIsDir rest currentPath []))]
            else
              insertParts pathIsDir rest currentPath
                (currentLevel ++ [mkTreeNode part currentPath "file" None])
        end
  end.

Definition insertPath (root : list TreeNode) (path : string) : list TreeNode :=
  insertParts (strings_HasSuffix path SeparatorString) (strings_Split path)
    "" root.

Definition createFileTree (sortedPaths : list string) : list TreeNode :=
  foldl insertPath [] sortedPaths.

(** A node as [createFileTree] builds them: a file without children, or a
    directory whose children bear different names and are such nodes
    themselves; no name is empty. *)
#[warnings="-register-all"] Inductive node_ok : TreeNode → Prop :=
| node_ok_file (name path : string) :
    name ≠ "" → node_ok (mkTreeNode name path "file" None)
| node_ok_directory (name path : string) (children : list TreeNode) :
    name ≠ "" →
    NoDup (map tn_Name children) →
    Forall node_ok children →
    node_ok (mkTreeNode name path "directory" (Some children)).

Definition level_ok (level : list TreeNode) : Prop :=
  NoDup (map tn_Name level) ∧ Forall node_ok level.

(** ** The sidebar of the chat page: the modified files of the session *)

(** The version string of a file's first snapshot, and the diff engine
    (diff text, additions, removals); both live outside the files at
    hand. *)
Variable history_InitialVersion : string.
Variable diff_GenerateDiff : string → string → string → string * Z * Z.

(** [strings.TrimPrefix(s, prefix)] *)
Definition strings_TrimPrefix (s prefix : string) : string :=
  if strings.HasPrefix s prefix then strings.drop (String.length prefix) s
  else s.

(** Helper function to get the display path for a file *)
Definition getDisplayPath (path : string) : string :=
  let workingDir := WorkingDirectory in
  let displayPath := strings_TrimPrefix path workingDir in
  strings_TrimPrefix displayPath SeparatorString.

(** The values of [modFiles]. *)
Record FileStats : Type := { stat_additions : Z; stat_removals : Z }.

(** What the history service answers at one moment. *)
Record history_Service : Type :=
  { ListLatestSessionFiles : string → result (list history_File);
    ListBySession : string → result (list history_File) }.

(** [sidebarCmp]; [None] is a nil interface, a nil map. *)
Record sidebarCmp : Type :=
  { sb_width : Z; sb_height : Z;
    sb_session : Session;
    sb_history : option history_Service;
    sb_modFiles : option (gmap string FileStats) }.

Definition set_session (session : Session) (m : sidebarCmp) : sidebarCmp :=
  {| sb_width := sb_width m; sb_height := sb_height m;
     sb_session := session; sb_history := sb_history m;
     sb_modFiles := sb_modFiles m |}.

Definition set_modFiles (modFiles : option (gmap string FileStats))
  (m : sidebarCmp) : sidebarCmp :=
  {| sb_width := sb_width m; sb_height := sb_height m;
     sb_session := sb_session m; sb_history := sb_history m;
     sb_modFiles := modFiles |}.

Definition NewSidebarCmp (session : Session)
  (history : option history_Service) : sidebarCmp :=
  {| sb_width := 0; sb_height := 0; sb_session := session;
     sb_history := history; sb_modFiles := None |}.

(** A call either returns or panics. *)
Inductive outcome (A : Type) : Type :=
| Returns (a : A)
| Panics.
Arguments Returns {A} a.
Arguments Panics {A}.

(** [history.File{}] *)
Definition zero_File : history_File :=
  {| ID := ""; SessionID := ""; Path := ""; Content := ""; Version := "" |}.

(** The first of the files with the path and the initial version. *)
Fixpoint initialVersionOf (files : list history_File) (path : string)
  : option history_File :=
  match files with
  | [] => None
  | v :: rest =>
      if String.eqb (Path v) path
         && String.eqb (Version v) history_InitialVersion
      then Some v
      else initialVersionOf rest path
  end.

(** The body of the loop of [loadModifiedFiles] over the latest files. *)
Definition loadFile (allFiles : list history_File)
  (modFiles : gmap string FileStats) (file : history_File)
  : gmap string FileStats :=
  if String.eqb (Version file) history_InitialVersion then modFiles
  else
    let initialVersion :=
      default zero_File (initialVersionOf allFiles (Path file)) in
    if String.eqb (ID initialVersion) "" then modFiles
    else if String.eqb (Content initialVersion) (Content file) then modFiles
    else
      let '(_, additions, removals) :=
        diff_GenerateDiff (Content initialVersion) (Content file)
          (Path file) in
      if (0 <? additions) || (0 <? removals) then
        let displayPath := Path file in
        let workingDir := WorkingDirectory in
        let displayPath := strings_TrimPrefix displayPath workingDir in
        let displayPath := strings_TrimPrefix displayPath SeparatorString in
        <[displayPath := {| stat_additions := additions;
                            stat_removals := removals |}]> modFiles
      else modFiles.

Definition loadModifiedFiles (m : sidebarCmp) : sidebarCmp :=
  match sb_history m with
  | None => m
  | Some history =>
      if String.eqb (sess_ID (sb_session m)) "" then m
      else
        match ListLatestSessionFiles history (sess_ID (sb_session m)) with
        | Err _ => m
        | Ok latestFiles =>
            match ListBySession history (sess_ID (sb_session m)) with
            | Err _ => m
            | Ok allFiles =>
                set_modFiles (Some (foldl (loadFile allFiles) ∅ latestFiles)) m
            end
        end
  end.

(** Helper function to find the initial version of a file *)
Definition findInitialVersion (history : history_Service)
  (sessionID path : string) : result history_File :=
  match ListBySession history sessionID with
  | Err err => Err err
  | Ok fileVersions =>
      match initialVersionOf fileVersions path with
      | Some v => Ok v
      | None => Err "initial version not found"
      end
  end.

(** [m.modFiles[displayPath] = stats] panics on a nil map;
    [delete(m.modFiles, displayPath)] does nothing on one. *)
Definition modFiles_assign (displayPath : string) (stats : FileStats)
  (m : sidebarCmp) : outcome sidebarCmp :=
  match sb_modFiles m with
  | None => Panics
  | Some modFiles =>
      Returns (set_modFiles (Some (<[displayPath := stats]> modFiles)) m)
  end.

Definition modFiles_delete (displayPath : string) (m : sidebarCmp)
  : sidebarCmp :=
  set_modFiles (delete displayPath <$> sb_modFiles m) m.

Definition processFileChanges (m : sidebarCmp) (file : history_File)
  : outcome sidebarCmp :=
  if String.eqb (Version file) history_InitialVersion then Returns m
  else
    match sb_history m with
    | None => Panics
    | Some history =>
        match findInitialVersion history (sess_ID (sb_session m))
                (Path file) with
        | Err _ => Returns m
        | Ok initialVersion =>
            if String.eqb (ID initialVersion) "" then Returns m
            else if String.eqb (Content initialVersion) (Content file) then
              Returns (modFiles_delete (getDisplayPath (Path file)) m)
            else
              let '(_, additions, removals) :=
                diff_GenerateDiff (Content initialVersion) (Content file)
                  (Path file) in
              if (0 <? additions) || (0 <? removals) then
                modFiles_assign (getDisplayPath (Path file))
                  {| stat_additions := additions;
                     stat_removals := removals |} m
              else
                Returns (modFiles_delete (getDisplayPath (Path file)) m)
        end
    end.

(** The messages [Update] looks at. *)
Inductive EventType : Type := CreatedEvent | UpdatedEvent | DeletedEvent.

Inductive sidebarMsg : Type :=
| SessionSelectedMsg (session : Session)
| SessionEvent (type : EventType) (payload : Session)
| FileEvent (type : EventType) (payload : history_File)
| OtherMsg.

Definition sidebar_Init (m : sidebarCmp) : sidebarCmp :=
  match sb_history m with
  | Some _ => loadModifiedFiles (set_modFiles (Some ∅) m)
  | None => m
  end.

Definition sidebar_Update (m : sidebarCmp) (msg : sidebarMsg)
  : outcome sidebarCmp :=
  match msg with
  | SessionSelectedMsg session =>
      if negb (String.eqb (sess_ID session) (sess_ID (sb_session m))) then
        Returns (loadModifiedFiles (set_session session m))
      else Returns m
  | SessionEvent type payload =>
      match type with
      | UpdatedEvent =>
          if String.eqb (sess_ID (sb_session m)) (sess_ID payload) then
            Returns (set_session payload m)
          else Returns m
      | _ => Returns m
      end
  | FileEvent _ payload =>
      if String.eqb (SessionID payload) (sess_ID (sb_session m)) then
        processFileChanges m payload
      else Returns m
  | OtherMsg => Returns m
  end.

(** The history store changes between the messages: each message comes
    with what the service answers when it is handled. *)
Definition answering (history : history_Service) (m : sidebarCmp)
  : sidebarCmp :=
  {| sb_width := sb_width m; sb_height := sb_height m;
     sb_session := sb_session m;
     sb_history := match sb_history m with
                   | Some _ => Some history
                   | None => None
                   end;
     sb_modFiles := sb_modFiles m |}.

Fixpoint sidebar_run (m : sidebarCmp)
  (messages : list (history_Service * sidebarMsg)) : outcome sidebarCmp :=
  match messages with
  | [] => Returns m
  | (history, msg) :: rest =>
      match sidebar_Update (answering history m) msg with
      | Returns m' => sidebar_run m' rest
      | Panics => Panics
      end
  end.

(** An entry of [modFiles] counts at least one added or removed line. *)
Definition counts_a_change (stats : FileStats) : Prop :=
  0 < stat_additions stats ∨ 0 < stat_removals stats.

(** What the loop of [loadModifiedFiles] puts into the map for a file. *)
Definition fileEntry (allFiles : list history_File) (file : history_File)
  : option FileStats :=
  loadFile allFiles ∅ file !! getDisplayPath (Path file).

(** A file the sidebar can compare: not an initial version itself, and
    with an initial version that has an id. *)
Definition tracked (allFiles : list history_File) (file : history_File)
  : bool :=
  negb (String.eqb (Version file) history_InitialVersion)
  && match initialVersionOf allFiles (Path file) with
     | Some v => negb (String.eqb (ID v) "")
     | None => false
     end.

(** A sidebar after [Init]: with its history service and its map, every
    entry of which counts a change. *)
Definition sidebar_ok (m : sidebarCmp) : Prop :=
  is_Some (sb_history m)
  ∧ ∃ modFiles, sb_modFiles m = Some modFiles
                ∧ map_Forall (λ _, counts_a_change) modFiles.

(** ** Concrete collaborators and states, for the examples *)

Definition example_IsAbs (p : string) : bool := strings.HasPrefix p "/".

Definition example_Join (dir name : string) : string := dir +:+ "/" +:+ name.

Definition example_Dir (p : string) : string :=
  let i := strings.LastIndex p "/" in
  if i <=? 0 then "/" else strings.slice_to p i.

(** A number in decimal, padded with zeros to [width] digits. *)
Fixpoint pad_left (fuel width : nat) (digits : string) : string :=
  match fuel with
  | O => digits
  | S fuel' =>
      if (String.length digits <? width)%nat
      then pad_left fuel' width ("0" +:+ digits)
      else digits
  end.

Definition decimal (width : nat) (n : Z) : string :=
  pad_left width width (itoa n).

(** The civil date of a day counted from January 1, year 1. *)
Definition civil_from_days (days : Z) : Z * Z * Z :=
  let z := days + 306 in
  let era := z / 146097 in
  let doe := z - era * 146097 in
  let yoe := (doe - doe / 1460 + doe / 36524 - doe / 146096) / 365 in
  let doy := doe - (365 * yoe + yoe / 4 - yoe / 100) in
  let mp := (5 * doy + 2) / 153 in
  let d := doy - (153 * mp + 2) / 5 + 1 in
  let m := if mp <? 10 then mp + 3 else mp - 9 in
  let y := yoe + era * 400 in
  (if m <=? 2 then y + 1 else y, m, d).

(** RFC3339 in UTC, to the second. *)
Definition example_Format (t : time.Time) : string :=
  let secs := t / 1000000000 in
  let '(y, m, d) := civil_from_days (secs / 86400) in
  let sod := secs mod 86400 in
  decimal 4 y +:+ "-" +:+ decimal 2 m +:+ "-" +:+ decimal 2 d +:+ "T" +:+
  decimal 2 (sod / 3600) +:+ ":" +:+ decimal 2 (sod mod 3600 / 60) +:+ ":" +:+
  decimal 2 (sod mod 60) +:+ "Z".

Definition example_Diff (name before after : string)
  : result (string * DiffStats) :=
  Ok ("--- a/" +:+ name +:+ LF +:+ "+++ b/" +:+ name +:+ LF +:+
      "-" +:+ before +:+ LF +:+ "+" +:+ after,
      {| Additions := 1; Removals := 1 |}).

Definition example_grant (req : CreatePermissionRequest) : bool := true.
Definition example_deny (req : CreatePermissionRequest) : bool := false.
Definition example_diagnostics (filePath : string) : string := "".

(** An unsigned decimal at the head of the string. *)
Fixpoint scan_digits (s : string) (acc : Z) (seen : bool) : option Z :=
  match s with
  | EmptyString => if seen then Some acc else None
  | String c rest =>
      let n := Z.of_nat (Ascii.nat_of_ascii c) - 48 in
      if (0 <=? n) && (n <=? 9) then scan_digits rest (10 * acc + n) true
      else if seen then Some acc else None
  end.

Definition example_Sscanf (s : string) : option Z := scan_digits s 0 false.

Definition example_Unmarshal (input : string) : option string := Some input.

(** Seconds into April 1, 2025 (UTC), in nanoseconds from the zero time. *)
Definition example_time (seconds : Z) : time.Time :=
  (63879062400 + seconds) * 1000000000.

Definition example_path : string := "/wd/hello.txt".

Definition example_env : Env :=
  {| sessionID := "session-1"; messageID := "message-1";
     mkdirErr := None; writeErr := None;
     writeModTime := example_time 61;
     elapsedWrite := 1000; elapsedRead := 1000;
     mkdirModTime := example_time 61; mkdirMade := 0; writeDone := None |}.

(** [hello.txt] holds "hello world"; it was written at second 0 and has
    not been read. *)
Definition world_unread : World :=
  {| fs := {[ example_path := RegularFile "hello world" (example_time 0) None ]};
     fileRecords := ∅;
     clock := Z.to_pos (example_time 60);
     snapshots := [] |}.

(** The same, read at second 5. *)
Definition world_read : World :=
  set_fileRecords
    {[ example_path := {| path := example_path;
                          readTime := example_time 5; writeTime := 0 |} ]}
    world_unread.

(** The same, read at second 5 and modified on disk at second 30. *)
Definition world_stale : World :=
  set_fs
    {[ example_path := RegularFile "hello world" (example_time 30) None ]}
    world_read.

Definition user_message (content : string) : Message :=
  {| msg_SessionID := "session-1"; Role := User; msg_Content := content;
     ToolCalls := []; ToolResults := [] |}.

(** A session without a title that already has a message. *)
Definition example_app : App :=
  {| Messages := [user_message "make hello.txt containing hi"];
     Sessions := {[ "session-1" :=
                      {| sess_ID := "session-1"; Title := "";
                         PromptTokens := 0; CompletionTokens := 0 |} ]} |}.

Definition example_calls : list ToolCall :=
  [ {| tc_ID := "toolu_01"; tc_Name := "grep"; tc_Input := "{}";
       tc_Type := "tool_use" |};
    {| tc_ID := "toolu_02"; tc_Name := "glob"; tc_Input := "{}";
       tc_Type := "tool_use" |};
    {| tc_ID := "toolu_03"; tc_Name := "ls"; tc_Input := "{}";
       tc_Type := "tool_use" |} ].

Definition example_tools : list BaseTool :=
  [ {| Info_Name := "ls";
       tool_Run := λ _ w, (Ok (NewTextResponse "hello.txt"), w) |};
    {| Info_Name := "grep";
       tool_Run := λ _ w, (Err "pattern is required", w) |} ].


(** More states and answers for the examples. *)

(** Nothing exists in the working directory. *)
Definition world_fresh : World := set_fs ∅ world_unread.

(** A directory stands where [hello.txt] would be. *)
Definition world_directory : World :=
  set_fs {[ example_path := Directory (example_time 0) ]} world_unread.

(** The file system stamps the file with the clock's time. *)
Definition example_env_synced : Env :=
  {| sessionID := "session-1"; messageID := "message-1";
     mkdirErr := None; writeErr := None;
     writeModTime := example_time 60;
     elapsedWrite := 1000; elapsedRead := 1000;
     mkdirModTime := example_time 60; mkdirMade := 0; writeDone := None |}.

Definition round_overloaded : Round :=
  {| answer := inr (APIError 529 []); ctxDone := false |}.

Definition round_rate_limited (retryAfter : string) : Round :=
  {| answer := inr (APIError 429 [retryAfter]); ctxDone := false |}.

Definition example_answer : anthropic_Message :=
  {| am_Content :=
       [TextBlock "Listing the files.";
        ToolUseBlock "toolu_01" "ls" "{}" "tool_use"];
     am_Usage := {| InputTokens := 120; OutputTokens := 30;
                    CacheCreationInputTokens := 0;
                    CacheReadInputTokens := 0 |} |}.

Definition round_answered : Round :=
  {| answer := inl example_answer; ctxDone := false |}.

Definition round_canceled : Round :=
  {| answer := inr (APIError 429 []); ctxDone := true |}.

(** A diff engine for the examples: it counts the bytes of the new
    content as additions and those of the old content as removals. *)
Definition example_GenerateDiff (old new path : string) : string * Z * Z :=
  (path, strings.len new, strings.len old).

Definition example_session : Session :=
  {| sess_ID := "s1"; Title := "hello"; PromptTokens := 0;
     CompletionTokens := 0 |}.

(** Three snapshots of [/wd/hello.txt]. *)
Definition snapshot_initial : history_File :=
  {| ID := "f1"; SessionID := "s1"; Path := example_path;
     Content := "hello world"; Version := "initial" |}.

Definition snapshot_v1 : history_File :=
  {| ID := "f2"; SessionID := "s1"; Path := example_path;
     Content := "hello there"; Version := "v1" |}.

Definition snapshot_v2 : history_File :=
  {| ID := "f3"; SessionID := "s1"; Path := example_path;
     Content := "hello"; Version := "v2" |}.

Definition history_earlier : history_Service :=
  {| ListLatestSessionFiles := λ _, Ok [snapshot_v1];
     ListBySession := λ _, Ok [snapshot_initial; snapshot_v1] |}.

Definition history_now : history_Service :=
  {| ListLatestSessionFiles := λ _, Ok [snapshot_v2];
     ListBySession := λ _, Ok [snapshot_initial; snapshot_v1; snapshot_v2] |}.

(** ** Lemmas on byte strings *)

Lemma app_nil_l (t : string) : "" +:+ t = t.
Proof. reflexivity. Qed.

Lemma app_cons (a : Ascii.ascii) (s t : string) :
  String a s +:+ t = String a (s +:+ t).
Proof. reflexivity. Qed.

Lemma app_assoc (s t u : string) : (s +:+ t) +:+ u = s +:+ (t +:+ u).
Proof. induction s as [|a s IH]; [done|]. by rewrite !app_cons, IH. Qed.

Lemma app_length (s t : string) :
  String.length (s +:+ t) = (String.length s + String.length t)%nat.
Proof. induction s as [|a s IH]; [done|]. rewrite app_cons. simpl. by rewrite IH. Qed.

Lemma prefix_app (p t : string) : strings.HasPrefix (p +:+ t) p = true.
Proof.
  induction p as [|a p IH]; simpl; [done|].
  by rewrite Ascii.eqb_refl.
Qed.

Lemma prefix_split (p s : string) :
  strings.HasPrefix s p = true → s = p +:+ strings.drop (String.length p) s.
Proof.
  revert s; induction p as [|a p IH]; intros s H; simpl in *.
  - done.
  - destruct s as [|b s]; [done|].
    destruct (Ascii.eqb_spec a b) as [->|]; [|done].
    rewrite app_cons. f_equal. by apply IH.
Qed.

Lemma Index_range (s sub : string) :
  strings.Index s sub = -1 ∨ 0 ≤ strings.Index s sub ≤ strings.len s.
Proof.
  unfold strings.len.
  induction s as [|a s IH]; simpl.
  - destruct (strings.HasPrefix "" sub); simpl; lia.
  - destruct (strings.HasPrefix (String a s) sub); [simpl; lia|].
    destruct (Z.eqb_spec (strings.Index s sub) (-1)); [by left|].
    right. lia.
Qed.

Lemma LastIndex_range (s sub : string) :
  strings.LastIndex s sub = -1 ∨ 0 ≤ strings.LastIndex s sub ≤ strings.len s.
Proof.
  unfold strings.len.
  induction s as [|a s IH]; simpl.
  - destruct (strings.HasPrefix "" sub); simpl; lia.
  - destruct (Z.eqb_spec (strings.LastIndex s sub) (-1)).
    + destruct (strings.HasPrefix (String a s) sub); lia.
    + right. lia.
Qed.

Lemma Index_none (s sub : string) :
  strings.Index s sub = -1 ↔ strings.occurrences s sub = 0%nat.
Proof.
  induction s as [|a s IH]; simpl.
  - destruct (strings.HasPrefix "" sub); simpl; split; (lia || done).
  - destruct (strings.HasPrefix (String a s) sub); simpl; [split; (lia || done)|].
    destruct (Z.eqb_spec (strings.Index s sub) (-1)) as [E|E].
    + split; [intros _; by apply IH | done].
    + split; [|intros H; by apply IH in H].
      destruct (Index_range s sub); lia.
Qed.

Lemma LastIndex_none (s sub : string) :
  strings.LastIndex s sub = -1 ↔ strings.occurrences s sub = 0%nat.
Proof.
  induction s as [|a s IH]; simpl.
  - destruct (strings.HasPrefix "" sub); simpl; split; (lia || done).
  - destruct (Z.eqb_spec (strings.LastIndex s sub) (-1)) as [E|E].
    + apply IH in E. rewrite E.
      destruct (strings.HasPrefix (String a s) sub); simpl; split; (lia || done).
    + split; [destruct (LastIndex_range s sub); lia|].
      intros H. destruct (strings.HasPrefix (String a s) sub); simpl in H; [lia|].
      by apply IH in H.
Qed.

(** With one occurrence the first and the last offset agree; with two or
    more they differ. *)
Lemma Index_LastIndex_once (s sub : string) :
  strings.occurrences s sub = 1%nat →
  strings.Index s sub = strings.LastIndex s sub ∧ 0 ≤ strings.Index s sub.
Proof.
  induction s as [|a s IH]; simpl.
  - destruct (strings.HasPrefix "" sub); simpl; [lia | done].
  - destruct (strings.HasPrefix (String a s) sub); simpl; intros H.
    + assert (E : strings.occurrences s sub = 0%nat) by lia.
      apply LastIndex_none in E. rewrite E. simpl. lia.
    + destruct (IH H) as [E Hi]. rewrite <- E.
      destruct (Z.eqb_spec (strings.Index s sub) (-1)); lia.
Qed.

Lemma Index_le_LastIndex (s sub : string) :
  strings.Index s sub ≤ strings.LastIndex s sub.
Proof.
  induction s as [|a s IH]; simpl.
  - destruct (strings.HasPrefix "" sub); lia.
  - pose proof (Index_range s sub). pose proof (LastIndex_range s sub).
    destruct (strings.HasPrefix (String a s) sub);
      destruct (Z.eqb_spec (strings.LastIndex s sub) (-1));
      destruct (Z.eqb_spec (strings.Index s sub) (-1)); lia.
Qed.

Lemma Index_LastIndex_many (s sub : string) :
  (2 ≤ strings.occurrences s sub)%nat →
  strings.Index s sub ≠ -1 ∧ strings.Index s sub < strings.LastIndex s sub.
Proof.
  induction s as [|a s IH]; simpl.
  - destruct (strings.HasPrefix "" sub); simpl; lia.
  - destruct (strings.HasPrefix (String a s) sub); simpl; intros H.
    + assert (E : strings.occurrences s sub ≠ 0%nat) by lia.
      rewrite <- LastIndex_none in E.
      destruct (Z.eqb_spec (strings.LastIndex s sub) (-1)); [done|].
      destruct (LastIndex_range s sub); lia.
    + destruct (IH H) as [E Hi].
      pose proof (Index_range s sub).
      destruct (Z.eqb_spec (strings.Index s sub) (-1)); [done|].
      destruct (Z.eqb_spec (strings.LastIndex s sub) (-1)); lia.
Qed.

(** The converse direction: equal offsets mean a single occurrence. *)
Lemma Index_eq_LastIndex (s sub : string) :
  strings.Index s sub ≠ -1 →
  strings.Index s sub = strings.LastIndex s sub →
  strings.occurrences s sub = 1%nat.
Proof.
  intros Hne Heq.
  destruct (strings.occurrences s sub) as [|[|n]] eqn:E; [|done|].
  - by apply Index_none in E.
  - destruct (Index_LastIndex_many s sub); lia.
Qed.

Lemma take_drop (n : nat) (s : string) :
  strings.take n s +:+ strings.drop n s = s.
Proof.
  revert s; induction n as [|n IH]; intros [|a s]; simpl; try done.
  by rewrite app_cons, IH.
Qed.

Lemma drop_drop (n m : nat) (s : string) :
  strings.drop m (strings.drop n s) = strings.drop (n + m) s.
Proof.
  revert s; induction n as [|n IH]; intros s; simpl; [done|].
  destruct s; [by destruct m|]. apply IH.
Qed.

Lemma take_length (n : nat) (s : string) :
  (n ≤ String.length s)%nat → String.length (strings.take n s) = n.
Proof.
  revert s; induction n as [|n IH]; intros [|a s]; simpl; intros H; try done; try lia.
  rewrite IH; lia.
Qed.

(** At the offset [Index] returns, the string splits around [sub]. *)
Lemma Index_split (s sub : string) :
  0 ≤ strings.Index s sub →
  s = strings.slice_to s (strings.Index s sub) +:+ sub +:+
      strings.slice_from s (strings.Index s sub + strings.len sub).
Proof.
  unfold strings.slice_to, strings.slice_from, strings.len.
  induction s as [|a s IH]; simpl.
  - destruct (strings.HasPrefix "" sub) eqn:P; [|lia]. intros _.
    rewrite Z.add_0_l, Nat2Z.id. change (Z.to_nat 0) with 0%nat.
      simpl strings.take. rewrite app_nil_l. by apply prefix_split.
  - destruct (strings.HasPrefix (String a s) sub) eqn:P.
    + intros _. rewrite Z.add_0_l, Nat2Z.id. change (Z.to_nat 0) with 0%nat.
      simpl strings.take. rewrite app_nil_l. by apply prefix_split.
    + destruct (Z.eqb_spec (strings.Index s sub) (-1)); [lia|].
      intros _. destruct (Index_range s sub) as [|R]; [done|].
      specialize (IH (proj1 R)).
      replace (Z.to_nat (strings.Index s sub + 1))
        with (S (Z.to_nat (strings.Index s sub))) by lia.
      replace (Z.to_nat (strings.Index s sub + 1 + Z.of_nat (String.length sub)))
        with (S (Z.to_nat (strings.Index s sub + Z.of_nat (String.length sub)))) by lia.
      simpl. by rewrite app_cons, <- IH.
Qed.

Lemma Index_app_found (a t sub : string) :
  0 ≤ strings.Index t sub → 0 ≤ strings.Index (a +:+ t) sub.
Proof.
  intros H. induction a as [|c a IH]; [done|].
  rewrite app_cons. simpl.
  destruct (strings.HasPrefix (String c (a +:+ t)) sub); [done|].
  destruct (Z.eqb_spec (strings.Index (a +:+ t) sub) (-1)); lia.
Qed.

Lemma Contains_app (a sub b : string) :
  strings.Contains (a +:+ sub +:+ b) sub = true.
Proof.
  unfold strings.Contains. apply Z.leb_le, Index_app_found.
  destruct (sub +:+ b) eqn:E; simpl; rewrite <- ?E, prefix_app; done.
Qed.

(** ** The file-record map and the clock *)

Lemma fs_recordFileRead (filePath : string) (w : World) :
  fs (recordFileRead filePath w) = fs w.
Proof. reflexivity. Qed.

Lemma fs_recordFileWrite (filePath : string) (w : World) :
  fs (recordFileWrite filePath w) = fs w.
Proof. reflexivity. Qed.

Lemma clock_elapse (d : N) (w : World) : time_Now w ≤ time_Now (elapse d w).
Proof. unfold time_Now. destruct d; simpl; lia. Qed.

Lemma time_Now_pos (w : World) : 0 < time_Now w.
Proof. unfold time_Now. lia. Qed.

Lemma getLastReadTime_recordFileRead (filePath : string) (w : World) :
  getLastReadTime filePath (recordFileRead filePath w) = time_Now w.
Proof.
  unfold getLastReadTime, recordFileRead. simpl.
  by rewrite lookup_insert_eq.
Qed.

(** After [recordFileWrite] then [recordFileRead], with time passing in
    between, the record of the path holds both times, the read not before
    the write. *)
Lemma record_write_then_read (filePath : string) (d : N) (w : World) :
  ∃ record,
    fileRecords (recordFileRead filePath (elapse d (recordFileWrite filePath w)))
      !! filePath = Some record
    ∧ 0 < writeTime record ∧ writeTime record ≤ readTime record.
Proof.
  unfold recordFileRead, recordFileWrite. simpl.
  rewrite lookup_insert_eq. simpl.
  eexists. rewrite lookup_insert_eq. split; [reflexivity|]. simpl.
  unfold time_Now. simpl. destruct d; lia.
Qed.

(** ** The edit tool on a file that was read and is not stale *)

Ltac eqb_false H :=
  let E := fresh "E" in
  pose proof H as E; apply String.eqb_neq in E; rewrite E; clear E.

Lemma os_Stat_regular (w : World) (filePath content : string)
  (mt : time.Time) (readErr : option string) :
  fs w !! filePath = Some (RegularFile content mt readErr) →
  os_Stat w filePath = StatOk {| IsDir := false; ModTime := mt |}.
Proof. intros H. unfold os_Stat. by rewrite H. Qed.

Lemma os_ReadFile_regular (w : World) (filePath content : string)
  (mt : time.Time) :
  fs w !! filePath = Some (RegularFile content mt None) →
  os_ReadFile w filePath = Ok content.
Proof. intros H. unfold os_ReadFile. by rewrite H. Qed.

Lemma IsZero_false (t : time.Time) : t ≠ 0 → time.IsZero t = false.
Proof. intros H. unfold time.IsZero. by apply Z.eqb_neq. Qed.

Lemma replaceContent_once (env : Env) (filePath oldString newString : string)
  (w : World) (content : string) (mt : time.Time) :
  fs w !! filePath = Some (RegularFile content mt None) →
  getLastReadTime filePath w ≠ 0 →
  time.After mt (getLastReadTime filePath w) = false →
  strings.occurrences content oldString = 1%nat →
  sessionID env ≠ "" → messageID env ≠ "" →
  (∀ a b c, is_Err (GenerateGitDiffWithStats a b c) = false) →
  (∀ req, permissions_Request req = true) →
  writeErr env = None →
  ∃ r w',
    replaceContent env filePath oldString newString w = (Ok r, w')
    ∧ file_content w' filePath =
        Some (strings.slice_to content (strings.Index content oldString)
              +:+ newString +:+
              strings.slice_from content
                (strings.Index content oldString + strings.len oldString)).
Proof.
  intros Hfs Hread Hfresh Hocc Hs Hm Hdiff Hperm Hw.
  unfold replaceContent.
  rewrite (os_Stat_regular _ _ _ _ _ Hfs). simpl.
  rewrite (IsZero_false _ Hread), Hfresh.
  rewrite (os_ReadFile_regular _ _ _ _ Hfs).
  destruct (Index_LastIndex_once _ _ Hocc) as [Heq Hpos].
  rewrite <- Heq, Z.eqb_refl. simpl.
  destruct (Z.eqb_spec (strings.Index content oldString) (-1)); [lia|].
  eqb_false Hs. eqb_false Hm. simpl.
  match goal with
  | |- context [GenerateGitDiffWithStats ?a ?b ?c] =>
      specialize (Hdiff a b c);
      destruct (GenerateGitDiffWithStats a b c) as [[diff stats]|]; [|done]
  end.
  rewrite Hperm. simpl.
  unfold os_WriteFile. rewrite Hw. simpl.
  eexists _, _. split; [reflexivity|].
  unfold file_content. simpl. by rewrite lookup_insert_eq.
Qed.

Lemma replaceContent_not_once (env : Env) (filePath oldString newString : string)
  (w : World) (content : string) (mt : time.Time) :
  fs w !! filePath = Some (RegularFile content mt None) →
  getLastReadTime filePath w ≠ 0 →
  time.After mt (getLastReadTime filePath w) = false →
  strings.occurrences content oldString ≠ 1%nat →
  ∃ e, replaceContent env filePath oldString newString w = (Err e, w).
Proof.
  intros Hfs Hread Hfresh Hocc.
  unfold replaceContent.
  rewrite (os_Stat_regular _ _ _ _ _ Hfs). simpl.
  rewrite (IsZero_false _ Hread), Hfresh.
  rewrite (os_ReadFile_regular _ _ _ _ Hfs).
  destruct (Z.eqb_spec (strings.Index content oldString) (-1)); [by eexists|].
  destruct (Z.eqb_spec (strings.Index content oldString)
              (strings.LastIndex content oldString)) as [E|E];
    [|by eexists].
  by destruct Hocc; apply Index_eq_LastIndex.
Qed.

(** C1, as amended: an edit with non-empty [old_string] and [new_string] on
    an existing, readable file that was read and is not stale. If
    [old_string] occurs at exactly one offset, and the session and message
    identifiers are present, the diff is produced, permission is granted
    and the write goes through, the run succeeds and the file holds the
    old content with that occurrence replaced by [new_string]. If it occurs
    at no offset or at more than one, the run fails with an error and the
    state is unchanged. *)
Theorem C1_edit_single_occurrence (env : Env) (params : EditParams)
  (w : World) (content : string) (mt : time.Time) :
  FilePath params ≠ "" → OldString params ≠ "" → NewString params ≠ "" →
  fs w !! absPath (FilePath params) = Some (RegularFile content mt None) →
  getLastReadTime (absPath (FilePath params)) w ≠ 0 →
  time.After mt (getLastReadTime (absPath (FilePath params)) w) = false →
  (strings.occurrences content (OldString params) = 1%nat →
   sessionID env ≠ "" → messageID env ≠ "" →
   (∀ a b c, is_Err (GenerateGitDiffWithStats a b c) = false) →
   (∀ req, permissions_Request req = true) →
   writeErr env = None →
   ∃ pre post,
     content = pre +:+ OldString params +:+ post
     ∧ run_failed (edit_Run env (Some params) w).1 = false
     ∧ file_content (edit_Run env (Some params) w).2 (absPath (FilePath params))
       = Some (pre +:+ NewString params +:+ post))
  ∧ (strings.occurrences content (OldString params) ≠ 1%nat →
     run_failed (edit_Run env (Some params) w).1 = true
     ∧ (edit_Run env (Some params) w).2 = w).
Proof.
  intros Hp Ho Hn Hfs Hread Hfresh.
  unfold edit_Run. eqb_false Hp. eqb_false Ho. eqb_false Hn.
  split.
  - intros Hocc Hs Hm Hdiff Hperm Hw.
    destruct (replaceContent_once env _ (OldString params) (NewString params)
                _ _ _ Hfs Hread Hfresh Hocc Hs Hm Hdiff Hperm Hw)
      as (r & w' & -> & Hc).
    destruct (Index_LastIndex_once _ _ Hocc) as [_ Hpos].
    eexists _, _. split; [exact (Index_split _ _ Hpos)|].
    split; [done | exact Hc].
  - intros Hocc.
    destruct (replaceContent_not_once env _ (OldString params)
                (NewString params) _ _ _ Hfs Hread Hfresh Hocc) as [e ->].
    done.
Qed.

(** ** Messages and their parts *)

Lemma Contains_prefix (sub b : string) : strings.Contains (sub +:+ b) sub = true.
Proof. exact (Contains_app "" sub b). Qed.

Lemma Contains_self (sub : string) : strings.Contains sub sub = true.
Proof.
  unfold strings.Contains. apply Z.leb_le.
  assert (H : strings.HasPrefix sub sub = true).
  { induction sub as [|a sub IH]; simpl; [done|]. by rewrite Ascii.eqb_refl. }
  destruct sub; simpl in *; by rewrite ?H.
Qed.

Lemma Contains_app_r (a t sub : string) :
  strings.Contains t sub = true → strings.Contains (a +:+ t) sub = true.
Proof.
  unfold strings.Contains. rewrite !Z.leb_le. apply Index_app_found.
Qed.

Lemma Contains_app_l (a b sub : string) :
  strings.Contains a sub = true → strings.Contains (a +:+ b) sub = true.
Proof.
  unfold strings.Contains. rewrite Z.leb_le. intros H.
  rewrite (Index_split a sub H), !app_assoc. apply Contains_app.
Qed.

(** [contains_part] finds a part of a concatenation; [contains] also looks
    for a literal inside the literals of the concatenation. *)
Ltac contains_part :=
  lazymatch goal with
  | |- strings.Contains ?s ?s = true => apply Contains_self
  | |- strings.Contains (?s +:+ _) ?s = true => apply Contains_prefix
  | |- strings.Contains (?a +:+ ?t) ?sub = true =>
      apply Contains_app_r; contains_part
  end.

Ltac contains :=
  lazymatch goal with
  | |- strings.Contains ?s ?s = true => apply Contains_self
  | |- strings.Contains (?s +:+ _) ?s = true => apply Contains_prefix
  | |- strings.Contains (?a +:+ ?t) ?sub = true =>
      first [ apply Contains_app_l; vm_compute; reflexivity
            | apply Contains_app_r; contains ]
  | |- _ => vm_compute; reflexivity
  end.

Lemma editStaleMessage_contains (filePath : string) (mt lr : time.Time) (pre : string) :
  strings.Contains (pre +:+ editStaleMessage filePath mt lr)
    "has been modified since it was last read" = true
  ∧ strings.Contains (pre +:+ editStaleMessage filePath mt lr)
      (Format_RFC3339 mt) = true
  ∧ strings.Contains (pre +:+ editStaleMessage filePath mt lr)
      (Format_RFC3339 lr) = true.
Proof.
  unfold editStaleMessage. repeat split; [contains | contains_part ..].
Qed.

Lemma writeStaleMessage_contains (filePath : string) (mt lr : time.Time) :
  strings.Contains (writeStaleMessage filePath mt lr)
    "has been modified since it was last read" = true
  ∧ strings.Contains (writeStaleMessage filePath mt lr)
      (Format_RFC3339 mt) = true
  ∧ strings.Contains (writeStaleMessage filePath mt lr)
      (Format_RFC3339 lr) = true.
Proof.
  unfold writeStaleMessage. repeat split; [contains | contains_part ..].
Qed.

(** ** Stale and unread files *)

Lemma replaceContent_stale (env : Env) (filePath oldString newString : string)
  (w : World) (content : string) (mt : time.Time) (readErr : option string) :
  fs w !! filePath = Some (RegularFile content mt readErr) →
  getLastReadTime filePath w ≠ 0 →
  time.After mt (getLastReadTime filePath w) = true →
  replaceContent env filePath oldString newString w =
  (Err (editStaleMessage filePath mt (getLastReadTime filePath w)), w).
Proof.
  intros Hfs Hread Hstale. unfold replaceContent.
  rewrite (os_Stat_regular _ _ _ _ _ Hfs). simpl.
  by rewrite (IsZero_false _ Hread), Hstale.
Qed.

Lemma deleteContent_stale (env : Env) (filePath oldString : string)
  (w : World) (content : string) (mt : time.Time) (readErr : option string) :
  fs w !! filePath = Some (RegularFile content mt readErr) →
  getLastReadTime filePath w ≠ 0 →
  time.After mt (getLastReadTime filePath w) = true →
  deleteContent env filePath oldString w =
  (Err (editStaleMessage filePath mt (getLastReadTime filePath w)), w).
Proof.
  intros Hfs Hread Hstale. unfold deleteContent.
  rewrite (os_Stat_regular _ _ _ _ _ Hfs). simpl.
  by rewrite (IsZero_false _ Hread), Hstale.
Qed.

Lemma write_Run_stale (env : Env) (params : WriteParams) (w : World)
  (content : string) (mt : time.Time) (readErr : option string) :
  write_FilePath params ≠ "" → write_Content params ≠ "" →
  fs w !! absPath (write_FilePath params) = Some (RegularFile content mt readErr) →
  time.After mt (getLastReadTime (absPath (write_FilePath params)) w) = true →
  write_Run env (Ok params) w =
  (Ok (NewTextErrorResponse
         (writeStaleMessage (absPath (write_FilePath params)) mt
            (getLastReadTime (absPath (write_FilePath params)) w))), w).
Proof.
  intros Hp Hc Hfs Hstale. unfold write_Run.
  eqb_false Hp. eqb_false Hc.
  rewrite (os_Stat_regular _ _ _ _ _ Hfs). simpl.
  by rewrite Hstale.
Qed.

(** C2, as amended: a write with non-empty content, an edit or a delete on
    an existing file that was read and whose modification time is later
    than the recorded last-read time fails; the message says the file was
    modified since it was last read and contains both times in RFC3339;
    nothing is written and no snapshot is created (the state is
    unchanged). *)
Theorem C2_stale_file_is_refused (env : Env) (w : World) (filePath : string)
  (content : string) (mt : time.Time) (readErr : option string) :
  fs w !! absPath filePath = Some (RegularFile content mt readErr) →
  filePath ≠ "" →
  time.After mt (getLastReadTime (absPath filePath) w) = true →
  let stale_failure (run : result ToolResponse * World) : Prop :=
    run_failed run.1 = true
    ∧ strings.Contains (run_message run.1) (Format_RFC3339 mt) = true
    ∧ strings.Contains (run_message run.1)
        (Format_RFC3339 (getLastReadTime (absPath filePath) w)) = true
    ∧ strings.Contains (run_message run.1)
        "has been modified since it was last read" = true
    ∧ run.2 = w in
  (∀ newContent, newContent ≠ "" →
     stale_failure
       (write_Run env
          (Ok {| write_FilePath := filePath; write_Content := newContent |}) w))
  ∧ (∀ oldString newString,
       oldString ≠ "" → getLastReadTime (absPath filePath) w ≠ 0 →
       stale_failure
         (edit_Run env
            (Some {| FilePath := filePath; OldString := oldString;
                     NewString := newString |}) w)).
Proof.
  intros Hfs Hp Hstale stale_failure. subst stale_failure.
  cbv beta. split.
  - intros newContent Hc.
    rewrite (write_Run_stale env
               {| write_FilePath := filePath; write_Content := newContent |}
               w content mt readErr Hp Hc Hfs Hstale).
    cbn [fst snd run_failed run_message NewTextErrorResponse IsError
         resp_Content write_FilePath].
    destruct (writeStaleMessage_contains (absPath filePath) mt
                (getLastReadTime (absPath filePath) w)) as (H1 & H2 & H3).
    split_and!; [reflexivity | exact H2 | exact H3 | exact H1 | reflexivity].
  - intros oldString newString Ho Hread.
    unfold edit_Run. cbn [FilePath OldString NewString].
    eqb_false Hp. eqb_false Ho.
    destruct (String.eqb newString "").
    + rewrite (deleteContent_stale env _ oldString w content mt readErr
                 Hfs Hread Hstale).
      cbn [fst snd run_failed run_message NewTextErrorResponse IsError
           resp_Content].
      destruct (editStaleMessage_contains (absPath filePath) mt
                  (getLastReadTime (absPath filePath) w)
                  "error deleting content: ") as (H1 & H2 & H3).
      split_and!; [reflexivity | exact H2 | exact H3 | exact H1 | reflexivity].
    + rewrite (replaceContent_stale env _ oldString newString w content mt
                 readErr Hfs Hread Hstale).
      cbn [fst snd run_failed run_message NewTextErrorResponse IsError
           resp_Content].
      destruct (editStaleMessage_contains (absPath filePath) mt
                  (getLastReadTime (absPath filePath) w)
                  "error replacing content: ") as (H1 & H2 & H3).
      split_and!; [reflexivity | exact H2 | exact H3 | exact H1 | reflexivity].
Qed.

Lemma replaceContent_unread (env : Env) (filePath oldString newString : string)
  (w : World) (content : string) (mt : time.Time) (readErr : option string) :
  fs w !! filePath = Some (RegularFile content mt readErr) →
  getLastReadTime filePath w = 0 →
  replaceContent env filePath oldString newString w = (Err mustReadMessage, w).
Proof.
  intros Hfs Hread. unfold replaceContent.
  rewrite (os_Stat_regular _ _ _ _ _ Hfs). simpl. by rewrite Hread.
Qed.

Lemma deleteContent_unread (env : Env) (filePath oldString : string)
  (w : World) (content : string) (mt : time.Time) (readErr : option string) :
  fs w !! filePath = Some (RegularFile content mt readErr) →
  getLastReadTime filePath w = 0 →
  deleteContent env filePath oldString w = (Err mustReadMessage, w).
Proof.
  intros Hfs Hread. unfold deleteContent.
  rewrite (os_Stat_regular _ _ _ _ _ Hfs). simpl. by rewrite Hread.
Qed.

(** C3, as amended: on an existing file that this process has not read, an
    edit and a delete fail with "you must read the file before editing it.
    Use the View tool first"; an overwrite by the write tool (non-empty
    content, modification time after the zero time) fails with the message
    that the file "has been modified since it was last read"; in each case
    the file is not modified (the state is unchanged). *)
Theorem C3_unread_file_is_refused (env : Env) (w : World) (filePath : string)
  (content : string) (mt : time.Time) (readErr : option string) :
  fs w !! absPath filePath = Some (RegularFile content mt readErr) →
  filePath ≠ "" →
  getLastReadTime (absPath filePath) w = 0 →
  (∀ oldString newString, oldString ≠ "" →
     let run := edit_Run env
                  (Some {| FilePath := filePath; OldString := oldString;
                           NewString := newString |}) w in
     run_failed run.1 = true
     ∧ (run_message run.1 = "error replacing content: " +:+ mustReadMessage
        ∨ run_message run.1 = "error deleting content: " +:+ mustReadMessage)
     ∧ strings.Contains (run_message run.1)
         "must read the file before editing it" = true
     ∧ run.2 = w)
  ∧ (∀ newContent, newContent ≠ "" → 0 < mt →
       let run := write_Run env
                    (Ok {| write_FilePath := filePath;
                           write_Content := newContent |}) w in
       run_failed run.1 = true
       ∧ strings.Contains (run_message run.1)
           "has been modified since it was last read" = true
       ∧ run.2 = w).
Proof.
  intros Hfs Hp Hread. split.
  - intros oldString newString Ho. cbv zeta.
    unfold edit_Run. cbn [FilePath OldString NewString].
    eqb_false Hp. eqb_false Ho.
    destruct (String.eqb newString "").
    + rewrite (deleteContent_unread env _ oldString w content mt readErr Hfs Hread).
      cbn [fst snd run_failed run_message NewTextErrorResponse IsError
           resp_Content].
      split_and!; [reflexivity | by right | by vm_compute | reflexivity].
    + rewrite (replaceContent_unread env _ oldString newString w content mt
                 readErr Hfs Hread).
      cbn [fst snd run_failed run_message NewTextErrorResponse IsError
           resp_Content].
      split_and!; [reflexivity | by left | by vm_compute | reflexivity].
  - intros newContent Hc Hmt. cbv zeta.
    assert (Hstale : time.After mt (getLastReadTime (absPath filePath) w) = true).
    { rewrite Hread. unfold time.After. by apply Z.ltb_lt. }
    rewrite (write_Run_stale env
               {| write_FilePath := filePath; write_Content := newContent |}
               w content mt readErr Hp Hc Hfs Hstale).
    cbn [fst snd run_failed run_message NewTextErrorResponse IsError
         resp_Content write_FilePath].
    destruct (writeStaleMessage_contains (absPath filePath) mt
                (getLastReadTime (absPath filePath) w)) as (H1 & H2 & H3).
    split_and!; [reflexivity | exact H1 | reflexivity].
Qed.

(** C7, as amended: a write whose content is the current content of the
    (readable) target file is refused with an error and nothing is written
    nor recorded (the state is unchanged, so no snapshot is created); when
    moreover the content is not empty and the file is not stale with
    respect to the last read, the message contains "already contains the
    exact content". *)
Theorem C7_identical_write_is_refused (env : Env) (params : WriteParams)
  (w : World) (mt : time.Time) :
  fs w !! absPath (write_FilePath params)
    = Some (RegularFile (write_Content params) mt None) →
  let run := write_Run env (Ok params) w in
  run_failed run.1 = true
  ∧ run.2 = w
  ∧ (write_FilePath params ≠ "" → write_Content params ≠ "" →
     time.After mt (getLastReadTime (absPath (write_FilePath params)) w) = false →
     strings.Contains (run_message run.1)
       "already contains the exact content" = true).
Proof.
  intros Hfs. cbv zeta. unfold write_Run.
  destruct (String.eqb_spec (write_FilePath params) "") as [|Hp];
    [split_and!; [reflexivity..|done]|].
  destruct (String.eqb_spec (write_Content params) "") as [|Hc];
    [split_and!; [reflexivity..|done]|].
  rewrite (os_Stat_regular _ _ _ _ _ Hfs).
  cbn [IsDir ModTime].
  destruct (time.After mt _) eqn:Hstale;
    [split_and!; [reflexivity..|done]|].
  rewrite (os_ReadFile_regular _ _ _ _ Hfs), String.eqb_refl.
  cbn [fst snd run_failed run_message NewTextErrorResponse IsError resp_Content].
  split_and!; [reflexivity..|]. intros _ _ _. contains.
Qed.

(** ** What a successful mutation leaves in the file-record map *)

Lemma recorded_intro (filePath : string) (d : N) (w : World) :
  recorded filePath
    (recordFileRead filePath (elapse d (recordFileWrite filePath w))).
Proof.
  destruct (record_write_then_read filePath d w) as (record & H & Hw & Hr).
  exists record. unfold getLastReadTime. rewrite H. done.
Qed.

Ltac run_cases H :=
  repeat match type of H with
         | context [match ?x with _ => _ end] =>
             destruct x eqn:?; try discriminate H
         end.

Lemma createNewFile_ok (env : Env) (filePath content : string) (w w' : World)
  (r : editResponse) :
  createNewFile env filePath content w = (Ok r, w') → recorded filePath w'.
Proof.
  unfold createNewFile. intros H. run_cases H.
  injection H as _ <-. apply recorded_intro.
Qed.

Lemma deleteContent_ok (env : Env) (filePath oldString : string) (w w' : World)
  (r : editResponse) :
  deleteContent env filePath oldString w = (Ok r, w') → recorded filePath w'.
Proof.
  unfold deleteContent. intros H. run_cases H.
  injection H as _ <-. apply recorded_intro.
Qed.

Lemma replaceContent_ok (env : Env) (filePath oldString newString : string)
  (w w' : World) (r : editResponse) :
  replaceContent env filePath oldString newString w = (Ok r, w') →
  recorded filePath w'.
Proof.
  unfold replaceContent. intros H. run_cases H.
  injection H as _ <-. apply recorded_intro.
Qed.

Lemma edit_Run_ok (env : Env) (params : EditParams) (w w' : World)
  (resp : ToolResponse) :
  edit_Run env (Some params) w = (Ok resp, w') → IsError resp = false →
  recorded (absPath (FilePath params)) w'.
Proof.
  unfold edit_Run. intros H Hok.
  destruct (String.eqb (FilePath params) ""); [by injection H as <- _|].
  destruct (String.eqb (OldString params) "").
  { destruct (createNewFile _ _ _ _) as [[r|e] w1] eqn:E;
      injection H as <- <-; [|done]. eapply createNewFile_ok, E. }
  destruct (String.eqb (NewString params) "").
  { destruct (deleteContent _ _ _ _) as [[r|e] w1] eqn:E;
      injection H as <- <-; [|done]. eapply deleteContent_ok, E. }
  destruct (replaceContent _ _ _ _ _) as [[r|e] w1] eqn:E;
    injection H as <- <-; [|done]. eapply replaceContent_ok, E.
Qed.

Lemma write_Run_ok (env : Env) (params : WriteParams) (w w' : World)
  (resp : ToolResponse) :
  write_Run env (Ok params) w = (Ok resp, w') → IsError resp = false →
  recorded (absPath (write_FilePath params)) w'.
Proof.
  unfold write_Run. intros H Hok.
  destruct (String.eqb (write_FilePath params) "");
    [injection H as <- _; discriminate Hok|].
  destruct (String.eqb (write_Content params) "");
    [injection H as <- _; discriminate Hok|].
  cbv zeta in H.
  match type of H with
  | context [match ?c with Some _ => _ | None => _ end] =>
      destruct c as [checked|] eqn:Hchecked
  end.
  - injection H as -> _.
    run_cases Hchecked; injection Hchecked as <-; discriminate Hok.
  - clear Hchecked. run_cases H.
    injection H as _ <-. apply recorded_intro.
Qed.

Ltac not_must_read :=
  let H := fresh in
  intros H; injection H as H; unfold mustReadMessage, editStaleMessage in H;
  rewrite ?app_cons in H; discriminate H.

Lemma replaceContent_passes_read_check (env : Env)
  (filePath oldString newString : string) (w : World) :
  time.IsZero (getLastReadTime filePath w) = false →
  (replaceContent env filePath oldString newString w).1 ≠ Err mustReadMessage.
Proof.
  intros Hread. unfold replaceContent. rewrite Hread.
  repeat match goal with
         | |- context [match ?x with _ => _ end] => destruct x
         end; cbn [fst]; try discriminate; not_must_read.
Qed.

Lemma deleteContent_passes_read_check (env : Env)
  (filePath oldString : string) (w : World) :
  time.IsZero (getLastReadTime filePath w) = false →
  (deleteContent env filePath oldString w).1 ≠ Err mustReadMessage.
Proof.
  intros Hread. unfold deleteContent. rewrite Hread.
  repeat match goal with
         | |- context [match ?x with _ => _ end] => destruct x
         end; cbn [fst]; try discriminate; not_must_read.
Qed.

(** C10: after a successful write, edit-replace, edit-delete or edit-create
    on a path, the file-record map holds for that path a write time and a
    read time, the read at or after the write; the last-read time is not
    the zero time, and an edit of the same path that follows passes the
    must-read check. *)
Theorem C10_mutation_records_write_then_read (env : Env) (w : World)
  (filePath : string) (run : result ToolResponse * World) :
  (∃ params, filePath = absPath (FilePath params)
             ∧ run = edit_Run env (Some params) w)
  ∨ (∃ params, filePath = absPath (write_FilePath params)
               ∧ run = write_Run env (Ok params) w) →
  run_failed run.1 = false →
  (∃ record,
      fileRecords run.2 !! filePath = Some record
      ∧ 0 < writeTime record
      ∧ writeTime record ≤ readTime record
      ∧ getLastReadTime filePath run.2 = readTime record)
  ∧ time.IsZero (getLastReadTime filePath run.2) = false
  ∧ ∀ env' oldString newString,
      (replaceContent env' filePath oldString newString run.2).1
        ≠ Err mustReadMessage
      ∧ (deleteContent env' filePath oldString run.2).1 ≠ Err mustReadMessage.
Proof.
  intros Hrun Hok.
  destruct run as [[resp|e] w']; [|discriminate Hok]. simpl in *.
  assert (Hrec : recorded filePath w').
  { destruct Hrun as [(params & -> & H)|(params & -> & H)]; symmetry in H.
    - by eapply edit_Run_ok.
    - by eapply write_Run_ok. }
  assert (Hnz : time.IsZero (getLastReadTime filePath w') = false).
  { destruct Hrec as (record & _ & Hw & Hr & ->). apply IsZero_false. lia. }
  split; [exact Hrec|]. split; [exact Hnz|].
  intros env' oldString newString. split.
  - by apply replaceContent_passes_read_check.
  - by apply deleteContent_passes_read_check.
Qed.

(** ** The retry policy *)



Lemma attempts_cases (attempts : Z) :
  1 ≤ attempts ≤ 8 →
  attempts = 1 ∨ attempts = 2 ∨ attempts = 3 ∨ attempts = 4 ∨
  attempts = 5 ∨ attempts = 6 ∨ attempts = 7 ∨ attempts = 8.
Proof. lia. Qed.

(** Without a [Retry-After] header the wait before retry [attempts] is
    the backoff plus its jitter: 2400 ms doubled [attempts - 1] times. *)
Lemma shouldRetry_backoff (attempts status : Z) :
  status = 429 ∨ status = 529 → 1 ≤ attempts ≤ 8 →
  shouldRetry attempts (APIError status []) =
  Some (true, 2400 * 2 ^ (attempts - 1), None).
Proof.
  intros Hs Ha. apply attempts_cases in Ha.
  destruct Hs as [-> | ->];
    repeat (destruct Ha as [-> | Ha]; [vm_compute; reflexivity|]);
    subst attempts; vm_compute; reflexivity.
Qed.



Lemma shouldRetry_no_scan (attempts status : Z) (v : string)
  (values : list string) :
  status = 429 ∨ status = 529 →
  Sscanf_d v = None →
  shouldRetry attempts (APIError status (v :: values))
  = shouldRetry attempts (APIError status []).
Proof.
  intros Hs Hv. unfold shouldRetry.
  replace (negb (status =? 429) && negb (status =? 529)) with false
    by (destruct Hs as [-> | ->]; reflexivity).
  destruct (maxRetries <? attempts); [done|].
  destruct (attempts - 1 <? 0); [done|].
  cbv zeta. by rewrite Hv.
Qed.




(** ** Tool dispatch *)

Lemma runToolCall_id (tools : list BaseTool) (toolCall : ToolCall) (w : World) :
  ToolCallID (runToolCall tools toolCall w).1 = tc_ID toolCall.
Proof.
  unfold runToolCall. by destruct (findAndRun tools toolCall w) as [[[? ?] ?] ?].
Qed.

Lemma findAndRun_not_found (tools : list BaseTool) (toolCall : ToolCall)
  (w : World) :
  Forall (λ tool, Info_Name tool ≠ tc_Name toolCall) tools →
  findAndRun tools toolCall w = (("", false, false), w).
Proof.
  induction 1 as [|tool rest Hne _ IH]; simpl; [done|].
  apply String.eqb_neq in Hne. by rewrite Hne.
Qed.

(** The result synthesized for a call that names no registered tool: the
    content names the tool, and [isError] keeps its initial [false]. *)
Lemma runToolCall_not_found (tools : list BaseTool) (toolCall : ToolCall)
  (w : World) :
  Forall (λ tool, Info_Name tool ≠ tc_Name toolCall) tools →
  runToolCall tools toolCall w =
  ({| ToolCallID := tc_ID toolCall;
      tr_Content := "tool not found: " +:+ tc_Name toolCall;
      tr_IsError := false |}, w).
Proof.
  intros H. unfold runToolCall. by rewrite findAndRun_not_found.
Qed.

Lemma dispatch_step_length (tools : list BaseTool) (calls : list ToolCall)
  (d : Dispatch) (index : nat) :
  length (toolResults (dispatch_step tools calls d index))
  = length (toolResults d).
Proof.
  unfold dispatch_step, task. destruct (calls !! index); [|done].
  destruct (runToolCall _ _ _). simpl. apply length_insert.
Qed.

Lemma dispatch_step_slot (tools : list BaseTool) (calls : list ToolCall)
  (d : Dispatch) (index i : nat) :
  length (toolResults d) = length calls →
  slot_ok calls (toolResults d) i ∨ i = index →
  slot_ok calls (toolResults (dispatch_step tools calls d index)) i.
Proof.
  intros Hlen H toolCall Hi. unfold dispatch_step, task.
  destruct (calls !! index) as [tc|] eqn:Hidx.
  - pose proof (runToolCall_id tools tc (d_world d)) as Hid.
    destruct (runToolCall tools tc (d_world d)) as [r w']. simpl in *.
    destruct (decide (i = index)) as [->|Hne].
    + exists r. split.
      * apply list_lookup_insert_eq. rewrite Hlen.
        by eapply lookup_lt_Some.
      * congruence.
    + rewrite list_lookup_insert_ne by done.
      destruct H as [H|]; [by apply H | done].
  - destruct H as [H| ->]; [by apply H | congruence].
Qed.

Lemma executeTools_length (tools : list BaseTool) (calls : list ToolCall)
  (schedule : list nat) (d : Dispatch) :
  length (toolResults (foldl (dispatch_step tools calls) d schedule))
  = length (toolResults d).
Proof.
  revert d. induction schedule as [|index rest IH]; intros d; simpl; [done|].
  by rewrite IH, dispatch_step_length.
Qed.

Lemma executeTools_slot (tools : list BaseTool) (calls : list ToolCall)
  (schedule : list nat) (d : Dispatch) (i : nat) :
  length (toolResults d) = length calls →
  slot_ok calls (toolResults d) i ∨ i ∈ schedule →
  slot_ok calls
    (toolResults (foldl (dispatch_step tools calls) d schedule)) i.
Proof.
  revert d. induction schedule as [|index rest IH]; intros d Hlen H; simpl.
  - destruct H as [H|H]; [done|]. by apply not_elem_of_nil in H.
  - apply IH.
    + by rewrite dispatch_step_length.
    + destruct H as [H|H].
      * left. apply dispatch_step_slot; auto.
      * apply elem_of_cons in H. destruct H as [->|H]; [|by right].
        left. apply dispatch_step_slot; auto.
Qed.

(** C5: when every task of a dispatch has finished, whatever the order in
    which the tasks finish, one tool message is persisted (the store
    accepting it), and its i-th result carries the id of the i-th tool
    call. *)
Theorem C5_tool_results_keep_call_order (tools : list BaseTool)
  (sessionID : string) (calls : list ToolCall) (schedule : list nat)
  (w : World) (app : App) (anthropicMessages : list MessageParam) :
  complete_schedule calls schedule →
  ∃ request w' m,
    dispatchToolCalls tools None sessionID calls schedule w app
      anthropicMessages
    = (Ok request, w',
       {| Messages := Messages app ++ [m]; Sessions := Sessions app |})
    ∧ Role m = Tool
    ∧ length (ToolResults m) = length calls
    ∧ ∀ i toolCall, calls !! i = Some toolCall →
        ∃ r, ToolResults m !! i = Some r ∧ ToolCallID r = tc_ID toolCall.
Proof.
  intros Hperm. unfold dispatchToolCalls. simpl.
  eexists _, _, _. split; [reflexivity|]. simpl. split; [done|].
  unfold executeTools.
  set (d0 := {| d_world := w;
                toolResults := replicate (length calls) zeroToolResult;
                anthropicToolResults := [] |}).
  assert (Hlen : length (toolResults d0) = length calls)
    by apply length_replicate.
  split.
  - by rewrite executeTools_length.
  - intros i toolCall Hi.
    assert (Hin : i ∈ schedule).
    { unfold complete_schedule in Hperm. rewrite Hperm.
      apply elem_of_seq. apply lookup_lt_Some in Hi. lia. }
    by apply (executeTools_slot tools calls schedule d0 i Hlen (or_intror Hin)).
Qed.

(** C6, as the code has it: for a call that names no registered tool the
    synthesized result carries the call's id and the content "tool not
    found: " followed by the name, but it is not marked as an error. *)
Theorem C6_missing_tool_result_not_marked (w : World) :
  let registered :=
    [ {| Info_Name := "ls";
         tool_Run := λ _ w, (Ok (NewTextResponse "ok"), w) |} ] in
  let call :=
    {| tc_ID := "toolu_01"; tc_Name := "frobnicate";
       tc_Input := "{}"; tc_Type := "tool_use" |} in
  runToolCall registered call w =
  ({| ToolCallID := "toolu_01";
      tr_Content := "tool not found: frobnicate";
      tr_IsError := false |}, w).
Proof. reflexivity. Qed.

(** ** Cache hints of a translated history *)

Lemma blockHints_app (a b : list ContentBlockParam) :
  blockHints (a ++ b) = blockHints a ++ blockHints b.
Proof. unfold blockHints. apply flat_map_app. Qed.

Lemma blockHints_toolUseBlocks (calls : list ToolCall) :
  blockHints (toolUseBlocks calls) = [].
Proof.
  induction calls as [|c calls IH]; simpl; [done|].
  by destruct (json_Unmarshal (tc_Input c)).
Qed.

Lemma blockHints_toolResultBlocks (results : list ToolResult) :
  blockHints (toolResultBlocks results) = [].
Proof. induction results as [|r results IH]; simpl; done. Qed.

Lemma cacheHints_cons (m : MessageParam) (request : list MessageParam) :
  cacheHints (m :: request) = blockHints (mp_Content m) ++ cacheHints request.
Proof. reflexivity. Qed.

(** What one message adds to the hints: nothing, or the hint of its one
    text block. *)
Lemma convertMessages_from_cons (options : anthropicOptions) (c : Z)
  (msg : Message) (rest : list Message) :
  let mark := (c <? 2) && negb (disableCache options) in
  cacheHints (convertMessages_from options c (msg :: rest)) =
  match Role msg with
  | User =>
      mark :: cacheHints
                (convertMessages_from options (if mark then c + 1 else c) rest)
  | Assistant =>
      if String.eqb (msg_Content msg) ""
      then cacheHints (convertMessages_from options c rest)
      else mark :: cacheHints
                     (convertMessages_from options
                        (if mark then c + 1 else c) rest)
  | Tool | System => cacheHints (convertMessages_from options c rest)
  end.
Proof.
  simpl. destruct (Role msg).
  - by rewrite cacheHints_cons.
  - destruct (String.eqb (msg_Content msg) ""); simpl.
    + destruct (toolUseBlocks (ToolCalls msg)) eqn:E; [done|].
      rewrite cacheHints_cons, <- E. simpl.
      by rewrite blockHints_toolUseBlocks.
    + by rewrite blockHints_toolUseBlocks.
  - rewrite cacheHints_cons. simpl. by rewrite blockHints_toolResultBlocks.
  - done.
Qed.

Lemma earliest_hints_S (k n : nat) :
  earliest_hints (S k) (S n) = true :: earliest_hints k n.
Proof. reflexivity. Qed.

Lemma earliest_hints_0 (n : nat) : earliest_hints 0 n = replicate n false.
Proof. unfold earliest_hints. simpl. by rewrite Nat.sub_0_r. Qed.

Lemma cacheHints_enabled (options : anthropicOptions) (messages : list Message)
  (c : Z) :
  disableCache options = false → 0 ≤ c →
  cacheHints (convertMessages_from options c messages) =
  earliest_hints (Z.to_nat (2 - c))
    (length (cacheHints (convertMessages_from options c messages))).
Proof.
  intros Hd. revert c.
  assert (Hstep : ∀ c rest, 0 ≤ c →
    (∀ c', 0 ≤ c' →
       cacheHints (convertMessages_from options c' rest) =
       earliest_hints (Z.to_nat (2 - c'))
         (length (cacheHints (convertMessages_from options c' rest)))) →
    let mark := (c <? 2) && negb (disableCache options) in
    mark :: cacheHints (convertMessages_from options
                          (if mark then c + 1 else c) rest) =
    earliest_hints (Z.to_nat (2 - c))
      (length (mark :: cacheHints (convertMessages_from options
                                     (if mark then c + 1 else c) rest)))).
  { intros c rest Hc IH. rewrite Hd. simpl.
    destruct (Z.ltb_spec c 2); simpl.
    - replace (Z.to_nat (2 - c)) with (S (Z.to_nat (2 - (c + 1)))) by lia.
      rewrite earliest_hints_S. f_equal. apply IH. lia.
    - replace (Z.to_nat (2 - c)) with 0%nat in * by lia.
      rewrite earliest_hints_0. simpl. f_equal.
      rewrite (IH c Hc) at 1.
      replace (Z.to_nat (2 - c)) with 0%nat by lia.
      apply earliest_hints_0. }
  induction messages as [|msg rest IH]; intros c Hc.
  - by destruct (Z.to_nat (2 - c)).
  - rewrite convertMessages_from_cons. cbv zeta.
    destruct (Role msg); [by apply Hstep| |by apply IH..].
    destruct (String.eqb (msg_Content msg) ""); [by apply IH | by apply Hstep].
Qed.

Lemma cacheHints_disabled (options : anthropicOptions) (messages : list Message)
  (c : Z) :
  disableCache options = true →
  cacheHints (convertMessages_from options c messages) =
  replicate (length (cacheHints (convertMessages_from options c messages)))
    false.
Proof.
  intros Hd. revert c. induction messages as [|msg rest IH]; intros c; [done|].
  rewrite convertMessages_from_cons. cbv zeta.
  rewrite Hd, andb_false_r.
  destruct (Role msg); [simpl; f_equal; apply IH| |apply IH..].
  destruct (String.eqb (msg_Content msg) ""); [apply IH|].
  simpl; f_equal; apply IH.
Qed.

Lemma earliest_hints_count (k n : nat) :
  (length (filter (λ h, h = true) (earliest_hints k n)) ≤ k)%nat.
Proof.
  revert n. induction k as [|k IH]; intros n.
  - rewrite earliest_hints_0. induction n as [|n IHn]; simpl; [lia|].
    rewrite filter_cons_False by done. exact IHn.
  - destruct n as [|n]; [simpl; lia|].
    rewrite earliest_hints_S, filter_cons_True by done. simpl.
    specialize (IH n). lia.
Qed.

(** C8, as amended: in the request translated from a history, at most two
    user or assistant text blocks carry the ephemeral cache hint, and the
    hinted blocks are the earliest such blocks of the history (the first
    two, or all when there are fewer); with the disable-cache option set
    no text block carries the hint. *)
Theorem C8_cache_hints_on_earliest_blocks (options : anthropicOptions)
  (messages : list Message) :
  let hints := cacheHints (convertMessages options messages) in
  (length (filter (λ h, h = true) hints) ≤ 2)%nat
  ∧ (disableCache options = false → hints_on_earliest hints)
  ∧ (disableCache options = true → hints = replicate (length hints) false)
  ∧ cacheHints
      (convertMessages (WithAnthropicDisableCache options) messages)
    = replicate
        (length (cacheHints
                   (convertMessages (WithAnthropicDisableCache options)
                      messages))) false.
Proof.
  cbv zeta. unfold convertMessages, hints_on_earliest.
  assert (Hen : disableCache options = false →
                cacheHints (convertMessages_from options 0 messages) =
                earliest_hints 2
                  (length (cacheHints (convertMessages_from options 0 messages)))).
  { intros Hd. by apply (cacheHints_enabled options messages 0). }
  split_and!.
  - destruct (disableCache options) eqn:Hd.
    + rewrite cacheHints_disabled by done.
      generalize (length (cacheHints (convertMessages_from options 0 messages))).
      intros n. induction n as [|n IH]; simpl; [lia|].
      rewrite filter_cons_False by done. exact IH.
    + rewrite Hen by done. apply earliest_hints_count.
  - exact Hen.
  - intros Hd. by apply cacheHints_disabled.
  - by apply cacheHints_disabled.
Qed.

(** ** The title job *)

(** C9, as amended: [NewMessage] starts the title task exactly when the
    session has no message yet, whatever its title; the task has a
    30-second timeout and asks the provider with the title prompt and the
    model configured as [models.big]; on success it sets the session's
    title to the text of the answer; when the provider call fails the
    failure is logged and the stores are left as they were. *)
Theorem C9_title_job (app : App) (sessionID content bigModel : string)
  (client : MessageNewParams → anthropic_Message + error)
  (saveErr : option string) :
  (Messages_List app sessionID = [] →
   NewMessage_launch app sessionID content
   = [TitleGeneration 30 sessionID content])
  ∧ (Messages_List app sessionID ≠ [] →
     NewMessage_launch app sessionID content = [])
  ∧ (mnp_Model (titleRequest bigModel content)
       = APIModel (SupportedModels bigModel)
     ∧ mnp_System (titleRequest bigModel content)
       = [(titleSystemMessage, true)]
     ∧ mnp_Messages (titleRequest bigModel content)
       = [NewUserMessage [RequestTextBlock content false]])
  ∧ (∀ timeout err,
       client (titleRequest bigModel content) = inr err →
       runDetached client bigModel saveErr
         (TitleGeneration timeout sessionID content) app
       = (app, ["failed to generate session title"]))
  ∧ (∀ timeout response session,
       client (titleRequest bigModel content) = inl response →
       Sessions app !! sessionID = Some session →
       sess_ID session = sessionID →
       ∃ app',
         runDetached client bigModel None
           (TitleGeneration timeout sessionID content) app = (app', [])
         ∧ Title <$> (Sessions app' !! sessionID)
           = Some (textOf (am_Content response))
         ∧ Messages app' = Messages app).
Proof.
  split_and!.
  - intros H. unfold NewMessage_launch. by rewrite H.
  - intros H. unfold NewMessage_launch.
    by destruct (Messages_List app sessionID).
  - reflexivity.
  - reflexivity.
  - reflexivity.
  - intros timeout err H. unfold runDetached, runDetached_beside, generateSessionTitle.
    by rewrite H.
  - intros timeout response session H Hs Hid.
    unfold runDetached, runDetached_beside, generateSessionTitle,
      Sessions_Get. rewrite H, Hs.
    simpl. eexists. split; [reflexivity|]. simpl.
    rewrite Hid, lookup_insert_eq. done.
Qed.

(** ** Runs that fail, and what a run leaves alone *)

Ltac goal_cases :=
  repeat match goal with
         | |- context [match ?x with _ => _ end] =>
             lazymatch x with
             | context [match _ with _ => _ end] => fail
             | _ => destruct x eqn:?
             end
         end.

Ltac hyp_cases H :=
  repeat match type of H with
         | context [match ?x with _ => _ end] =>
             lazymatch x with
             | context [match _ with _ => _ end] => fail
             | _ => destruct x eqn:?; try discriminate H
             end
         end.

Lemma kept_or_made_trans (dirs : list string) (w w1 w2 : World) (p : string) :
  kept_or_made dirs w w1 p → kept_or_made dirs w1 w2 p →
  kept_or_made dirs w w2 p.
Proof.
  unfold kept_or_made.
  intros [H1|(Hin & Hnone & stamp & H1)] [H2|(Hin2 & Hnone2 & stamp2 & H2)].
  - left. congruence.
  - right. split_and!; [done | congruence | by exists stamp2].
  - right. split_and!; [done | done | exists stamp; congruence].
  - congruence.
Qed.

Lemma only_directories_refl (dirs : list string) (w : World) :
  only_directories dirs w w.
Proof. split_and!; try done. intros p. by left. Qed.

Lemma only_directories_trans (dirs : list string) (w w1 w2 : World) :
  only_directories dirs w w1 → only_directories dirs w1 w2 →
  only_directories dirs w w2.
Proof.
  intros (Hr1 & Hc1 & Hs1 & Hf1) (Hr2 & Hc2 & Hs2 & Hf2).
  split_and!; try congruence.
  intros p. by eapply kept_or_made_trans.
Qed.

Lemma foldl_make_directory (stamp : time.Time) (dirs : list string)
  (f : gmap string Node) (p : string) :
  foldl (make_directory stamp) f dirs !! p = f !! p
  ∨ (p ∈ dirs ∧ f !! p = None
     ∧ foldl (make_directory stamp) f dirs !! p = Some (Directory stamp)).
Proof.
  revert f. induction dirs as [|dir rest IH]; intros f; [by left|].
  simpl. unfold make_directory at 2 4.
  destruct (f !! dir) eqn:Hdir.
  - destruct (IH f) as [H|(Hin & Hnone & H)]; [by left|].
    right. split_and!; [by right | done | done].
  - destruct (IH (<[dir := Directory stamp]> f)) as [H|(Hin & Hnone & H)].
    + destruct (decide (p = dir)) as [->|Hne].
      * right. rewrite lookup_insert_eq in H. split_and!; [by left | done | done].
      * left. by rewrite lookup_insert_ne in H.
    + destruct (decide (p = dir)) as [->|Hne].
      * by rewrite lookup_insert_eq in Hnone.
      * rewrite lookup_insert_ne in Hnone by done.
        right. split_and!; [by right | done | done].
Qed.

Lemma foldl_make_directory_kept (stamp : time.Time) (dirs : list string)
  (f : gmap string Node) (p : string) :
  is_Some (f !! p) → is_Some (foldl (make_directory stamp) f dirs !! p).
Proof.
  intros [node Hnode].
  destruct (foldl_make_directory stamp dirs f p) as [H|(_ & Hnone & _)];
    [rewrite H; by eexists | congruence].
Qed.

Lemma foldl_make_directory_made (stamp : time.Time) (dirs : list string)
  (f : gmap string Node) (p : string) :
  p ∈ dirs → is_Some (foldl (make_directory stamp) f dirs !! p).
Proof.
  revert f. induction dirs as [|dir rest IH]; intros f Hin;
    [by apply elem_of_nil in Hin|].
  simpl. destruct (decide (p = dir)) as [->|Hne].
  - apply foldl_make_directory_kept. unfold make_directory.
    destruct (f !! dir) eqn:Hdir; [by rewrite Hdir|].
    by rewrite lookup_insert_eq.
  - apply elem_of_cons in Hin as [->|Hin]; [done|]. by apply IH.
Qed.

(** What [os.MkdirAll] does to the world: directories, where nothing
    existed, at [dir] and above it. *)
Lemma os_MkdirAll_only_directories (env : Env) (dir : string) (w w1 : World)
  (r : option string) :
  os_MkdirAll env dir w = (r, w1) → only_directories (lineage dir) w w1.
Proof.
  unfold os_MkdirAll.
  destruct (mkdirErr env); intros [= _ <-]; split_and!; try done; intros p;
    simpl.
  - destruct (foldl_make_directory (mkdirModTime env)
                (take (mkdirMade env) (reverse (lineage dir))) (fs w) p)
      as [H|(Hin & Hnone & H)]; [by left|].
    right. split_and!; [|done|by eexists].
    apply elem_of_reverse. by apply (subseteq_take (mkdirMade env)).
  - destruct (foldl_make_directory (mkdirModTime env)
                (reverse (lineage dir)) (fs w) p)
      as [H|(Hin & Hnone & H)]; [by left|].
    right. split_and!; [|done|by eexists].
    by apply elem_of_reverse.
Qed.

(** After a call of [os.MkdirAll] that succeeds, something exists at [dir]
    and at every path above it. *)
Lemma os_MkdirAll_made (env : Env) (dir : string) (w w1 : World) (p : string) :
  os_MkdirAll env dir w = (None, w1) → p ∈ lineage dir →
  is_Some (fs w1 !! p).
Proof.
  unfold os_MkdirAll. destruct (mkdirErr env); [done|].
  intros [= <-] Hin. simpl.
  apply foldl_make_directory_made. by apply elem_of_reverse.
Qed.

Lemma os_WriteFile_elsewhere (env : Env) (filePath content : string)
  (w w1 : World) (r : option string) :
  os_WriteFile env filePath content w = (r, w1) →
  fileRecords w1 = fileRecords w ∧ clock w1 = clock w
  ∧ snapshots w1 = snapshots w
  ∧ ∀ other, other ≠ filePath → fs w1 !! other = fs w !! other.
Proof.
  unfold os_WriteFile.
  destruct (writeErr env); [destruct (writeDone env)|]; intros [= _ <-];
    split_and!; try done; intros other Hne; simpl;
    by rewrite lookup_insert_ne.
Qed.

(** A failing write that did not get to open the file changes nothing. *)
Lemma os_WriteFile_unopened (env : Env) (filePath content e : string)
  (w w1 : World) :
  os_WriteFile env filePath content w = (Some e, w1) →
  writeErr env = None ∨ writeDone env = None → w1 = w.
Proof.
  unfold os_WriteFile.
  destruct (writeErr env); [|done].
  destruct (writeDone env); [|by intros [= _ <-]].
  by intros _ [|].
Qed.












Lemma kept_or_made_files (dirs : list string) (w w' : World) (p : string)
  (node : Node) :
  kept_or_made dirs w w' p → (∀ stamp, node ≠ Directory stamp) →
  fs w' !! p = Some node ↔ fs w !! p = Some node.
Proof.
  intros [H|(_ & Hnone & stamp & H)] Hnode; [by rewrite H|].
  rewrite H, Hnone. split; [|done]. intros [= <-]. by destruct (Hnode stamp).
Qed.




(** A run that fails has recorded nothing; unless a write failed on the
    opened file, it has at most made directories. *)
Ltac failed_steps :=
  repeat match goal with
         | H : os_MkdirAll _ _ _ = (_, _) |- _ =>
             apply os_MkdirAll_only_directories in H
         | H : os_WriteFile _ _ _ _ = (Some _, _) |- _ =>
             apply os_WriteFile_unopened in H; [subst|assumption]
         end;
  first [apply only_directories_refl | assumption].

Lemma os_WriteFile_records (env : Env) (filePath content : string)
  (w w1 : World) (r : option string) :
  os_WriteFile env filePath content w = (r, w1) →
  fileRecords w1 = fileRecords w ∧ clock w1 = clock w.
Proof.
  intros H. by apply os_WriteFile_elsewhere in H as (? & ? & _).
Qed.

Ltac records_steps :=
  repeat match goal with
         | H : os_MkdirAll _ _ _ = (_, _) |- _ =>
             apply os_MkdirAll_only_directories in H;
             destruct H as (? & ? & _)
         | H : os_WriteFile _ _ _ _ = (_, _) |- _ =>
             apply os_WriteFile_records in H; destruct H
         end;
  split; congruence.

Lemma createNewFile_failed (env : Env) (filePath content : string)
  (w w' : World) (e : string) :
  createNewFile env filePath content w = (Err e, w') →
  (fileRecords w' = fileRecords w ∧ clock w' = clock w)
  ∧ (writeErr env = None ∨ writeDone env = None →
     only_directories (lineage (filepath_Dir filePath)) w w').
Proof.
  unfold createNewFile. intros H. hyp_cases H; injection H as _ <-;
    (split; [records_steps | intros Hwrite; failed_steps]).
Qed.

Lemma deleteContent_failed (env : Env) (filePath oldString : string)
  (w w' : World) (e : string) :
  deleteContent env filePath oldString w = (Err e, w') →
  (fileRecords w' = fileRecords w ∧ clock w' = clock w)
  ∧ (writeErr env = None ∨ writeDone env = None →
     only_directories (lineage (filepath_Dir filePath)) w w').
Proof.
  unfold deleteContent. intros H. hyp_cases H; injection H as _ <-;
    (split; [records_steps | intros Hwrite; failed_steps]).
Qed.

Lemma replaceContent_failed (env : Env) (filePath oldString newString : string)
  (w w' : World) (e : string) :
  replaceContent env filePath oldString newString w = (Err e, w') →
  (fileRecords w' = fileRecords w ∧ clock w' = clock w)
  ∧ (writeErr env = None ∨ writeDone env = None →
     only_directories (lineage (filepath_Dir filePath)) w w').
Proof.
  unfold replaceContent. intros H. hyp_cases H; injection H as _ <-;
    (split; [records_steps | intros Hwrite; failed_steps]).
Qed.

Lemma edit_Run_failed (env : Env) (params : EditParams) (w : World) :
  run_failed (edit_Run env (Some params) w).1 = true →
  (fileRecords (edit_Run env (Some params) w).2 = fileRecords w
   ∧ clock (edit_Run env (Some params) w).2 = clock w)
  ∧ (writeErr env = None ∨ writeDone env = None →
     only_directories (lineage (filepath_Dir (absPath (FilePath params)))) w
       (edit_Run env (Some params) w).2).
Proof.
  unfold edit_Run.
  destruct (String.eqb (FilePath params) "");
    [intros _; split; [done | intros _; apply only_directories_refl]|].
  destruct (String.eqb (OldString params) "").
  { destruct (createNewFile _ _ _ _) as [[r|e] w'] eqn:E; [done|].
    intros _. by eapply createNewFile_failed. }
  destruct (String.eqb (NewString params) "").
  { destruct (deleteContent _ _ _ _) as [[r|e] w'] eqn:E; [done|].
    intros _. by eapply deleteContent_failed. }
  destruct (replaceContent _ _ _ _ _) as [[r|e] w'] eqn:E; [done|].
  intros _. by eapply replaceContent_failed.
Qed.

Lemma write_Run_failed (env : Env) (params : WriteParams) (w : World) :
  run_failed (write_Run env (Ok params) w).1 = true →
  (fileRecords (write_Run env (Ok params) w).2 = fileRecords w
   ∧ clock (write_Run env (Ok params) w).2 = clock w)
  ∧ (writeErr env = None ∨ writeDone env = None →
     only_directories
       (lineage (filepath_Dir (absPath (write_FilePath params)))) w
       (write_Run env (Ok params) w).2).
Proof.
  unfold write_Run.
  goal_cases; cbn [fst snd run_failed]; intros H; try discriminate H;
    (split; [records_steps | intros Hwrite; failed_steps]).
Qed.

Lemma only_directories_same_files (dirs : list string) (w w' : World) :
  only_directories dirs w w' → same_files w w'.
Proof.
  intros (_ & _ & _ & Hf) p node. eapply kept_or_made_files, Hf.
Qed.

(** X2: a run of the edit tool or of the write tool that fails (an error
    response or a Go error) has recorded nothing: the file records are as
    they were. Unless the operating system failed in the middle of writing
    the file, the files are as they were, too: what is not a directory
    lies at the same paths and is the same (directories above the target
    may have been made). *)
Theorem X2_failed_run_records_nothing (env : Env) (w : World) :
  (∀ params,
     let run := edit_Run env (Some params) w in
     run_failed run.1 = true →
     fileRecords run.2 = fileRecords w
     ∧ (writeErr env = None ∨ writeDone env = None → same_files w run.2))
  ∧ (∀ params,
       let run := write_Run env (Ok params) w in
       run_failed run.1 = true →
       fileRecords run.2 = fileRecords w
       ∧ (writeErr env = None ∨ writeDone env = None → same_files w run.2)).
Proof.
  split; intros params run Hfailed.
  - destruct (edit_Run_failed env params w Hfailed) as [[Hr Hc] Hf].
    split; [done|]. intros Hwrite.
    eapply only_directories_same_files, Hf, Hwrite.
  - destruct (write_Run_failed env params w Hfailed) as [[Hr Hc] Hf].
    split; [done|]. intros Hwrite.
    eapply only_directories_same_files, Hf, Hwrite.
Qed.

(** ** No permission, no mutation *)

Ltac denied Hdeny :=
  goal_cases; cbn [fst];
  first [ by eexists
        | match goal with
          | H : negb (permissions_Request _) = false |- _ =>
              rewrite Hdeny in H; discriminate H
          end ].

Lemma createNewFile_denied (env : Env) (filePath content : string) (w : World) :
  (∀ req, permissions_Request req = false) →
  ∃ e, (createNewFile env filePath content w).1 = Err e.
Proof. intros Hdeny. unfold createNewFile. denied Hdeny. Qed.

Lemma deleteContent_denied (env : Env) (filePath oldString : string) (w : World) :
  (∀ req, permissions_Request req = false) →
  ∃ e, (deleteContent env filePath oldString w).1 = Err e.
Proof. intros Hdeny. unfold deleteContent. denied Hdeny. Qed.

Lemma replaceContent_denied (env : Env) (filePath oldString newString : string)
  (w : World) :
  (∀ req, permissions_Request req = false) →
  ∃ e, (replaceContent env filePath oldString newString w).1 = Err e.
Proof. intros Hdeny. unfold replaceContent. denied Hdeny. Qed.

Lemma edit_Run_denied (env : Env) (input : option EditParams) (w : World) :
  (∀ req, permissions_Request req = false) →
  run_failed (edit_Run env input w).1 = true.
Proof.
  intros Hdeny. unfold edit_Run. destruct input as [params|]; [|done].
  destruct (String.eqb (FilePath params) ""); [done|].
  destruct (String.eqb (OldString params) "").
  { destruct (createNewFile_denied env (absPath (FilePath params))
                (NewString params) w Hdeny) as [e He].
    destruct (createNewFile _ _ _ _) as [[r|e'] w']; [discriminate He|done]. }
  destruct (String.eqb (NewString params) "").
  { destruct (deleteContent_denied env (absPath (FilePath params))
                (OldString params) w Hdeny) as [e He].
    destruct (deleteContent _ _ _ _) as [[r|e'] w']; [discriminate He|done]. }
  destruct (replaceContent_denied env (absPath (FilePath params))
              (OldString params) (NewString params) w Hdeny) as [e He].
  destruct (replaceContent _ _ _ _ _) as [[r|e'] w']; [discriminate He|done].
Qed.

Lemma write_Run_denied (env : Env) (input : result WriteParams) (w : World) :
  (∀ req, permissions_Request req = false) →
  run_failed (write_Run env input w).1 = true.
Proof.
  intros Hdeny. unfold write_Run.
  destruct input as [params|e]; [|done].
  goal_cases; cbn [fst run_failed NewTextErrorResponse IsError];
    try reflexivity;
    match goal with
    | H : negb (permissions_Request _) = false |- _ =>
        rewrite Hdeny in H; discriminate H
    end.
Qed.

(** Without permission no run gets to [os.WriteFile]. *)
Ltac unwritten Hdeny :=
  goal_cases; cbn [snd];
  try match goal with
      | H : negb (permissions_Request _) = false |- _ =>
          rewrite Hdeny in H; discriminate H
      end;
  failed_steps.

Lemma createNewFile_unwritten (env : Env) (filePath content : string)
  (w : World) :
  (∀ req, permissions_Request req = false) →
  only_directories (lineage (filepath_Dir filePath)) w
    (createNewFile env filePath content w).2.
Proof. intros Hdeny. unfold createNewFile. unwritten Hdeny. Qed.

Lemma deleteContent_unwritten (env : Env) (filePath oldString : string)
  (w : World) :
  (∀ req, permissions_Request req = false) →
  only_directories (lineage (filepath_Dir filePath)) w
    (deleteContent env filePath oldString w).2.
Proof. intros Hdeny. unfold deleteContent. unwritten Hdeny. Qed.

Lemma replaceContent_unwritten (env : Env)
  (filePath oldString newString : string) (w : World) :
  (∀ req, permissions_Request req = false) →
  only_directories (lineage (filepath_Dir filePath)) w
    (replaceContent env filePath oldString newString w).2.
Proof. intros Hdeny. unfold replaceContent. unwritten Hdeny. Qed.

Lemma edit_Run_unwritten (env : Env) (params : EditParams) (w : World) :
  (∀ req, permissions_Request req = false) →
  only_directories (lineage (filepath_Dir (absPath (FilePath params)))) w
    (edit_Run env (Some params) w).2.
Proof.
  intros Hdeny. unfold edit_Run.
  destruct (String.eqb (FilePath params) "");
    [apply only_directories_refl|].
  destruct (String.eqb (OldString params) "").
  { pose proof (createNewFile_unwritten env (absPath (FilePath params))
                  (NewString params) w Hdeny) as H.
    by destruct (createNewFile _ _ _ _) as [[r|e] w']. }
  destruct (String.eqb (NewString params) "").
  { pose proof (deleteContent_unwritten env (absPath (FilePath params))
                  (OldString params) w Hdeny) as H.
    by destruct (deleteContent _ _ _ _) as [[r|e] w']. }
  pose proof (replaceContent_unwritten env (absPath (FilePath params))
                (OldString params) (NewString params) w Hdeny) as H.
  by destruct (replaceContent _ _ _ _ _) as [[r|e] w'].
Qed.

Lemma write_Run_unwritten (env : Env) (params : WriteParams) (w : World) :
  (∀ req, permissions_Request req = false) →
  only_directories (lineage (filepath_Dir (absPath (write_FilePath params))))
    w (write_Run env (Ok params) w).2.
Proof. intros Hdeny. unfold write_Run. unwritten Hdeny. Qed.

(** The directories are made before permission is asked for. *)
Lemma createNewFile_directories (env : Env) (filePath content : string)
  (w : World) (p : string) :
  (∀ req, permissions_Request req = false) →
  fs w !! filePath = None → mkdirErr env = None →
  p ∈ lineage (filepath_Dir filePath) →
  is_Some (fs (createNewFile env filePath content w).2 !! p).
Proof.
  intros Hdeny Hnone Hmkdir Hin. unfold createNewFile, os_Stat.
  rewrite Hnone.
  destruct (os_MkdirAll env (filepath_Dir filePath) w) as [[e|] w1] eqn:E.
  { unfold os_MkdirAll in E. rewrite Hmkdir in E. discriminate E. }
  pose proof (os_MkdirAll_made env _ w w1 p E Hin) as Hmade.
  goal_cases; cbn [snd]; try exact Hmade;
    match goal with
    | H : negb (permissions_Request _) = false |- _ =>
        rewrite Hdeny in H; discriminate H
    end.
Qed.

Lemma write_Run_directories (env : Env) (params : WriteParams)
  (w : World) (p : string) :
  (∀ req, permissions_Request req = false) →
  write_FilePath params ≠ "" → write_Content params ≠ "" →
  fs w !! absPath (write_FilePath params) = None → mkdirErr env = None →
  p ∈ lineage (filepath_Dir (absPath (write_FilePath params))) →
  is_Some (fs (write_Run env (Ok params) w).2 !! p).
Proof.
  intros Hdeny Hpath Hcontent Hnone Hmkdir Hin. unfold write_Run, os_Stat.
  apply String.eqb_neq in Hpath, Hcontent. rewrite Hpath, Hcontent, Hnone.
  cbv zeta.
  destruct (os_MkdirAll env _ w) as [[e|] w1] eqn:E.
  { unfold os_MkdirAll in E. rewrite Hmkdir in E. discriminate E. }
  pose proof (os_MkdirAll_made env _ w w1 p E Hin) as Hmade.
  goal_cases; cbn [snd]; try exact Hmade;
    match goal with
    | H : negb (permissions_Request _) = false |- _ =>
        rewrite Hdeny in H; discriminate H
    end.
Qed.

(** X3: when the permission service refuses every request, every run of
    the edit tool and of the write tool fails, records nothing and leaves
    the files as they were: what is not a directory lies at the same paths
    and is the same. Directories are another matter: a creation by the
    edit tool and a write make the directories above a target that does
    not exist before permission is asked for, so that after the refused
    run something exists at the target's directory and at every path
    above it. *)
Theorem X3_no_mutation_without_permission (env : Env) (w : World) :
  (∀ req, permissions_Request req = false) →
  (∀ params,
     let run := edit_Run env (Some params) w in
     run_failed run.1 = true
     ∧ fileRecords run.2 = fileRecords w
     ∧ same_files w run.2
     ∧ (FilePath params ≠ "" → OldString params = "" →
        fs w !! absPath (FilePath params) = None → mkdirErr env = None →
        ∀ p, p ∈ lineage (filepath_Dir (absPath (FilePath params))) →
             is_Some (fs run.2 !! p)))
  ∧ (∀ params,
       let run := write_Run env (Ok params) w in
       run_failed run.1 = true
       ∧ fileRecords run.2 = fileRecords w
       ∧ same_files w run.2
       ∧ (write_FilePath params ≠ "" → write_Content params ≠ "" →
          fs w !! absPath (write_FilePath params) = None →
          mkdirErr env = None →
          ∀ p, p ∈ lineage (filepath_Dir (absPath (write_FilePath params))) →
               is_Some (fs run.2 !! p))).
Proof.
  intros Hdeny. split; intros params run.
  - pose proof (edit_Run_unwritten env params w Hdeny) as Hdirs.
    split_and!.
    + by apply edit_Run_denied.
    + by destruct Hdirs as (? & _).
    + eapply only_directories_same_files, Hdirs.
    + intros Hpath Hold Hnone Hmkdir p Hin. unfold run, edit_Run.
      apply String.eqb_neq in Hpath. rewrite Hpath, Hold. simpl.
      pose proof (createNewFile_directories env (absPath (FilePath params))
                    (NewString params) w p Hdeny Hnone Hmkdir Hin) as H.
      by destruct (createNewFile _ _ _ _) as [[r|e] w'].
  - pose proof (write_Run_unwritten env params w Hdeny) as Hdirs.
    split_and!.
    + by apply write_Run_denied.
    + by destruct Hdirs as (? & _).
    + eapply only_directories_same_files, Hdirs.
    + intros Hpath Hcontent Hnone Hmkdir p Hin.
      by apply write_Run_directories.
Qed.

(** Whether [os.MkdirAll] fails is the answer of the operating system. *)
Lemma os_MkdirAll_err (env : Env) (dir : string) (w w1 : World)
  (r : option string) :
  os_MkdirAll env dir w = (r, w1) → r = mkdirErr env.
Proof. unfold os_MkdirAll. destruct (mkdirErr env); by intros [= <- _]. Qed.

Ltac mkdir_ok Hmk :=
  match goal with
  | |- context [os_MkdirAll ?env ?dir ?w] =>
      let E := fresh "Hmkdir" in
      destruct (os_MkdirAll env dir w) as [[?|] ?w1] eqn:E;
      [apply os_MkdirAll_err in E; rewrite Hmk in E; discriminate E|]
  end.

(** ** Deleting and creating through the edit tool *)

Lemma deleteContent_once (env : Env) (filePath oldString : string)
  (w : World) (content : string) (mt : time.Time) :
  fs w !! filePath = Some (RegularFile content mt None) →
  getLastReadTime filePath w ≠ 0 →
  time.After mt (getLastReadTime filePath w) = false →
  strings.occurrences content oldString = 1%nat →
  sessionID env ≠ "" → messageID env ≠ "" →
  (∀ a b c, is_Err (GenerateGitDiffWithStats a b c) = false) →
  (∀ req, permissions_Request req = true) →
  writeErr env = None →
  ∃ r w',
    deleteContent env filePath oldString w = (Ok r, w')
    ∧ file_content w' filePath =
        Some (strings.slice_to content (strings.Index content oldString)
              +:+
              strings.slice_from content
                (strings.Index content oldString + strings.len oldString)).
Proof.
  intros Hfs Hread Hfresh Hocc Hs Hm Hdiff Hperm Hw.
  unfold deleteContent.
  rewrite (os_Stat_regular _ _ _ _ _ Hfs). simpl.
  rewrite (IsZero_false _ Hread), Hfresh.
  rewrite (os_ReadFile_regular _ _ _ _ Hfs).
  destruct (Index_LastIndex_once _ _ Hocc) as [Heq Hpos].
  rewrite <- Heq, Z.eqb_refl. simpl.
  destruct (Z.eqb_spec (strings.Index content oldString) (-1)); [lia|].
  eqb_false Hs. eqb_false Hm. simpl.
  match goal with
  | |- context [GenerateGitDiffWithStats ?a ?b ?c] =>
      specialize (Hdiff a b c);
      destruct (GenerateGitDiffWithStats a b c) as [[diff stats]|]; [|done]
  end.
  rewrite Hperm. simpl.
  unfold os_WriteFile. rewrite Hw. simpl.
  eexists _, _. split; [reflexivity|].
  unfold file_content. simpl. by rewrite lookup_insert_eq.
Qed.

(** X4: an edit with an empty [new_string] (delete mode) on a readable
    file that was read and is not stale, in which [old_string] occurs at
    exactly one offset, with the identifiers present, the diff produced,
    permission granted and the write going through: the run succeeds and
    the file holds the old content with that occurrence cut out. *)
Theorem X4_delete_cuts_the_single_occurrence (env : Env) (w : World)
  (filePath oldString content : string) (mt : time.Time) :
  filePath ≠ "" → oldString ≠ "" →
  fs w !! absPath filePath = Some (RegularFile content mt None) →
  getLastReadTime (absPath filePath) w ≠ 0 →
  time.After mt (getLastReadTime (absPath filePath) w) = false →
  strings.occurrences content oldString = 1%nat →
  sessionID env ≠ "" → messageID env ≠ "" →
  (∀ a b c, is_Err (GenerateGitDiffWithStats a b c) = false) →
  (∀ req, permissions_Request req = true) →
  writeErr env = None →
  let run := edit_Run env
               (Some {| FilePath := filePath; OldString := oldString;
                        NewString := "" |}) w in
  ∃ pre post,
    content = pre +:+ oldString +:+ post
    ∧ run_failed run.1 = false
    ∧ file_content run.2 (absPath filePath) = Some (pre +:+ post).
Proof.
  intros Hp Ho Hfs Hread Hfresh Hocc Hs Hm Hdiff Hperm Hw. cbv zeta.
  unfold edit_Run. cbn [FilePath OldString NewString].
  eqb_false Hp. eqb_false Ho. rewrite String.eqb_refl.
  destruct (deleteContent_once env _ oldString _ _ _ Hfs Hread Hfresh Hocc
              Hs Hm Hdiff Hperm Hw) as (r & w' & -> & Hc).
  destruct (Index_LastIndex_once _ _ Hocc) as [_ Hpos].
  eexists _, _. split; [exact (Index_split _ _ Hpos)|].
  split; [done | exact Hc].
Qed.

(** X5: an edit with an empty [old_string] (creation mode). When anything
    exists at the target path the run fails and nothing changes, whether
    or not the path was read; for a regular file the message says that the
    file already exists. When nothing exists there, and the directories
    can be made, the identifiers are present, the diff is produced,
    permission is granted and the write goes through, the run succeeds
    without any earlier read and the new file holds [new_string]. *)
Theorem X5_creation_mode (env : Env) (w : World)
  (filePath newString : string) :
  filePath ≠ "" →
  let run := edit_Run env
               (Some {| FilePath := filePath; OldString := "";
                        NewString := newString |}) w in
  (∀ node, fs w !! absPath filePath = Some node →
     run_failed run.1 = true ∧ run.2 = w
     ∧ (∀ content mt readErr, node = RegularFile content mt readErr →
          strings.Contains (run_message run.1) "file already exists" = true))
  ∧ (fs w !! absPath filePath = None →
     mkdirErr env = None → sessionID env ≠ "" → messageID env ≠ "" →
     (∀ a b c, is_Err (GenerateGitDiffWithStats a b c) = false) →
     (∀ req, permissions_Request req = true) →
     writeErr env = None →
     run_failed run.1 = false
     ∧ file_content run.2 (absPath filePath) = Some newString).
Proof.
  intros Hp. cbv zeta. unfold edit_Run. cbn [FilePath OldString NewString].
  eqb_false Hp. rewrite String.eqb_refl. unfold createNewFile, os_Stat.
  split.
  - intros node Hnode. rewrite Hnode.
    destruct node as [content mt readErr|mt|e];
      cbn [IsDir fst snd run_failed run_message NewTextErrorResponse IsError
           resp_Content];
      (split; [reflexivity|split; [reflexivity|]]);
      intros content' mt' readErr' [=]. contains.
  - intros Hnone Hmk Hs Hm Hdiff Hperm Hw. rewrite Hnone. cbv zeta.
    mkdir_ok Hmk.
    eqb_false Hs. eqb_false Hm. simpl.
    match goal with
    | |- context [GenerateGitDiffWithStats ?a ?b ?c] =>
        specialize (Hdiff a b c);
        destruct (GenerateGitDiffWithStats a b c) as [[diff stats]|]; [|done]
    end.
    rewrite Hperm. simpl. unfold os_WriteFile. rewrite Hw. simpl.
    split; [reflexivity|].
    unfold file_content. simpl. by rewrite lookup_insert_eq.
Qed.

(** ** Writing, and writing again *)

(** The state after the write and the two records. *)
Lemma write_Run_ok_world (env : Env) (params : WriteParams) (w : World) :
  run_failed (write_Run env (Ok params) w).1 = false →
  ∃ readErr w1,
    only_directories
      (lineage (filepath_Dir (absPath (write_FilePath params)))) w w1
    ∧ (write_Run env (Ok params) w).2 =
      recordFileRead (absPath (write_FilePath params))
        (elapse (elapsedRead env)
           (recordFileWrite (absPath (write_FilePath params))
              (elapse (elapsedWrite env)
                 (set_fs
                    (<[absPath (write_FilePath params) :=
                         RegularFile (write_Content params) (writeModTime env)
                           readErr]> (fs w1)) w1))))
    ∧ readErr = match fs w1 !! absPath (write_FilePath params) with
                | Some (RegularFile _ _ r) => r
                | _ => None
                end.
Proof.
  unfold write_Run.
  goal_cases; cbn [fst snd run_failed NewTextErrorResponse IsError];
    try (intros H; discriminate H); intros _;
    match goal with
    | H : os_MkdirAll _ _ _ = (_, ?w1) |- _ =>
        apply os_MkdirAll_only_directories in H;
        eexists _, w1; split; [exact H|]
    end;
    match goal with
    | H : os_WriteFile _ _ _ _ = (None, _) |- _ =>
        unfold os_WriteFile in H;
        destruct (writeErr env); [by destruct (writeDone env)|];
        injection H as <-
    end;
    split; reflexivity.
Qed.

Lemma write_Run_identical (env : Env) (params : WriteParams) (w : World)
  (mt : time.Time) :
  write_FilePath params ≠ "" → write_Content params ≠ "" →
  fs w !! absPath (write_FilePath params)
    = Some (RegularFile (write_Content params) mt None) →
  time.After mt (getLastReadTime (absPath (write_FilePath params)) w) = false →
  write_Run env (Ok params) w =
  (Ok (NewTextErrorResponse
         ("File " +:+ absPath (write_FilePath params) +:+
          " already contains the exact content. No changes made.")), w).
Proof.
  intros Hp Hc Hfs Hfresh. unfold write_Run. eqb_false Hp. eqb_false Hc.
  rewrite (os_Stat_regular _ _ _ _ _ Hfs). cbn [IsDir ModTime].
  by rewrite Hfresh, (os_ReadFile_regular _ _ _ _ Hfs), String.eqb_refl.
Qed.

(** X6: the write tool on a path where nothing exists needs no earlier
    read: when the directories can be made, the identifiers are present,
    the diff is produced, permission is granted and the write goes through,
    the run succeeds and the new file holds the content. *)
Theorem X6_write_creates_without_read (env : Env) (params : WriteParams)
  (w : World) :
  write_FilePath params ≠ "" → write_Content params ≠ "" →
  fs w !! absPath (write_FilePath params) = None →
  mkdirErr env = None → sessionID env ≠ "" → messageID env ≠ "" →
  (∀ a b c, is_Err (GenerateGitDiffWithStats a b c) = false) →
  (∀ req, permissions_Request req = true) →
  writeErr env = None →
  run_failed (write_Run env (Ok params) w).1 = false
  ∧ file_content (write_Run env (Ok params) w).2
      (absPath (write_FilePath params)) = Some (write_Content params).
Proof.
  intros Hp Hc Hnone Hmk Hs Hm Hdiff Hperm Hw.
  unfold write_Run, os_Stat. eqb_false Hp. eqb_false Hc.
  rewrite Hnone. cbv zeta. mkdir_ok Hmk. eqb_false Hs. eqb_false Hm. simpl.
  match goal with
  | |- context [GenerateGitDiffWithStats ?a ?b ?c] =>
      specialize (Hdiff a b c);
      destruct (GenerateGitDiffWithStats a b c) as [[diff stats]|]; [|done]
  end.
  rewrite Hperm. simpl. unfold os_WriteFile. rewrite Hw. simpl.
  split; [reflexivity|].
  unfold file_content. simpl. by rewrite lookup_insert_eq.
Qed.

(** X7: writing the same content twice. After a successful write, when
    the modification time stamped on the file is not ahead of the
    process's clock and the target was not an unreadable file, a second
    write of the same parameters is refused with "already contains the
    exact content" and changes nothing. *)
Theorem X7_second_identical_write_is_refused (env env' : Env)
  (params : WriteParams) (w : World) :
  run_failed (write_Run env (Ok params) w).1 = false →
  writeModTime env ≤ time_Now w →
  (∀ content mt e,
     fs w !! absPath (write_FilePath params)
     ≠ Some (RegularFile content mt (Some e))) →
  let w' := (write_Run env (Ok params) w).2 in
  run_failed (write_Run env' (Ok params) w').1 = true
  ∧ strings.Contains (run_message (write_Run env' (Ok params) w').1)
      "already contains the exact content" = true
  ∧ (write_Run env' (Ok params) w').2 = w'.
Proof.
  intros Hok Hmt Hreadable. cbv zeta.
  assert (Hp : write_FilePath params ≠ "").
  { intros E. unfold write_Run in Hok. rewrite E in Hok. discriminate Hok. }
  assert (Hc : write_Content params ≠ "").
  { intros E. unfold write_Run in Hok. rewrite E in Hok.
    destruct (String.eqb (write_FilePath params) ""); discriminate Hok. }
  destruct (write_Run_ok_world env params w Hok)
    as (readErr & w1 & (_ & Hclock & _ & Hfs) & -> & HreadErr).
  assert (readErr = None) as ->.
  { subst readErr.
    destruct (Hfs (absPath (write_FilePath params)))
      as [->|(_ & _ & stamp & ->)]; [|done].
    destruct (fs w !! absPath (write_FilePath params))
      as [[content mt [e|]| |]|] eqn:E; try done.
    by destruct (Hreadable content mt e). }
  assert (Hnow : time_Now w1 = time_Now w)
    by (unfold time_Now; by rewrite Hclock).
  rewrite (write_Run_identical env' params _ (writeModTime env) Hp Hc).
  - cbn [fst snd run_failed run_message NewTextErrorResponse IsError
         resp_Content].
    split_and!; [reflexivity | contains | reflexivity].
  - rewrite fs_recordFileRead. simpl. apply lookup_insert_eq.
  - rewrite getLastReadTime_recordFileRead. unfold time.After.
    apply Z.ltb_ge.
    etrans; [exact Hmt|]. rewrite <- Hnow.
    etrans; [apply (clock_elapse (elapsedWrite env))|].
    apply (clock_elapse (elapsedRead env)
             (recordFileWrite _ (elapse (elapsedWrite env) (set_fs _ w1)))).
Qed.

(** ** The file-record map: reads and writes *)

Lemma getLastReadTime_recordFileWrite (p q : string) (w : World) :
  getLastReadTime q (recordFileWrite p w) = getLastReadTime q w.
Proof.
  unfold getLastReadTime, recordFileWrite. simpl.
  destruct (decide (p = q)) as [->|Hne].
  - rewrite lookup_insert_eq. by destruct (fileRecords w !! q).
  - by rewrite lookup_insert_ne.
Qed.

(** X8: the file-record map. Recording a write changes no path's last-read
    time (a path that was only written counts as unread); recording a read
    sets the path's last-read time to the clock's time, keeps the path's
    write time, and changes no other path's record. *)
Theorem X8_file_records (p : string) (w : World) :
  (∀ q, getLastReadTime q (recordFileWrite p w) = getLastReadTime q w)
  ∧ getLastReadTime p (recordFileRead p w) = time_Now w
  ∧ (writeTime <$> fileRecords (recordFileRead p w) !! p
     = Some (default 0 (writeTime <$> fileRecords w !! p)))
  ∧ (∀ q, q ≠ p →
       fileRecords (recordFileRead p w) !! q = fileRecords w !! q
       ∧ fileRecords (recordFileWrite p w) !! q = fileRecords w !! q)
  ∧ (fileRecords w !! p = None →
     time.IsZero (getLastReadTime p (recordFileWrite p w)) = true).
Proof.
  split_and!.
  - intros q. apply getLastReadTime_recordFileWrite.
  - apply getLastReadTime_recordFileRead.
  - unfold recordFileRead. simpl. rewrite lookup_insert_eq. simpl.
    by destruct (fileRecords w !! p).
  - intros q Hne. unfold recordFileRead, recordFileWrite. simpl.
    by rewrite !lookup_insert_ne.
  - intros Hnone. rewrite getLastReadTime_recordFileWrite.
    unfold getLastReadTime. by rewrite Hnone.
Qed.

(** ** The working-directory prefix *)

Lemma take_app_length (a b : string) :
  strings.take (String.length a) (a +:+ b) = a.
Proof.
  induction a as [|c a IH]; simpl; [done|]. by rewrite IH.
Qed.

Lemma drop_app_length (a b : string) :
  strings.drop (String.length a) (a +:+ b) = b.
Proof. induction a as [|c a IH]; simpl; [done|]. exact IH. Qed.

(** X9: [removeWorkingDirectoryPrefix] cuts the working directory and the
    one byte that follows it (the separator) from a path that starts with
    the working directory and is longer; a path that is not longer than
    the working directory, or does not start with it, is returned as it
    is. *)
Theorem X9_removeWorkingDirectoryPrefix (filePath : string) :
  (∀ c rest, filePath = WorkingDirectory +:+ String c rest →
             removeWorkingDirectoryPrefix filePath = rest)
  ∧ (strings.len filePath ≤ strings.len WorkingDirectory
     ∨ strings.HasPrefix filePath WorkingDirectory = false →
     removeWorkingDirectoryPrefix filePath = filePath).
Proof.
  unfold removeWorkingDirectoryPrefix, strings.len, strings.slice_to,
    strings.slice_from.
  split.
  - intros c rest ->. rewrite app_length. simpl.
    replace (Z.of_nat (String.length WorkingDirectory)
             <? Z.of_nat (String.length WorkingDirectory + S (String.length rest)))
      with true by (symmetry; apply Z.ltb_lt; lia).
    rewrite Nat2Z.id, take_app_length, String.eqb_refl. simpl.
    replace (Z.to_nat (Z.of_nat (String.length WorkingDirectory) + 1))
      with (String.length WorkingDirectory + 1)%nat by lia.
    by rewrite <- drop_drop, drop_app_length.
  - intros [Hlen|Hpre].
    + by replace (Z.of_nat (String.length WorkingDirectory)
                  <? Z.of_nat (String.length filePath))
        with false by (symmetry; apply Z.ltb_ge; lia).
    + destruct (Z.of_nat (String.length WorkingDirectory)
                <? Z.of_nat (String.length filePath)); [|done].
      rewrite Nat2Z.id. simpl.
      destruct (String.eqb_spec
                  (strings.take (String.length WorkingDirectory) filePath)
                  WorkingDirectory) as [E|]; [|done].
      rewrite <- (take_drop (String.length WorkingDirectory) filePath) in Hpre.
      rewrite E, prefix_app in Hpre. discriminate Hpre.
Qed.

(** ** The retry loop on whole scripts *)

(** X10: a [Retry-After] header whose first value does not scan as an
    integer is ignored: the wait before retry [k] is the backoff with its
    jitter, 2400 ms doubled [k - 1] times, as without a header. *)
Theorem X10_unreadable_retry_after_is_ignored (attempts status : Z)
  (v : string) (values : list string) :
  status = 429 ∨ status = 529 → 1 ≤ attempts ≤ 8 →
  Sscanf_d v = None →
  shouldRetry attempts (APIError status (v :: values))
  = Some (true, 2400 * 2 ^ (attempts - 1), None).
Proof.
  intros Hs Ha Hv. rewrite (shouldRetry_no_scan _ _ _ _ Hs Hv).
  by apply shouldRetry_backoff.
Qed.

Lemma shouldRetry_retries (attempts status : Z) (values : list string) :
  status = 429 ∨ status = 529 → 1 ≤ attempts ≤ 8 →
  ∃ after,
    shouldRetry attempts (APIError status values) = Some (true, after, None).
Proof.
  intros Hs Ha. unfold shouldRetry.
  replace (negb (status =? 429) && negb (status =? 529)) with false
    by (destruct Hs as [-> | ->]; reflexivity).
  replace (maxRetries <? attempts) with false
    by (symmetry; apply Z.ltb_ge; unfold maxRetries; lia).
  replace (attempts - 1 <? 0) with false by (symmetry; apply Z.ltb_ge; lia).
  by eexists.
Qed.

Lemma shouldRetry_exhausted (attempts status : Z) (values : list string) :
  status = 429 ∨ status = 529 → 8 < attempts →
  shouldRetry attempts (APIError status values)
  = Some (false, 0, Some retriesExhausted).
Proof.
  intros Hs Ha. unfold shouldRetry.
  replace (negb (status =? 429) && negb (status =? 529)) with false
    by (destruct Hs as [-> | ->]; reflexivity).
  replace (maxRetries <? attempts) with true
    by (symmetry; apply Z.ltb_lt; unfold maxRetries; lia).
  reflexivity.
Qed.

Lemma send_loop_exhausted (script : list Round) (attempts : Z) :
  0 ≤ attempts ≤ 8 →
  Forall retryable script →
  9 - attempts ≤ Z.of_nat (length script) →
  (send_loop attempts script).1 = Failed retriesExhausted
  ∧ Z.of_nat (length (send_loop attempts script).2) = 8 - attempts.
Proof.
  revert attempts. induction script as [|round rest IH];
    intros attempts Ha Hall Hlen; [simpl in Hlen; lia|].
  apply Forall_cons in Hall. destruct Hall as [Hr Hall].
  destruct Hr as (status & values & Hans & Hs & Hctx).
  simpl. rewrite Hans.
  destruct (decide (attempts = 8)) as [->|Hne].
  - by rewrite (shouldRetry_exhausted (8 + 1) status values Hs ltac:(lia)).
  - destruct (shouldRetry_retries (attempts + 1) status values Hs ltac:(lia))
      as [after ->].
    rewrite Hctx.
    destruct (IH (attempts + 1) ltac:(lia) Hall
                ltac:(simpl in Hlen; lia)) as [H1 H2].
    destruct (send_loop (attempts + 1) rest) as [r waits].
    simpl in *. split; [exact H1 | lia].
Qed.

(** X11: when the vendor keeps answering 429 or 529, [send] gives up at
    the ninth answer: it has waited eight times and returns the error
    "maximum retry attempts reached for rate limit: 8 retries". *)
Theorem X11_send_gives_up_after_eight_retries (script : list Round) :
  Forall retryable script → (9 ≤ length script)%nat →
  (send script).1 = Failed retriesExhausted
  ∧ length (send script).2 = 8%nat.
Proof.
  intros Hall Hlen.
  destruct (send_loop_exhausted script 0 ltac:(lia) Hall ltac:(lia))
    as [H1 H2].
  unfold send. split; [exact H1 | lia].
Qed.

Lemma send_loop_recovers (failures rest : list Round) (round : Round)
  (response : anthropic_Message) (attempts : Z) :
  0 ≤ attempts →
  Forall retryable failures →
  attempts + Z.of_nat (length failures) ≤ 8 →
  answer round = inl response →
  (send_loop attempts (failures ++ round :: rest)).1
  = Returned {| pr_Content := textOf (am_Content response);
                pr_ToolCalls := toolCalls (am_Content response);
                pr_Usage := usage response |}
  ∧ length (send_loop attempts (failures ++ round :: rest)).2
    = length failures.
Proof.
  revert attempts. induction failures as [|f failures IH];
    intros attempts Ha Hall Hlen Hans.
  - simpl. by rewrite Hans.
  - apply Forall_cons in Hall. destruct Hall as [Hr Hall].
    destruct Hr as (status & values & Hf & Hs & Hctx).
    simpl in *. rewrite Hf.
    destruct (shouldRetry_retries (attempts + 1) status values Hs ltac:(lia))
      as [after ->].
    rewrite Hctx.
    destruct (IH (attempts + 1) ltac:(lia) Hall ltac:(lia) Hans) as [H1 H2].
    destruct (send_loop (attempts + 1) (failures ++ round :: rest))
      as [r waits].
    simpl in *. split; [exact H1 | lia].
Qed.

(** X12: after up to eight answers 429 or 529 the first good answer is
    what [send] returns: the text of its text blocks, its tool calls and
    its usage; [send] has waited once per failed answer, and whatever the
    vendor would have answered later plays no part. *)
Theorem X12_send_returns_first_good_answer (failures rest : list Round)
  (round : Round) (response : anthropic_Message) :
  Forall retryable failures → (length failures ≤ 8)%nat →
  answer round = inl response →
  (send (failures ++ round :: rest)).1
  = Returned {| pr_Content := textOf (am_Content response);
                pr_ToolCalls := toolCalls (am_Content response);
                pr_Usage := usage response |}
  ∧ length (send (failures ++ round :: rest)).2 = length failures.
Proof.
  intros Hall Hlen Hans. unfold send.
  apply send_loop_recovers; [lia | exact Hall | lia | exact Hans].
Qed.

Lemma send_loop_canceled (failures rest : list Round) (round : Round)
  (status : Z) (values : list string) (attempts : Z) :
  0 ≤ attempts →
  Forall retryable failures →
  attempts + Z.of_nat (length failures) < 8 →
  answer round = inr (APIError status values) →
  status = 429 ∨ status = 529 →
  ctxDone round = true →
  send_loop attempts (failures ++ round :: rest)
  = (Canceled, (send_loop attempts (failures ++ round :: rest)).2)
  ∧ length (send_loop attempts (failures ++ round :: rest)).2
    = length failures.
Proof.
  revert attempts. induction failures as [|f failures IH];
    intros attempts Ha Hall Hlen Hans Hs Hctx.
  - simpl. rewrite Hans.
    destruct (shouldRetry_retries (attempts + 1) status values Hs ltac:(simpl in Hlen; lia))
      as [after ->].
    by rewrite Hctx.
  - apply Forall_cons in Hall. destruct Hall as [Hr Hall].
    destruct Hr as (status' & values' & Hf & Hs' & Hctx').
    simpl in *. rewrite Hf.
    destruct (shouldRetry_retries (attempts + 1) status' values' Hs'
                ltac:(lia)) as [after ->].
    rewrite Hctx'.
    destruct (IH (attempts + 1) ltac:(lia) Hall ltac:(lia) Hans Hs Hctx)
      as [H1 H2].
    destruct (send_loop (attempts + 1) (failures ++ round :: rest))
      as [r waits].
    simpl in *. injection H1 as ->. split; [reflexivity | lia].
Qed.

(** X13: when the context is done while [send] waits to retry, [send]
    stops with the cancellation and calls the vendor no more; it has
    waited only for the failed answers before that one. *)
Theorem X13_send_stops_on_cancellation (failures rest : list Round)
  (round : Round) (status : Z) (values : list string) :
  Forall retryable failures → (length failures < 8)%nat →
  answer round = inr (APIError status values) →
  status = 429 ∨ status = 529 →
  ctxDone round = true →
  (send (failures ++ round :: rest)).1 = Canceled
  ∧ length (send (failures ++ round :: rest)).2 = length failures.
Proof.
  intros Hall Hlen Hans Hs Hctx. unfold send.
  destruct (send_loop_canceled failures rest round status values 0
              ltac:(lia) Hall ltac:(lia) Hans Hs Hctx) as [H1 H2].
  split; [by rewrite H1 | exact H2].
Qed.

(** ** What the translation keeps of a history *)

Lemma convertMessages_from_length (options : anthropicOptions)
  (messages : list Message) (c : Z) :
  (length (convertMessages_from options c messages) ≤ length messages)%nat.
Proof.
  revert c. induction messages as [|msg rest IH]; intros c; simpl; [lia|].
  destruct (Role msg); simpl; try (specialize (IH c); lia).
  - match goal with |- context [convertMessages_from options ?c' rest] =>
      specialize (IH c') end. lia.
  - match goal with |- context [convertMessages_from options ?c' rest] =>
      specialize (IH c') end.
    destruct (_ ++ _); simpl; lia.
Qed.

Lemma convertMessages_from_assistant (options : anthropicOptions)
  (messages : list Message) (c : Z) :
  Forall (λ m, mp_Role m = RoleAssistant → mp_Content m ≠ [])
    (convertMessages_from options c messages).
Proof.
  revert c. induction messages as [|msg rest IH]; intros c; simpl; [done|].
  destruct (Role msg); try apply IH.
  - apply Forall_cons. split; [done | apply IH].
  - destruct (_ ++ _) eqn:E; [apply IH|].
    apply Forall_cons. split; [done | apply IH].
  - apply Forall_cons. split; [done | apply IH].
Qed.

Lemma convertMessages_from_system (options : anthropicOptions)
  (messages : list Message) (c : Z) :
  convertMessages_from options c (filter (λ m, is_System m = false) messages)
  = convertMessages_from options c messages.
Proof.
  revert c. induction messages as [|msg rest IH]; intros c; [done|].
  destruct (is_System msg) eqn:E.
  - rewrite filter_cons_False by (rewrite E; done).
    unfold is_System in E. simpl.
    destruct (Role msg); first [done | apply IH].
  - rewrite filter_cons_True by done.
    unfold is_System in E. simpl.
    destruct (Role msg); first [done | by rewrite !IH].
Qed.

(** X14: the request translated from a history has no more messages than
    the history, none of its assistant messages is empty (an assistant
    message without text and without a decodable tool call is left out),
    and the system messages of the history play no part in it. *)
Theorem X14_translated_request_shape (options : anthropicOptions)
  (messages : list Message) :
  (length (convertMessages options messages) ≤ length messages)%nat
  ∧ Forall (λ m, mp_Role m = RoleAssistant → mp_Content m ≠ [])
      (convertMessages options messages)
  ∧ convertMessages options (filter (λ m, is_System m = false) messages)
    = convertMessages options messages.
Proof.
  unfold convertMessages. split_and!.
  - apply convertMessages_from_length.
  - apply convertMessages_from_assistant.
  - apply convertMessages_from_system.
Qed.

Lemma blockResultIDs_app (a b : list ContentBlockParam) :
  blockResultIDs (a ++ b) = blockResultIDs a ++ blockResultIDs b.
Proof. unfold blockResultIDs. apply flat_map_app. Qed.

Lemma blockToolUseIDs_app (a b : list ContentBlockParam) :
  blockToolUseIDs (a ++ b) = blockToolUseIDs a ++ blockToolUseIDs b.
Proof. unfold blockToolUseIDs. apply flat_map_app. Qed.

Lemma blockResultIDs_toolResultBlocks (results : list ToolResult) :
  blockResultIDs (toolResultBlocks results) = map ToolCallID results.
Proof. induction results as [|r rs IH]; simpl; [done|]. by rewrite IH. Qed.

Lemma blockToolUseIDs_toolResultBlocks (results : list ToolResult) :
  blockToolUseIDs (toolResultBlocks results) = [].
Proof. induction results as [|r rs IH]; simpl; done. Qed.

Lemma blockResultIDs_toolUseBlocks (calls : list ToolCall) :
  blockResultIDs (toolUseBlocks calls) = [].
Proof.
  induction calls as [|c cs IH]; simpl; [done|].
  by destruct (json_Unmarshal (tc_Input c)).
Qed.

Lemma blockToolUseIDs_toolUseBlocks (calls : list ToolCall) :
  blockToolUseIDs (toolUseBlocks calls) = decodableIDs calls.
Proof.
  induction calls as [|c cs IH]; simpl; [done|].
  destruct (json_Unmarshal (tc_Input c)); simpl; by rewrite ?IH.
Qed.

Lemma assistant_ids (blocks : list ContentBlockParam)
  (request : list MessageParam) :
  let out := match blocks with
             | [] => request
             | _ => NewAssistantMessage blocks :: request
             end in
  requestResultIDs out = blockResultIDs blocks ++ requestResultIDs request
  ∧ requestToolUseIDs out
    = blockToolUseIDs blocks ++ requestToolUseIDs request.
Proof. by destruct blocks. Qed.

Lemma convertMessages_from_ids (options : anthropicOptions)
  (messages : list Message) (c : Z) :
  requestResultIDs (convertMessages_from options c messages)
  = historyResultIDs messages
  ∧ requestToolUseIDs (convertMessages_from options c messages)
    = historyToolUseIDs messages.
Proof.
  revert c. induction messages as [|msg rest IH]; intros c; [done|].
  change (historyResultIDs (msg :: rest)) with
    (match Role msg with
     | Tool => map ToolCallID (ToolResults msg)
     | _ => []
     end ++ historyResultIDs rest).
  change (historyToolUseIDs (msg :: rest)) with
    (match Role msg with
     | Assistant => decodableIDs (ToolCalls msg)
     | _ => []
     end ++ historyToolUseIDs rest).
  simpl convertMessages_from. destruct (Role msg).
  - apply IH.
  - match goal with
    | |- context [match ?blocks with
                  | [] => convertMessages_from options ?c' rest
                  | _ => _
                  end] =>
        destruct (assistant_ids blocks (convertMessages_from options c' rest))
          as [-> ->];
        destruct (IH c') as [-> ->]
    end.
    rewrite blockResultIDs_app, blockToolUseIDs_app.
    rewrite blockResultIDs_toolUseBlocks, blockToolUseIDs_toolUseBlocks.
    by destruct (negb (String.eqb (msg_Content msg) "")).
  - destruct (IH c) as [IH1 IH2].
    unfold requestResultIDs, requestToolUseIDs in *. simpl.
    rewrite blockResultIDs_toolResultBlocks, blockToolUseIDs_toolResultBlocks.
    by rewrite IH1, IH2.
  - apply IH.
Qed.

(** X15: the translation loses and reorders no tool traffic: the tool
    results of the request are, in order, the tool results of the tool
    messages of the history, and its tool-use blocks are, in order, the
    tool calls of the assistant messages whose input decodes (a call with
    undecodable input is dropped). *)
Theorem X15_translation_keeps_tool_ids (options : anthropicOptions)
  (messages : list Message) :
  requestResultIDs (convertMessages options messages)
  = historyResultIDs messages
  ∧ requestToolUseIDs (convertMessages options messages)
    = historyToolUseIDs messages.
Proof. apply convertMessages_from_ids. Qed.

(** X16: [convertTools] keeps the tools and their order, and puts the
    cache hint on the last tool only, and on none when the cache is
    disabled. *)
Theorem X16_cache_hint_on_last_tool (options : anthropicOptions)
  (tools : list ToolInfo) :
  map tp_Name (convertTools options tools) = map info_Name tools
  ∧ ∀ i tool, convertTools options tools !! i = Some tool →
      (tp_CacheControl tool = true
       ↔ S i = length tools ∧ disableCache options = false).
Proof.
  unfold convertTools. split.
  - apply list_eq. intros i.
    rewrite !list_lookup_fmap, list_lookup_imap.
    by destruct (tools !! i).
  - intros i tool. rewrite list_lookup_imap.
    destruct (tools !! i) as [info|] eqn:E; [|done].
    intros [= <-]. simpl.
    rewrite andb_true_iff, negb_true_iff, Z.eqb_eq. split.
    + intros [H1 H2]. split; [lia | done].
    + intros [H1 H2]. split; [lia | done].
Qed.

(** ** The vendor's view of a dispatch *)

Lemma dispatch_step_blocks (tools : list BaseTool) (calls : list ToolCall)
  (d : Dispatch) (index : nat) :
  blockResultIDs (anthropicToolResults (dispatch_step tools calls d index))
  = blockResultIDs (anthropicToolResults d)
    ++ match calls !! index with
       | Some toolCall => [tc_ID toolCall]
       | None => []
       end.
Proof.
  unfold dispatch_step, task. destruct (calls !! index) as [tc|].
  - destruct (runToolCall tools tc (d_world d)) as [r w']. simpl.
    by rewrite blockResultIDs_app.
  - by rewrite app_nil_r.
Qed.

Lemma executeTools_blocks (tools : list BaseTool) (calls : list ToolCall)
  (schedule : list nat) (d : Dispatch) :
  blockResultIDs
    (anthropicToolResults (foldl (dispatch_step tools calls) d schedule))
  = blockResultIDs (anthropicToolResults d)
    ++ omap (λ i, tc_ID <$> calls !! i) schedule.
Proof.
  revert d. induction schedule as [|index rest IH]; intros d; simpl.
  - by rewrite app_nil_r.
  - rewrite IH, dispatch_step_blocks, <- List.app_assoc. f_equal.
    by destruct (calls !! index).
Qed.

(** X17: the tool-result blocks handed back to the vendor after a
    dispatch are in the order in which the tasks finished, not in the
    order of the calls: their ids are the ids of the calls taken along the
    schedule. *)
Theorem X17_vendor_results_in_completion_order (tools : list BaseTool)
  (calls : list ToolCall) (schedule : list nat) (w : World) :
  blockResultIDs (anthropicToolResults (executeTools tools calls schedule w))
  = omap (λ i, tc_ID <$> calls !! i) schedule.
Proof. unfold executeTools. by rewrite executeTools_blocks. Qed.

Lemma findAndRun_first (before after : list BaseTool) (tool : BaseTool)
  (toolCall : ToolCall) (w : World) :
  Forall (λ t, Info_Name t ≠ tc_Name toolCall) before →
  Info_Name tool = tc_Name toolCall →
  findAndRun (before ++ tool :: after) toolCall w
  = match tool_Run tool (tc_Input toolCall) w with
    | (Err toolErr, w') => (("error running tool: " +:+ toolErr, true, true), w')
    | (Ok toolResult, w') =>
        ((resp_Content toolResult, IsError toolResult, true), w')
    end.
Proof.
  intros Hbefore Hname.
  induction Hbefore as [|t before Hne _ IH]; simpl.
  - by rewrite Hname, String.eqb_refl.
  - apply String.eqb_neq in Hne. by rewrite Hne.
Qed.

(** X18: a tool call runs the first registered tool that bears its name,
    once, and no other tool: the result carries the call's id and the
    tool's content and error flag, or, when [Run] returns a Go error, the
    content "error running tool: " with the error, marked as an error. *)
Theorem X18_first_registered_tool_runs (before after : list BaseTool)
  (tool : BaseTool) (toolCall : ToolCall) (w : World) :
  Forall (λ t, Info_Name t ≠ tc_Name toolCall) before →
  Info_Name tool = tc_Name toolCall →
  runToolCall (before ++ tool :: after) toolCall w
  = match tool_Run tool (tc_Input toolCall) w with
    | (Err toolErr, w') =>
        ({| ToolCallID := tc_ID toolCall;
            tr_Content := "error running tool: " +:+ toolErr;
            tr_IsError := true |}, w')
    | (Ok toolResult, w') =>
        ({| ToolCallID := tc_ID toolCall;
            tr_Content := resp_Content toolResult;
            tr_IsError := IsError toolResult |}, w')
    end.
Proof.
  intros Hbefore Hname. unfold runToolCall.
  rewrite (findAndRun_first before after tool toolCall w Hbefore Hname).
  by destruct (tool_Run tool (tc_Input toolCall) w) as [[r|e] w'].
Qed.

(** ** What the title task saves *)

(** X19: the title task saves the session as it read it, with the new
    title. The messages and every other session are as the main flow of
    [NewMessage] left them, and the session has the title of the answer,
    but its token counters are the ones the task read: what the main flow
    saved for the session between the task's [Sessions.Get] and its
    [Sessions.Save] is overwritten. *)
Theorem X19_title_task_saves_what_it_read
  (client : MessageNewParams → anthropic_Message + error)
  (bigModel : string) (timeout : Z) (sessionID content : string)
  (between : App → App) (app : App)
  (response : anthropic_Message) (session : Session) :
  client (titleRequest bigModel content) = inl response →
  Sessions app !! sessionID = Some session →
  sess_ID session = sessionID →
  let app' := (runDetached_beside between client bigModel None
                 (TitleGeneration timeout sessionID content) app).1 in
  Messages app' = Messages (between app)
  ∧ (∀ k, k ≠ sessionID → Sessions app' !! k = Sessions (between app) !! k)
  ∧ ∃ saved,
      Sessions app' !! sessionID = Some saved
      ∧ Title saved = textOf (am_Content response)
      ∧ PromptTokens saved = PromptTokens session
      ∧ CompletionTokens saved = CompletionTokens session.
Proof.
  intros Hclient Hsession Hid. cbv zeta.
  unfold runDetached_beside, generateSessionTitle, Sessions_Get,
    Sessions_Save.
  rewrite Hclient, Hsession. simpl. rewrite Hid. split_and!.
  - reflexivity.
  - intros k Hk. by rewrite lookup_insert_ne.
  - eexists. rewrite lookup_insert_eq. by split_and!.
Qed.

(** ** The request parameters *)

Ltac think_off :=
  split_and!;
  [ split; [done | by intros [? ?]] | split; done | done | done
  | by intros [? ?] ].

(** X20: [preparedMessages] enables thinking only when the last message
    is a user message with a non-empty text on which the predicate holds;
    the temperature is 1 exactly when thinking is enabled and 0 otherwise;
    the messages are passed on as they are and the system prompt always
    carries the cache hint. On an empty list of messages it panics. *)
Theorem X20_thinking_and_temperature (po : providerClientOptions)
  (shouldThink : option (string → bool)) (messages : list MessageParam)
  (tools : list ToolParam) :
  (preparedMessages po shouldThink messages tools = None ↔ messages = [])
  ∧ ∀ p, preparedMessages po shouldThink messages tools = Some p →
      (prep_Temperature p = 1 ↔ is_Some (prep_Thinking p))
      ∧ (prep_Temperature p = 0 ↔ prep_Thinking p = None)
      ∧ prep_Messages p = messages
      ∧ prep_System p = [(po_systemMessage po, true)]
      ∧ (is_Some (prep_Thinking p) →
         ∃ lastMessage f,
           last messages = Some lastMessage
           ∧ mp_Role lastMessage = RoleUser
           ∧ lastText (mp_Content lastMessage) "" ≠ ""
           ∧ shouldThink = Some f
           ∧ f (lastText (mp_Content lastMessage) "") = true).
Proof.
  unfold preparedMessages. split.
  - destruct (last messages) eqn:E.
    + split; [done|]. intros ->. done.
    + split; [|done]. intros _. by apply last_None.
  - intros p. destruct (last messages) as [lastMessage|]; [|done].
    intros [= <-].
    cbn [prep_Temperature prep_Thinking prep_Messages prep_System].
    destruct (mp_Role lastMessage) eqn:Hrole; simpl; [|think_off].
    destruct (String.eqb_spec (lastText (mp_Content lastMessage) "") "")
      as [Hempty|Hne]; simpl; [think_off|].
    destruct shouldThink as [f|]; simpl; [|think_off].
    destruct (f (lastText (mp_Content lastMessage) "")) eqn:Hf; simpl;
      [|think_off].
    split_and!; [split; [by eexists | done] | split; done | done | done |].
    intros _. by eexists _, _.
Qed.

(** ** Targets that are missing or are directories *)

(** X21: replacing or deleting in a path where nothing exists fails with
    "file not found" (only an empty [old_string] creates a file), and a
    directory is refused by the edit tool in every mode and by the write
    tool, with the message that the path is a directory; nothing
    changes. *)
Theorem X21_missing_or_directory_target (env : Env) (w : World)
  (filePath : string) :
  filePath ≠ "" →
  (fs w !! absPath filePath = None →
   ∀ oldString newString, oldString ≠ "" →
     let run := edit_Run env
                  (Some {| FilePath := filePath; OldString := oldString;
                           NewString := newString |}) w in
     run_failed run.1 = true
     ∧ strings.Contains (run_message run.1) "file not found: " = true
     ∧ run.2 = w)
  ∧ (∀ mt, fs w !! absPath filePath = Some (Directory mt) →
       (∀ oldString newString,
          let run := edit_Run env
                       (Some {| FilePath := filePath; OldString := oldString;
                                NewString := newString |}) w in
          run_failed run.1 = true
          ∧ strings.Contains (run_message run.1)
              "path is a directory, not a file: " = true
          ∧ run.2 = w)
       ∧ (∀ content, content ≠ "" →
            let run := write_Run env
                         (Ok {| write_FilePath := filePath;
                                write_Content := content |}) w in
            run_failed run.1 = true
            ∧ strings.Contains (run_message run.1)
                "Path is a directory, not a file: " = true
            ∧ run.2 = w)).
Proof.
  intros Hp. split.
  - intros Hnone oldString newString Ho. cbv zeta.
    unfold edit_Run. cbn [FilePath OldString NewString].
    eqb_false Hp. eqb_false Ho.
    unfold deleteContent, replaceContent, os_Stat. rewrite Hnone.
    destruct (String.eqb newString "");
      cbn [fst snd run_failed run_message NewTextErrorResponse IsError
           resp_Content];
      (split_and!; [reflexivity | contains | reflexivity]).
  - intros mt Hdir. split.
    + intros oldString newString. cbv zeta.
      unfold edit_Run. cbn [FilePath OldString NewString].
      eqb_false Hp.
      unfold createNewFile, deleteContent, replaceContent, os_Stat.
      rewrite Hdir. cbn [IsDir].
      destruct (String.eqb oldString ""); [|destruct (String.eqb newString "")];
        cbn [fst snd run_failed run_message NewTextErrorResponse IsError
             resp_Content];
        (split_and!; [reflexivity | contains | reflexivity]).
    + intros content Hc. cbv zeta. unfold write_Run.
      cbn [write_FilePath write_Content].
      eqb_false Hp. eqb_false Hc. unfold os_Stat. rewrite Hdir.
      cbn [IsDir fst snd run_failed run_message NewTextErrorResponse IsError
           resp_Content].
      split_and!; [reflexivity | contains | reflexivity].
Qed.

(** ** Edits in a row *)

Lemma os_WriteFile_ok (env : Env) (filePath content : string)
  (w w1 : World) :
  os_WriteFile env filePath content w = (None, w1) →
  ∃ readErr,
    w1 = set_fs (<[filePath := RegularFile content (writeModTime env)
                                 readErr]> (fs w)) w.
Proof.
  unfold os_WriteFile.
  destruct (writeErr env); [by destruct (writeDone env)|].
  intros [= <-]. by eexists.
Qed.

(** The world after a successful run: the file written into the world
    [w1] that [os.MkdirAll] left (the first world, when the tool does not
    call it), and the two records. *)
Ltac ok_world w :=
  match goal with
  | H : os_WriteFile _ _ ?c ?w1 = (None, _) |- _ =>
      apply os_WriteFile_ok in H; destruct H as [?readErr ->];
      exists c, readErr, w1; split; [|reflexivity]
  end;
  first [ reflexivity
        | match goal with
          | H : os_MkdirAll _ _ w = (_, _) |- _ =>
              by apply os_MkdirAll_only_directories in H as (_ & ? & _)
          end ].

Lemma createNewFile_world (env : Env) (filePath content : string)
  (w w' : World) (r : editResponse) :
  createNewFile env filePath content w = (Ok r, w') →
  ∃ c readErr w1,
    clock w1 = clock w
    ∧ w' = recordFileRead filePath
             (elapse (elapsedRead env)
                (recordFileWrite filePath
                   (elapse (elapsedWrite env)
                      (set_fs (<[filePath :=
                                   RegularFile c (writeModTime env) readErr]>
                                 (fs w1)) w1)))).
Proof.
  unfold createNewFile. intros H. hyp_cases H;
    injection H as _ <-; ok_world w.
Qed.

Lemma deleteContent_world (env : Env) (filePath oldString : string)
  (w w' : World) (r : editResponse) :
  deleteContent env filePath oldString w = (Ok r, w') →
  ∃ c readErr w1,
    clock w1 = clock w
    ∧ w' = recordFileRead filePath
             (elapse (elapsedRead env)
                (recordFileWrite filePath
                   (elapse (elapsedWrite env)
                      (set_fs (<[filePath :=
                                   RegularFile c (writeModTime env) readErr]>
                                 (fs w1)) w1)))).
Proof.
  unfold deleteContent. intros H. hyp_cases H;
    injection H as _ <-; ok_world w.
Qed.

Lemma replaceContent_world (env : Env) (filePath oldString newString : string)
  (w w' : World) (r : editResponse) :
  replaceContent env filePath oldString newString w = (Ok r, w') →
  ∃ c readErr w1,
    clock w1 = clock w
    ∧ w' = recordFileRead filePath
             (elapse (elapsedRead env)
                (recordFileWrite filePath
                   (elapse (elapsedWrite env)
                      (set_fs (<[filePath :=
                                   RegularFile c (writeModTime env) readErr]>
                                 (fs w1)) w1)))).
Proof.
  unfold replaceContent. intros H. hyp_cases H;
    injection H as _ <-; ok_world w.
Qed.

Lemma edit_Run_world (env : Env) (params : EditParams) (w : World) :
  run_failed (edit_Run env (Some params) w).1 = false →
  ∃ c readErr w1,
    clock w1 = clock w
    ∧ (edit_Run env (Some params) w).2 =
      recordFileRead (absPath (FilePath params))
        (elapse (elapsedRead env)
           (recordFileWrite (absPath (FilePath params))
              (elapse (elapsedWrite env)
                 (set_fs (<[absPath (FilePath params) :=
                              RegularFile c (writeModTime env) readErr]>
                            (fs w1)) w1)))).
Proof.
  unfold edit_Run.
  destruct (String.eqb (FilePath params) ""); [done|].
  destruct (String.eqb (OldString params) "").
  { destruct (createNewFile _ _ _ _) as [[r|e] w'] eqn:E; [|done].
    intros _. by eapply createNewFile_world. }
  destruct (String.eqb (NewString params) "").
  { destruct (deleteContent _ _ _ _) as [[r|e] w'] eqn:E; [|done].
    intros _. by eapply deleteContent_world. }
  destruct (replaceContent _ _ _ _ _) as [[r|e] w'] eqn:E; [|done].
  intros _. by eapply replaceContent_world.
Qed.

Lemma fresh_after_mutation (filePath : string) (node : Node) (d1 d2 : N)
  (w : World) :
  getLastReadTime filePath
    (recordFileRead filePath
       (elapse d2
          (recordFileWrite filePath
             (elapse d1 (set_fs (<[filePath := node]> (fs w)) w)))))
  = time_Now w + Z.of_N d1 + Z.of_N d2.
Proof.
  rewrite getLastReadTime_recordFileRead. unfold time_Now. simpl.
  destruct d1, d2; simpl; lia.
Qed.

(** X22: edits in a row need no new read. After a successful run of the
    edit tool or of the write tool the target is a regular file stamped
    with the file system's modification time, and its last-read time is
    the clock's time at [recordFileRead]; so when that stamp is not ahead
    of the clock, the next edit of the path passes both the must-read
    check and the staleness check, and when the stamp is ahead of the
    clock's time at the read the next edit finds the file stale. *)
Theorem X22_chained_edits (env : Env) (w : World) (filePath : string)
  (run : result ToolResponse * World) :
  (∃ params, filePath = absPath (FilePath params)
             ∧ run = edit_Run env (Some params) w)
  ∨ (∃ params, filePath = absPath (write_FilePath params)
               ∧ run = write_Run env (Ok params) w) →
  run_failed run.1 = false →
  os_Stat run.2 filePath
  = StatOk {| IsDir := false; ModTime := writeModTime env |}
  ∧ getLastReadTime filePath run.2
    = time_Now w + Z.of_N (elapsedWrite env) + Z.of_N (elapsedRead env)
  ∧ (writeModTime env ≤ time_Now w →
     time.IsZero (getLastReadTime filePath run.2) = false
     ∧ time.After (writeModTime env) (getLastReadTime filePath run.2) = false)
  ∧ (time_Now w + Z.of_N (elapsedWrite env) + Z.of_N (elapsedRead env)
       < writeModTime env →
     time.After (writeModTime env) (getLastReadTime filePath run.2) = true).
Proof.
  intros Hrun Hok.
  assert (Hw : ∃ c readErr w1,
            clock w1 = clock w
            ∧ run.2 = recordFileRead filePath
                        (elapse (elapsedRead env)
                           (recordFileWrite filePath
                              (elapse (elapsedWrite env)
                                 (set_fs (<[filePath :=
                                              RegularFile c (writeModTime env)
                                                readErr]> (fs w1)) w1))))).
  { destruct Hrun as [(params & -> & ->)|(params & -> & ->)].
    - by apply edit_Run_world.
    - destruct (write_Run_ok_world env params w Hok)
        as (readErr & w1 & (_ & Hclock & _) & H & _).
      by eexists _, _, w1. }
  destruct Hw as (c & readErr & w1 & Hclock & ->).
  rewrite fresh_after_mutation.
  replace (time_Now w1) with (time_Now w)
    by (unfold time_Now; by rewrite Hclock).
  pose proof (time_Now_pos w) as Hpos.
  split_and!.
  - unfold os_Stat. simpl. by rewrite lookup_insert_eq.
  - reflexivity.
  - intros Hmt. split.
    + apply IsZero_false. lia.
    + unfold time.After. apply Z.ltb_ge. lia.
  - intros Hmt. unfold time.After. by apply Z.ltb_lt.
Qed.

(** ** Undoing an edit *)

Lemma occurrences_app (pre sub post : string) :
  (1 ≤ strings.occurrences (pre +:+ sub +:+ post) sub)%nat.
Proof.
  destruct (strings.occurrences (pre +:+ sub +:+ post) sub) eqn:E; [|lia].
  apply Index_none in E. pose proof (Contains_app pre sub post) as H.
  unfold strings.Contains in H. apply Z.leb_le in H. lia.
Qed.

(** A single occurrence is found where it stands. *)
Lemma Index_unique (pre sub post : string) :
  strings.occurrences (pre +:+ sub +:+ post) sub = 1%nat →
  strings.Index (pre +:+ sub +:+ post) sub = strings.len pre.
Proof.
  unfold strings.len. induction pre as [|a pre IH].
  - intros _. rewrite app_nil_l.
    destruct (sub +:+ post) eqn:E; simpl; rewrite <- ?E, prefix_app; done.
  - rewrite app_cons. intros H. simpl in H. simpl strings.Index.
    pose proof (occurrences_app pre sub post) as Hge.
    destruct (strings.HasPrefix (String a (pre +:+ sub +:+ post)) sub);
      [simpl in H; lia|].
    rewrite IH by (simpl in H; lia).
    destruct (Z.eqb_spec (Z.of_nat (String.length pre)) (-1)); [lia|].
    simpl String.length. lia.
Qed.

Lemma replace_unique (pre sub post new : string) :
  strings.occurrences (pre +:+ sub +:+ post) sub = 1%nat →
  strings.slice_to (pre +:+ sub +:+ post)
    (strings.Index (pre +:+ sub +:+ post) sub)
  +:+ new +:+
  strings.slice_from (pre +:+ sub +:+ post)
    (strings.Index (pre +:+ sub +:+ post) sub + strings.len sub)
  = pre +:+ new +:+ post.
Proof.
  intros H. rewrite (Index_unique _ _ _ H).
  unfold strings.slice_to, strings.slice_from, strings.len.
  rewrite Nat2Z.id, take_app_length.
  replace (Z.to_nat (Z.of_nat (String.length pre)
                     + Z.of_nat (String.length sub)))
    with (String.length pre + String.length sub)%nat by lia.
  by rewrite <- drop_drop, !drop_app_length.
Qed.

Lemma replaceContent_once_world (env : Env)
  (filePath oldString newString : string) (w : World) (content : string)
  (mt : time.Time) :
  fs w !! filePath = Some (RegularFile content mt None) →
  getLastReadTime filePath w ≠ 0 →
  time.After mt (getLastReadTime filePath w) = false →
  strings.occurrences content oldString = 1%nat →
  sessionID env ≠ "" → messageID env ≠ "" →
  (∀ a b c, is_Err (GenerateGitDiffWithStats a b c) = false) →
  (∀ req, permissions_Request req = true) →
  writeErr env = None →
  ∃ r,
    replaceContent env filePath oldString newString w =
    (Ok r,
     recordFileRead filePath
       (elapse (elapsedRead env)
          (recordFileWrite filePath
             (elapse (elapsedWrite env)
                (set_fs
                   (<[filePath :=
                        RegularFile
                          (strings.slice_to content
                             (strings.Index content oldString)
                           +:+ newString +:+
                           strings.slice_from content
                             (strings.Index content oldString
                              + strings.len oldString))
                          (writeModTime env) None]> (fs w)) w))))).
Proof.
  intros Hfs Hread Hfresh Hocc Hs Hm Hdiff Hperm Hw.
  unfold replaceContent.
  rewrite (os_Stat_regular _ _ _ _ _ Hfs). simpl.
  rewrite (IsZero_false _ Hread), Hfresh.
  rewrite (os_ReadFile_regular _ _ _ _ Hfs).
  destruct (Index_LastIndex_once _ _ Hocc) as [Heq Hpos].
  rewrite <- Heq, Z.eqb_refl. simpl.
  destruct (Z.eqb_spec (strings.Index content oldString) (-1)); [lia|].
  eqb_false Hs. eqb_false Hm. simpl.
  match goal with
  | |- context [GenerateGitDiffWithStats ?a ?b ?c] =>
      specialize (Hdiff a b c);
      destruct (GenerateGitDiffWithStats a b c) as [[diff stats]|]; [|done]
  end.
  rewrite Hperm. simpl.
  unfold os_WriteFile. rewrite Hw, Hfs. by eexists.
Qed.

(** X23: an edit can be undone by the reverse edit, without reading the
    file again. After [old_string] was replaced by [new_string] (a single
    occurrence, on a readable file that was read and is not stale), when
    the modification time stamped by the file system is not ahead of the
    clock and [new_string] occurs at one offset only in the new content,
    replacing [new_string] by [old_string] succeeds and the file holds its
    first content again; in both runs the identifiers are present, the
    diff is produced, permission is granted and the write goes through. *)
Theorem X23_reverse_edit_restores_the_file (env env' : Env) (w : World)
  (filePath oldString newString content : string) (mt : time.Time) :
  filePath ≠ "" → oldString ≠ "" → newString ≠ "" →
  fs w !! absPath filePath = Some (RegularFile content mt None) →
  getLastReadTime (absPath filePath) w ≠ 0 →
  time.After mt (getLastReadTime (absPath filePath) w) = false →
  strings.occurrences content oldString = 1%nat →
  sessionID env ≠ "" → messageID env ≠ "" → writeErr env = None →
  sessionID env' ≠ "" → messageID env' ≠ "" → writeErr env' = None →
  (∀ a b c, is_Err (GenerateGitDiffWithStats a b c) = false) →
  (∀ req, permissions_Request req = true) →
  writeModTime env ≤ time_Now w →
  let first := edit_Run env
                 (Some {| FilePath := filePath; OldString := oldString;
                          NewString := newString |}) w in
  let second := edit_Run env'
                  (Some {| FilePath := filePath; OldString := newString;
                           NewString := oldString |}) first.2 in
  (∀ edited, file_content first.2 (absPath filePath) = Some edited →
             strings.occurrences edited newString = 1%nat) →
  run_failed first.1 = false
  ∧ run_failed second.1 = false
  ∧ file_content second.2 (absPath filePath) = Some content.
Proof.
  intros Hp Ho Hn Hfs Hread Hfresh Hocc Hs Hm Hw Hs' Hm' Hw' Hdiff Hperm Hmt.
  cbv zeta. unfold edit_Run. cbn [FilePath OldString NewString].
  eqb_false Hp. eqb_false Ho. eqb_false Hn.
  destruct (replaceContent_once_world env (absPath filePath) oldString
              newString w content mt Hfs Hread Hfresh Hocc Hs Hm Hdiff Hperm
              Hw) as [r ->].
  cbn [fst snd run_failed WithResponseMetadata NewTextResponse IsError].
  destruct (Index_LastIndex_once _ _ Hocc) as [_ Hpos].
  pose proof (Index_split content oldString Hpos) as Hsplit.
  set (pre := strings.slice_to content (strings.Index content oldString)) in *.
  set (post := strings.slice_from content
                 (strings.Index content oldString + strings.len oldString))
    in *.
  set (w1 := recordFileRead _ _).
  intros Hunique.
  assert (Hfs1 : fs w1 !! absPath filePath
                 = Some (RegularFile (pre +:+ newString +:+ post)
                           (writeModTime env) None)).
  { subst w1. rewrite fs_recordFileRead. simpl. apply lookup_insert_eq. }
  assert (Hocc1 : strings.occurrences (pre +:+ newString +:+ post) newString
                  = 1%nat).
  { apply Hunique. unfold file_content. by rewrite Hfs1. }
  assert (Hlast : getLastReadTime (absPath filePath) w1
                  = time_Now w + Z.of_N (elapsedWrite env)
                    + Z.of_N (elapsedRead env)).
  { subst w1. apply fresh_after_mutation. }
  pose proof (time_Now_pos w) as Hnow.
  destruct (replaceContent_once env' (absPath filePath) newString oldString
              w1 _ _ Hfs1
              ltac:(rewrite Hlast; lia)
              ltac:(rewrite Hlast; unfold time.After; apply Z.ltb_ge; lia)
              Hocc1 Hs' Hm' Hdiff Hperm Hw') as (r2 & w2 & -> & Hc).
  cbn [fst snd run_failed WithResponseMetadata NewTextResponse IsError].
  split_and!; [reflexivity | reflexivity |].
  rewrite Hc, (replace_unique pre newString post oldString Hocc1).
  by rewrite <- Hsplit.
Qed.

(** ** The tree of the ls tool *)

Lemma findName_None (part : string) (level : list TreeNode) :
  findName part level = None → part ∉ map tn_Name level.
Proof.
  induction level as [|node rest IH]; simpl; [intros _; apply not_elem_of_nil|].
  destruct (String.eqb_spec (tn_Name node) part) as [|Hne]; [done|].
  destruct (findName part rest); [done|]. intros _.
  apply not_elem_of_cons. split; [done | by apply IH].
Qed.

Lemma findName_Some (part : string) (level : list TreeNode) (i : nat) :
  findName part level = Some i →
  ∃ node, level !! i = Some node ∧ tn_Name node = part.
Proof.
  revert i. induction level as [|node rest IH]; intros i; simpl; [done|].
  destruct (String.eqb_spec (tn_Name node) part) as [E|Hne].
  - intros [= <-]. by exists node.
  - destruct (findName part rest) as [j|]; [|done].
    intros [= <-]. by apply IH.
Qed.

Lemma names_insert (level : list TreeNode) (i : nat) (node node' : TreeNode) :
  level !! i = Some node → tn_Name node' = tn_Name node →
  map tn_Name (<[i := node']> level) = map tn_Name level.
Proof.
  intros Hi Hname. revert i Hi.
  induction level as [|first rest IH]; intros [|i] Hi; simpl in *;
    try done.
  - injection Hi as ->. by rewrite Hname.
  - f_equal. by apply IH.
Qed.

Lemma level_ok_nil : level_ok [].
Proof. split; [apply NoDup_nil_2 | apply Forall_nil_2]. Qed.

Lemma level_ok_snoc (level : list TreeNode) (node : TreeNode) :
  level_ok level → tn_Name node ∉ map tn_Name level → node_ok node →
  level_ok (level ++ [node]).
Proof.
  intros [Hnd Hall] Hnew Hnode. split.
  - rewrite map_app. simpl. apply NoDup_app. split; [done|].
    split; [|apply NoDup_singleton].
    intros x Hx Hx'. apply list_elem_of_singleton in Hx'. by subst.
  - apply Forall_app. split; [done|]. by apply Forall_singleton.
Qed.

Lemma insertParts_ok (pathIsDir : bool) (parts : list string)
  (currentPath : string) (level : list TreeNode) :
  level_ok level → level_ok (insertParts pathIsDir parts currentPath level).
Proof.
  revert currentPath level.
  induction parts as [|part rest IH]; intros currentPath level Hok; [done|].
  simpl. destruct (String.eqb_spec part "") as [|Hpart]; [by apply IH|].
  destruct (findName part level) as [i|] eqn:Hfind.
  - destruct (findName_Some _ _ _ Hfind) as (node & Hi & Hname).
    rewrite Hi. destruct node as [name path type [children|]];
      [|by apply IH].
    destruct Hok as [Hnd Hall].
    pose proof (Forall_lookup_1 _ _ _ _ Hall Hi) as Hnode.
    inversion Hnode as [|? ? ? Hne Hcnd Hcall]; subst.
    split.
    + by rewrite (names_insert level i _ _ Hi).
    + apply Forall_insert; [done|].
      apply node_ok_directory; [done | apply IH; by split | apply IH; by split].
  - apply findName_None in Hfind.
    destruct (negb match rest with [] => true | _ => false end || pathIsDir).
    + apply level_ok_snoc; [done | done |].
      apply node_ok_directory;
        [done | apply IH, level_ok_nil | apply IH, level_ok_nil].
    + apply IH. apply level_ok_snoc; [done | done |].
      by apply node_ok_file.
Qed.

(** X24: in the tree [createFileTree] builds from any list of paths, no
    two nodes of one level bear the same name (a path met again adds
    nothing), no node has an empty name, every node typed "directory" has
    a children list, and every node typed "file" has none. *)
Theorem X24_tree_has_no_duplicate_siblings (sortedPaths : list string) :
  NoDup (map tn_Name (createFileTree sortedPaths))
  ∧ Forall node_ok (createFileTree sortedPaths).
Proof.
  unfold createFileTree.
  assert (H : ∀ root, level_ok root → level_ok (foldl insertPath root sortedPaths)).
  { induction sortedPaths as [|path rest IH]; intros root Hroot; [done|].
    simpl. apply IH. by apply insertParts_ok. }
  exact (H [] level_ok_nil).
Qed.


Lemma findName_prefix (part : string) (level level' : list TreeNode)
  (extra : list string) (i : nat) :
  findName part level = Some i →
  map tn_Name level' = map tn_Name level ++ extra →
  findName part level' = Some i.
Proof.
  revert level' i. induction level as [|node rest IH];
    intros level' i; simpl; [done|].
  destruct level' as [|node' rest']; simpl; [done|].
  intros Hfind [= Hname Hrest]. rewrite Hname.
  destruct (String.eqb (tn_Name node) part); [done|].
  destruct (findName part rest) as [j|] eqn:Hj; [|done].
  by rewrite (IH rest' j eq_refl Hrest).
Qed.

Lemma findName_snoc (part : string) (level : list TreeNode) (node : TreeNode) :
  findName part level = None → tn_Name node = part →
  findName part (level ++ [node]) = Some (length level).
Proof.
  intros Hnone Hname. induction level as [|first rest IH]; simpl in *.
  - rewrite Hname. by rewrite String.eqb_refl.
  - destruct (String.eqb (tn_Name first) part); [done|].
    destruct (findName part rest); [done|]. by rewrite IH.
Qed.

Lemma insert_snoc {A : Type} (l : list A) (x y : A) :
  <[length l := y]> (l ++ [x]) = l ++ [y].
Proof. rewrite insert_app_r_alt by done. by rewrite Nat.sub_diag. Qed.

(** Working a path in keeps the names of a level in place, new ones coming
    after them, and leaves the nodes without children as they are. *)
Lemma insertParts_stable (pathIsDir : bool) (parts : list string)
  (currentPath : string) (level : list TreeNode) :
  (∃ extra, map tn_Name (insertParts pathIsDir parts currentPath level)
            = map tn_Name level ++ extra)
  ∧ (∀ j node, level !! j = Some node → tn_Children node = None →
       insertParts pathIsDir parts currentPath level !! j = Some node).
Proof.
  revert currentPath level.
  induction parts as [|part rest IH]; intros currentPath level.
  { split; [exists []; by rewrite app_nil_r | done]. }
  simpl. destruct (String.eqb part ""); [apply IH|].
  destruct (findName part level) as [i|] eqn:Hfind.
  - destruct (findName_Some _ _ _ Hfind) as (node & Hi & Hname).
    rewrite Hi. destruct node as [name path type [children|]]; [|apply IH].
    split.
    + exists []. by rewrite app_nil_r, (names_insert level i _ _ Hi).
    + intros j node Hj Hnone.
      destruct (decide (i = j)) as [->|Hij].
      * rewrite Hi in Hj. injection Hj as <-. done.
      * by rewrite list_lookup_insert_ne.
  - destruct (negb match rest with [] => true | _ => false end || pathIsDir).
    + split.
      * eexists. by rewrite map_app.
      * intros j node Hj _. by apply lookup_app_l_Some.
    + match goal with
      | |- context [insertParts _ _ ?cp (level ++ [?file])] =>
          destruct (IH cp (level ++ [file])) as [[extra Hnames] Hkeep]
      end.
      split.
      * exists (part :: extra). rewrite Hnames, map_app.
        by rewrite <- List.app_assoc.
      * intros j node Hj Hnone. apply Hkeep; [|done].
        by apply lookup_app_l_Some.
Qed.

Lemma insertParts_twice (pathIsDir : bool) (parts : list string)
  (currentPath : string) (level : list TreeNode) :
  insertParts pathIsDir parts currentPath
    (insertParts pathIsDir parts currentPath level)
  = insertParts pathIsDir parts currentPath level.
Proof.
  revert currentPath level.
  induction parts as [|part rest IH]; intros currentPath level; [done|].
  simpl. destruct (String.eqb part "") eqn:Hpart; [apply IH|].
  set (currentPath' := if String.eqb currentPath "" then part
                       else filepath_Join currentPath part).
  destruct (findName part level) as [i|] eqn:Hfind.
  - destruct (findName_Some _ _ _ Hfind) as (node & Hi & Hname).
    rewrite Hi. destruct node as [name path type [children|]].
    + assert (Hfind' : findName part
        (<[i := mkTreeNode name path type
                  (Some (insertParts pathIsDir rest currentPath' children))]>
           level) = Some i).
      { apply (findName_prefix part level _ [] i Hfind).
        by rewrite app_nil_r, (names_insert level i _ _ Hi). }
      rewrite Hfind'.
      rewrite list_lookup_insert_eq by (by eapply lookup_lt_Some).
      by rewrite IH, list_insert_insert_eq.
    + destruct (insertParts_stable pathIsDir rest currentPath' level)
        as [[extra Hnames] Hkeep].
      rewrite (findName_prefix part level _ extra i Hfind Hnames).
      rewrite (Hkeep i _ Hi eq_refl). apply IH.
  - destruct rest as [|next rest]; cbn [negb orb].
    + destruct pathIsDir; cbn [insertParts].
      * rewrite findName_snoc by done.
        rewrite list_lookup_middle by done.
        by rewrite insert_snoc.
      * rewrite findName_snoc by done.
        by rewrite list_lookup_middle.
    + rewrite findName_snoc by done.
      rewrite list_lookup_middle by done.
      rewrite IH. by rewrite insert_snoc.
Qed.

(** X25: a path that comes twice in a row counts once: working it into
    the tree a second time changes nothing, so the tree of a listing in
    which a path is repeated is the tree of the listing without the
    repetition. *)
Theorem X25_repeated_path_counts_once
  (before after : list string) (path : string) :
  createFileTree (before ++ path :: path :: after)
  = createFileTree (before ++ path :: after).
Proof.
  unfold createFileTree. rewrite !foldl_app. simpl.
  unfold insertPath at 2 3. by rewrite insertParts_twice.
Qed.


Lemma findName_not_elem (part : string) (level : list TreeNode) :
  part ∉ map tn_Name level → findName part level = None.
Proof.
  induction level as [|node rest IH]; simpl; [done|].
  intros Hnot. apply not_elem_of_cons in Hnot as [Hne Hrest].
  destruct (String.eqb_spec (tn_Name node) part) as [E|_]; [by subst|].
  by rewrite IH.
Qed.

Lemma Contains_separator_cons (c : Ascii.ascii) (s : string) :
  strings.Contains (String c s) SeparatorString = false →
  Ascii.eqb c Separator = false
  ∧ strings.Contains s SeparatorString = false.
Proof.
  unfold strings.Contains, SeparatorString.
  cbn [strings.Index strings.HasPrefix].
  rewrite (Ascii.eqb_sym Separator c).
  destruct (Ascii.eqb c Separator); [done|].
  intros H. split; [done|].
  destruct (Index_range s (String Separator "")) as [E|E].
  - by rewrite E.
  - destruct (Z.eqb_spec (strings.Index s (String Separator "")) (-1)); lia.
Qed.

Lemma Split_plain (s : string) :
  strings.Contains s SeparatorString = false → strings_Split s = [s].
Proof.
  induction s as [|c s IH]; [done|].
  intros H. apply Contains_separator_cons in H as [Hc Hs].
  cbn [strings_Split]. by rewrite Hc, (IH Hs).
Qed.

Lemma drop_separator_Contains (n : nat) (s rest : string) :
  strings.drop n s = String Separator rest →
  strings.Contains s SeparatorString = true.
Proof.
  revert n. induction s as [|c s IH]; intros [|n]; simpl; try done.
  - intros [= -> ->]. unfold strings.Contains, SeparatorString.
    cbn [strings.Index strings.HasPrefix]. by rewrite Ascii.eqb_refl.
  - intros H. apply IH in H.
    destruct (strings.Contains (String c s) SeparatorString) eqn:E; [done|].
    apply Contains_separator_cons in E as [_ E]. congruence.
Qed.

Lemma HasSuffix_plain (s : string) :
  strings.Contains s SeparatorString = false →
  strings_HasSuffix s SeparatorString = false.
Proof.
  intros H. unfold strings_HasSuffix.
  apply andb_false_iff. right. apply String.eqb_neq. intros E.
  apply drop_separator_Contains in E. congruence.
Qed.

Lemma insertPath_plain (root : list TreeNode) (name : string) :
  name ≠ "" → strings.Contains name SeparatorString = false →
  name ∉ map tn_Name root →
  insertPath root name = root ++ [mkTreeNode name name "file" None].
Proof.
  intros Hne Hplain Hnew. unfold insertPath.
  rewrite (HasSuffix_plain _ Hplain), (Split_plain _ Hplain). simpl.
  apply String.eqb_neq in Hne. rewrite Hne.
  by rewrite (findName_not_elem _ _ Hnew).
Qed.

(** X26: a listing of names that are different, not empty and without a
    separator gives one "file" node per name, in the order of the listing,
    each with its name as path and without children. *)
Theorem X26_flat_listing (names : list string) :
  NoDup names →
  Forall (λ name, name ≠ "" ∧ strings.Contains name SeparatorString = false)
    names →
  createFileTree names
  = map (λ name, mkTreeNode name name "file" None) names.
Proof.
  unfold createFileTree.
  change (map (λ name, mkTreeNode name name "file" None) names)
    with ([] ++ map (λ name, mkTreeNode name name "file" None) names).
  assert (Hroot : ∀ name, name ∈ names → name ∉ map tn_Name ([] : list TreeNode)).
  { intros name _. apply not_elem_of_nil. }
  revert Hroot. generalize ([] : list TreeNode) as root.
  induction names as [|name rest IH]; intros root Hroot Hnd Hall.
  - simpl. by rewrite app_nil_r.
  - apply NoDup_cons in Hnd as [Hfresh Hnd].
    apply Forall_cons in Hall as [[Hne Hplain] Hall]. simpl.
    rewrite (insertPath_plain root name Hne Hplain)
      by (apply Hroot; left).
    rewrite IH; [by rewrite <- List.app_assoc | | done | done].
    intros other Hother. rewrite map_app. simpl.
    intros Hin. apply elem_of_app in Hin as [Hin|Hin].
    + by apply (Hroot other); [right|].
    + apply list_elem_of_singleton in Hin. by subst.
Qed.


(** ** The sidebar *)

Lemma loadFile_entry (allFiles : list history_File)
  (modFiles : gmap string FileStats) (file : history_File) :
  loadFile allFiles modFiles file
  = match fileEntry allFiles file with
    | Some stats => <[getDisplayPath (Path file) := stats]> modFiles
    | None => modFiles
    end.
Proof.
  unfold fileEntry, loadFile, getDisplayPath.
  destruct (String.eqb (Version file) history_InitialVersion); [done|].
  destruct (String.eqb (ID (default zero_File
              (initialVersionOf allFiles (Path file)))) ""); [done|].
  destruct (String.eqb (Content (default zero_File
              (initialVersionOf allFiles (Path file)))) (Content file));
    [done|].
  destruct (diff_GenerateDiff _ _ _) as [[text additions] removals].
  destruct ((0 <? additions) || (0 <? removals)); [|done].
  by rewrite lookup_insert_eq.
Qed.

Lemma fileEntry_counts (allFiles : list history_File) (file : history_File)
  (stats : FileStats) :
  fileEntry allFiles file = Some stats → counts_a_change stats.
Proof.
  unfold fileEntry, loadFile, getDisplayPath.
  destruct (String.eqb (Version file) history_InitialVersion); [done|].
  destruct (String.eqb (ID (default zero_File
              (initialVersionOf allFiles (Path file)))) ""); [done|].
  destruct (String.eqb (Content (default zero_File
              (initialVersionOf allFiles (Path file)))) (Content file));
    [done|].
  destruct (diff_GenerateDiff _ _ _) as [[text additions] removals].
  destruct ((0 <? additions) || (0 <? removals)) eqn:Hsome; [|done].
  rewrite lookup_insert_eq. intros [= <-]. unfold counts_a_change. simpl.
  apply orb_true_iff in Hsome as [H|H]; apply Z.ltb_lt in H; lia.
Qed.

Lemma fileEntry_untracked (allFiles : list history_File)
  (file : history_File) :
  tracked allFiles file = false → fileEntry allFiles file = None.
Proof.
  unfold tracked, fileEntry, loadFile.
  destruct (String.eqb (Version file) history_InitialVersion); [done|].
  destruct (initialVersionOf allFiles (Path file)) as [v|]; simpl.
  - destruct (String.eqb (ID v) ""); done.
  - done.
Qed.

Lemma foldl_loadFile_counts (allFiles files : list history_File)
  (modFiles : gmap string FileStats) :
  map_Forall (λ _, counts_a_change) modFiles →
  map_Forall (λ _, counts_a_change) (foldl (loadFile allFiles) modFiles files).
Proof.
  revert modFiles. induction files as [|file rest IH]; intros modFiles H;
    [done|].
  simpl. apply IH. rewrite loadFile_entry.
  destruct (fileEntry allFiles file) as [stats|] eqn:E; [|done].
  apply map_Forall_insert_2; [|done]. by eapply fileEntry_counts.
Qed.

Lemma loadModifiedFiles_ok (m : sidebarCmp) :
  sidebar_ok m → sidebar_ok (loadModifiedFiles m).
Proof.
  intros Hok. unfold loadModifiedFiles.
  destruct (sb_history m) as [history|] eqn:Hh; [|done].
  destruct (String.eqb (sess_ID (sb_session m)) ""); [done|].
  destruct (ListLatestSessionFiles history _) as [latestFiles|]; [|done].
  destruct (ListBySession history _) as [allFiles|]; [|done].
  split; [simpl; by rewrite Hh|].
  eexists. split; [done|].
  apply foldl_loadFile_counts, map_Forall_empty.
Qed.

Lemma processFileChanges_ok (m : sidebarCmp) (file : history_File) :
  sidebar_ok m →
  ∃ m', processFileChanges m file = Returns m' ∧ sidebar_ok m'.
Proof.
  intros Hok. pose proof Hok as [[history Hh] (modFiles & Hm & Hall)].
  unfold processFileChanges.
  destruct (String.eqb (Version file) history_InitialVersion);
    [by exists m|].
  rewrite Hh.
  destruct (findInitialVersion history _ _) as [initialVersion|];
    [|by exists m].
  destruct (String.eqb (ID initialVersion) ""); [by exists m|].
  assert (Hdelete : sidebar_ok
                      (modFiles_delete (getDisplayPath (Path file)) m)).
  { split; [simpl; by rewrite Hh|].
    exists (delete (getDisplayPath (Path file)) modFiles).
    split; [simpl; by rewrite Hm|]. by apply map_Forall_delete. }
  destruct (String.eqb (Content initialVersion) (Content file));
    [by eexists|].
  destruct (diff_GenerateDiff _ _ _) as [[text additions] removals].
  destruct ((0 <? additions) || (0 <? removals)) eqn:Hsome; [|by eexists].
  unfold modFiles_assign. rewrite Hm. eexists. split; [done|].
  split; [simpl; by rewrite Hh|].
  eexists. split; [done|].
  apply map_Forall_insert_2; [|done].
  unfold counts_a_change. simpl.
  apply orb_true_iff in Hsome as [H|H]; apply Z.ltb_lt in H; lia.
Qed.

Lemma answering_ok (history : history_Service) (m : sidebarCmp) :
  sidebar_ok m → sidebar_ok (answering history m).
Proof.
  intros [[h Hh] Hm]. split; [|done]. simpl. by rewrite Hh.
Qed.

Lemma sidebar_Update_ok (m : sidebarCmp) (msg : sidebarMsg) :
  sidebar_ok m → ∃ m', sidebar_Update m msg = Returns m' ∧ sidebar_ok m'.
Proof.
  intros Hok. destruct msg as [session|type payload|type payload|]; simpl.
  - destruct (negb _); [|by exists m].
    eexists. split; [done|]. by apply loadModifiedFiles_ok.
  - destruct type; try by exists m.
    destruct (String.eqb _ _); [|by exists m]. by eexists.
  - destruct (String.eqb _ _); [|by exists m].
    by apply processFileChanges_ok.
  - by exists m.
Qed.

(** X27: once [Init] ran on a sidebar that has a history service, no
    message makes [Update] panic, whatever the history service answers,
    and every file the sidebar lists counts at least one added or removed
    line. *)
Theorem X27_sidebar_lists_only_changed_files
  (session : Session) (history : history_Service)
  (messages : list (history_Service * sidebarMsg)) :
  ∃ m modFiles,
    sidebar_run (sidebar_Init (NewSidebarCmp session (Some history))) messages
    = Returns m
    ∧ sb_modFiles m = Some modFiles
    ∧ ∀ displayPath stats,
        modFiles !! displayPath = Some stats →
        0 < stat_additions stats ∨ 0 < stat_removals stats.
Proof.
  assert (Hinit : sidebar_ok
                    (sidebar_Init (NewSidebarCmp session (Some history)))).
  { unfold sidebar_Init. simpl. apply loadModifiedFiles_ok.
    split; [by eexists|]. exists ∅. split; [done | apply map_Forall_empty]. }
  revert Hinit.
  generalize (sidebar_Init (NewSidebarCmp session (Some history))) as m0.
  induction messages as [|[h msg] rest IH]; intros m0 Hok.
  - destruct Hok as [_ (modFiles & Hm & Hall)].
    exists m0, modFiles. split_and!; [done | done |].
    intros displayPath stats Hlookup.
    exact (map_Forall_lookup_1 _ _ _ _ Hall Hlookup).
  - simpl.
    destruct (sidebar_Update_ok (answering h m0) msg (answering_ok h m0 Hok))
      as (m' & -> & Hok').
    by apply IH.
Qed.


Lemma foldl_loadFile_insert (allFiles files : list history_File)
  (modFiles : gmap string FileStats) (key : string) (stats : FileStats) :
  key ∉ map (λ f, getDisplayPath (Path f)) files →
  foldl (loadFile allFiles) (<[key := stats]> modFiles) files
  = <[key := stats]> (foldl (loadFile allFiles) modFiles files).
Proof.
  revert modFiles. induction files as [|file rest IH]; intros modFiles Hkey;
    [done|].
  simpl in *. apply not_elem_of_cons in Hkey as [Hne Hrest].
  rewrite <- (IH _ Hrest). f_equal. rewrite !loadFile_entry.
  destruct (fileEntry allFiles file); [|done].
  by rewrite insert_insert_ne.
Qed.

Lemma foldl_loadFile_fresh (allFiles files : list history_File)
  (modFiles : gmap string FileStats) (key : string) :
  modFiles !! key = None →
  key ∉ map (λ f, getDisplayPath (Path f)) files →
  foldl (loadFile allFiles) modFiles files !! key = None.
Proof.
  revert modFiles. induction files as [|file rest IH];
    intros modFiles Hnone Hkey; [done|].
  simpl in *. apply not_elem_of_cons in Hkey as [Hne Hrest].
  apply IH; [|done]. rewrite loadFile_entry.
  destruct (fileEntry allFiles file); [|done].
  by rewrite lookup_insert_ne.
Qed.

Lemma foldl_loadFile_move (allFiles before after : list history_File)
  (file : history_File) (modFiles : gmap string FileStats) :
  getDisplayPath (Path file) ∉ map (λ f, getDisplayPath (Path f)) after →
  foldl (loadFile allFiles) modFiles (before ++ file :: after)
  = loadFile allFiles (foldl (loadFile allFiles) modFiles (before ++ after))
      file.
Proof.
  intros Hkey. rewrite !foldl_app. simpl.
  rewrite !(loadFile_entry _ _ file).
  destruct (fileEntry allFiles file); [|done].
  by apply foldl_loadFile_insert.
Qed.

Lemma foldl_loadFile_ext (allFiles0 allFiles files : list history_File)
  (modFiles : gmap string FileStats) :
  (∀ f, f ∈ files →
        initialVersionOf allFiles0 (Path f) = initialVersionOf allFiles (Path f)) →
  foldl (loadFile allFiles0) modFiles files
  = foldl (loadFile allFiles) modFiles files.
Proof.
  revert modFiles. induction files as [|file rest IH]; intros modFiles Hsame;
    [done|].
  simpl. rewrite IH by (intros f Hf; apply Hsame; by right).
  f_equal. unfold loadFile. by rewrite (Hsame file) by left.
Qed.

Lemma processFileChanges_untracked (m : sidebarCmp)
  (history : history_Service) (allFiles : list history_File)
  (file : history_File) :
  sb_history m = Some history →
  ListBySession history (sess_ID (sb_session m)) = Ok allFiles →
  tracked allFiles file = false →
  processFileChanges m file = Returns m.
Proof.
  intros Hh Hall. unfold tracked, processFileChanges, findInitialVersion.
  destruct (String.eqb (Version file) history_InitialVersion); [done|].
  rewrite Hh, Hall.
  destruct (initialVersionOf allFiles (Path file)) as [v|]; simpl; [|done].
  by destruct (String.eqb (ID v) "").
Qed.

Lemma processFileChanges_tracked (m : sidebarCmp)
  (history : history_Service) (allFiles : list history_File)
  (file : history_File) (modFiles : gmap string FileStats) :
  sb_history m = Some history →
  ListBySession history (sess_ID (sb_session m)) = Ok allFiles →
  sb_modFiles m = Some modFiles →
  tracked allFiles file = true →
  processFileChanges m file
  = Returns
      (set_modFiles
         (Some match fileEntry allFiles file with
               | Some stats => <[getDisplayPath (Path file) := stats]> modFiles
               | None => delete (getDisplayPath (Path file)) modFiles
               end) m).
Proof.
  intros Hh Hall Hm.
  unfold tracked, processFileChanges, findInitialVersion, fileEntry, loadFile,
    modFiles_assign, modFiles_delete.
  destruct (String.eqb (Version file) history_InitialVersion); [done|].
  rewrite Hh, Hall, Hm.
  destruct (initialVersionOf allFiles (Path file)) as [v|]; simpl; [|done].
  destruct (String.eqb (ID v) ""); [done|]. intros _.
  destruct (String.eqb (Content v) (Content file)); [done|].
  destruct (diff_GenerateDiff _ _ _) as [[text additions] removals].
  destruct ((0 <? additions) || (0 <? removals)); [|done].
  unfold getDisplayPath. by rewrite lookup_insert_eq.
Qed.

(** X28: handling the event of a file's new version gives the sidebar
    that reloading the session would give. The sidebar was loaded when
    the latest files were [latest1 ++ old ++ latest2]; the new version
    [file] is the first of its path ([old] empty) or replaces the
    version [previous] of the same path, and is then a version the
    sidebar can compare. The display paths of the latest files are
    different, and the files that did not change have the initial
    versions they had. *)
Theorem X28_file_event_agrees_with_reload
  (m : sidebarCmp) (earlier now : history_Service)
  (allFiles0 allFiles latest1 old latest2 : list history_File)
  (file : history_File) :
  sb_history m = Some earlier →
  sess_ID (sb_session m) ≠ "" →
  ListLatestSessionFiles earlier (sess_ID (sb_session m))
  = Ok (latest1 ++ old ++ latest2) →
  ListBySession earlier (sess_ID (sb_session m)) = Ok allFiles0 →
  ListLatestSessionFiles now (sess_ID (sb_session m))
  = Ok (latest1 ++ file :: latest2) →
  ListBySession now (sess_ID (sb_session m)) = Ok allFiles →
  (∀ f, f ∈ latest1 ++ latest2 →
        initialVersionOf allFiles0 (Path f)
        = initialVersionOf allFiles (Path f)) →
  NoDup (map (λ f, getDisplayPath (Path f)) (latest1 ++ file :: latest2)) →
  (old = []
   ∨ ∃ previous, old = [previous] ∧ Path previous = Path file
                 ∧ tracked allFiles file = true) →
  processFileChanges (answering now (loadModifiedFiles m)) file
  = Returns (loadModifiedFiles (answering now m)).
Proof.
  intros Hh Hid Hlatest0 Hall0 Hlatest Hall Hsame Hnd Hold.
  apply String.eqb_neq in Hid.
  destruct m as [width height session history modFiles0].
  simpl in *. subst history.
  unfold loadModifiedFiles at 2. simpl. rewrite Hid, Hlatest, Hall.
  unfold loadModifiedFiles. simpl. rewrite Hid, Hlatest0, Hall0.
  unfold answering, set_modFiles. simpl.
  (* the key of [file] occurs nowhere else *)
  rewrite map_app in Hnd. simpl in Hnd.
  apply NoDup_app in Hnd as (Hnd1 & Hcross & Hnd2).
  apply NoDup_cons in Hnd2 as [Hafter Hnd2].
  assert (Hbefore : getDisplayPath (Path file)
                    ∉ map (λ f, getDisplayPath (Path f)) latest1).
  { intros Hin. apply (Hcross _ Hin). left. }
  assert (Hfresh : foldl (loadFile allFiles) ∅ (latest1 ++ latest2)
                   !! getDisplayPath (Path file) = None).
  { apply foldl_loadFile_fresh; [done|]. rewrite map_app.
    intros Hin. apply elem_of_app in Hin as [Hin|Hin]; done. }
  rewrite (foldl_loadFile_move allFiles latest1 latest2 file ∅ Hafter).
  set (rest := foldl (loadFile allFiles) ∅ (latest1 ++ latest2)) in *.
  destruct Hold as [->|(previous & -> & Hpath & Htracked)].
  - (* the first version of the path *)
    simpl. rewrite (foldl_loadFile_ext allFiles0 allFiles _ _ Hsame).
    fold rest.
    destruct (tracked allFiles file) eqn:Htracked.
    + rewrite (processFileChanges_tracked _ now allFiles file rest)
        by done.
      unfold set_modFiles. simpl. rewrite loadFile_entry.
      destruct (fileEntry allFiles file); [done|]. by rewrite delete_id.
    + rewrite (processFileChanges_untracked _ now allFiles file) by done.
      by rewrite loadFile_entry, (fileEntry_untracked _ _ Htracked).
  - (* a later version of the path *)
    assert (Hafter0 : getDisplayPath (Path previous)
                      ∉ map (λ f, getDisplayPath (Path f)) latest2)
      by (by rewrite Hpath).
    change (latest1 ++ [previous] ++ latest2)
      with (latest1 ++ previous :: latest2).
    rewrite (foldl_loadFile_move allFiles0 latest1 latest2 previous ∅ Hafter0).
    rewrite (foldl_loadFile_ext allFiles0 allFiles _ _ Hsame). fold rest.
    rewrite (processFileChanges_tracked _ now allFiles file
               (loadFile allFiles0 rest previous)) by done.
    unfold set_modFiles. simpl.
    rewrite !loadFile_entry, Hpath.
    destruct (fileEntry allFiles file) as [stats|];
      destruct (fileEntry allFiles0 previous) as [stats0|].
    + by rewrite insert_insert_eq.
    + done.
    + by rewrite delete_insert_eq, delete_id.
    + by rewrite delete_id.
Qed.


Lemma TrimPrefix_app (prefix t : string) :
  strings_TrimPrefix (prefix +:+ t) prefix = t.
Proof.
  unfold strings_TrimPrefix. by rewrite prefix_app, drop_app_length.
Qed.

Lemma removeWorkingDirectoryPrefix_longer (c : Ascii.ascii) (rest : string) :
  removeWorkingDirectoryPrefix (WorkingDirectory +:+ String c rest) = rest.
Proof.
  unfold removeWorkingDirectoryPrefix, strings.len, strings.slice_to,
    strings.slice_from.
  rewrite app_length. simpl.
  replace (Z.of_nat (String.length WorkingDirectory)
           <? Z.of_nat (String.length WorkingDirectory + S (String.length rest)))
    with true by (symmetry; apply Z.ltb_lt; lia).
  rewrite Nat2Z.id, take_app_length, String.eqb_refl. simpl.
  replace (Z.to_nat (Z.of_nat (String.length WorkingDirectory) + 1))
    with (String.length WorkingDirectory + 1)%nat by lia.
  by rewrite <- drop_drop, drop_app_length.
Qed.

(** X29: on a path made of the working directory, one byte [c] and a rest,
    the tools' [removeWorkingDirectoryPrefix] gives the rest whatever the
    byte is, while the sidebar's [getDisplayPath] gives the rest when the
    byte is the separator and keeps the byte otherwise; so the tools and
    the sidebar name such a file alike exactly when the byte is the
    separator. *)
Theorem X29_display_path_and_relative_path
  (c : Ascii.ascii) (rest : string) :
  let filePath := WorkingDirectory +:+ String c rest in
  removeWorkingDirectoryPrefix filePath = rest
  ∧ getDisplayPath filePath
    = (if Ascii.eqb c Separator then rest else String c rest)
  ∧ (getDisplayPath filePath = removeWorkingDirectoryPrefix filePath
     ↔ c = Separator).
Proof.
  intros filePath.
  assert (Hdisplay : getDisplayPath filePath
                     = if Ascii.eqb c Separator then rest else String c rest).
  { unfold filePath, getDisplayPath. rewrite TrimPrefix_app.
    unfold strings_TrimPrefix, SeparatorString.
    cbn [strings.HasPrefix String.length strings.drop].
    rewrite (Ascii.eqb_sym Separator c).
    by destruct (Ascii.eqb c Separator). }
  split_and!.
  - apply removeWorkingDirectoryPrefix_longer.
  - exact Hdisplay.
  - rewrite Hdisplay. unfold filePath.
    rewrite removeWorkingDirectoryPrefix_longer.
    destruct (Ascii.eqb_spec c Separator) as [->|Hne]; [done|].
    split; [|done]. intros H.
    apply (f_equal String.length) in H. simpl in H. lia.
Qed.

End Termai.

Arguments Returns {A} a.
Arguments Panics {A}.

(** ** The theorems at concrete inputs *)

Ltac evaluate :=
  vm_compute;
  first [ reflexivity | discriminate | lia
        | intros; reflexivity | intros; discriminate ].

Local Abbreviation edit_with permission :=
  (edit_Run "/wd" example_IsAbs example_Join example_Dir example_Format
     example_Diff permission example_diagnostics).

Local Abbreviation write_with permission :=
  (write_Run "/wd" example_IsAbs example_Join example_Dir example_Format
     example_Diff permission example_diagnostics).

(** Replacing "world" by "there" in a file that was read, with permission
    granted. *)
Lemma C1_witness :
  ∃ pre post,
    "hello world" = pre +:+ "world" +:+ post
    ∧ run_failed
        (edit_with example_grant example_env
           (Some {| FilePath := "hello.txt"; OldString := "world";
                    NewString := "there" |}) world_read).1 = false
    ∧ file_content
        (edit_with example_grant example_env
           (Some {| FilePath := "hello.txt"; OldString := "world";
                    NewString := "there" |}) world_read).2
        example_path
      = Some (pre +:+ "there" +:+ post).
Proof.
  exact (proj1
           (C1_edit_single_occurrence "/wd" example_IsAbs example_Join
              example_Dir example_Format example_Diff example_grant
              example_diagnostics example_env
              {| FilePath := "hello.txt"; OldString := "world";
                 NewString := "there" |}
              world_read "hello world" (example_time 0)
              ltac:(evaluate) ltac:(evaluate) ltac:(evaluate)
              ltac:(evaluate) ltac:(evaluate) ltac:(evaluate))
           ltac:(evaluate) ltac:(evaluate) ltac:(evaluate)
           ltac:(evaluate) ltac:(evaluate) ltac:(evaluate)).
Defined.

(** C1 as stated fails when permission is denied: the file exists, was
    read, is not stale, and "world" occurs once in it, yet the run fails
    and the file keeps its content. *)
Lemma C1_counterexample :
  let params := {| FilePath := "hello.txt"; OldString := "world";
                   NewString := "there" |} in
  let run := edit_with example_deny example_env (Some params) world_read in
  file_content world_read example_path = Some "hello world"
  ∧ time.IsZero (getLastReadTime example_path world_read) = false
  ∧ time.After (example_time 0) (getLastReadTime example_path world_read)
    = false
  ∧ strings.occurrences "hello world" "world" = 1%nat
  ∧ run_failed run.1 = true
  ∧ run_message run.1 = "error replacing content: permission denied"
  ∧ file_content run.2 example_path = Some "hello world".
Proof. vm_compute. repeat split. Qed.

(** A stale file: written to, edited and deleted from. *)
Lemma C2_witness :
  let stale (run : result ToolResponse * World) : Prop :=
    run_failed run.1 = true
    ∧ strings.Contains (run_message run.1) "2025-04-01T00:00:30Z" = true
    ∧ strings.Contains (run_message run.1) "2025-04-01T00:00:05Z" = true
    ∧ strings.Contains (run_message run.1)
        "has been modified since it was last read" = true
    ∧ run.2 = world_stale in
  stale (write_with example_grant example_env
           (Ok {| write_FilePath := example_path; write_Content := "hi" |})
           world_stale)
  ∧ stale (edit_with example_grant example_env
             (Some {| FilePath := example_path; OldString := "world";
                      NewString := "there" |}) world_stale)
  ∧ stale (edit_with example_grant example_env
             (Some {| FilePath := example_path; OldString := "world";
                      NewString := "" |}) world_stale).
Proof.
  pose proof (C2_stale_file_is_refused "/wd" example_IsAbs example_Join
                example_Dir example_Format example_Diff example_grant
                example_diagnostics example_diagnostics example_env
                world_stale example_path "hello world" (example_time 30) None
                ltac:(evaluate) ltac:(evaluate) ltac:(evaluate))
    as [Hwrite Hedit].
  split; [exact (Hwrite "hi" ltac:(evaluate))|].
  split.
  - exact (Hedit "world" "there" ltac:(evaluate) ltac:(evaluate)).
  - exact (Hedit "world" "" ltac:(evaluate) ltac:(evaluate)).
Defined.

(** C2 as stated fails for a write with empty content: the file is stale,
    but the run fails with "content is required", which contains neither
    time. *)
Lemma C2_counterexample :
  let run := write_with example_grant example_env
               (Ok {| write_FilePath := example_path; write_Content := "" |})
               world_stale in
  os_Stat world_stale example_path
    = StatOk {| IsDir := false; ModTime := example_time 30 |}
  ∧ getLastReadTime example_path world_stale = example_time 5
  ∧ time.After (example_time 30) (example_time 5) = true
  ∧ run_failed run.1 = true
  ∧ run_message run.1 = "content is required"
  ∧ strings.Contains (run_message run.1)
      (example_Format (example_time 30)) = false
  ∧ strings.Contains (run_message run.1)
      (example_Format (example_time 5)) = false.
Proof. vm_compute. repeat split. Qed.

(** A file that was not read: edited, deleted from and overwritten. *)
Lemma C3_witness :
  (run_message
     (edit_with example_grant example_env
        (Some {| FilePath := example_path; OldString := "world";
                 NewString := "there" |}) world_unread).1
   = "error replacing content: " +:+ mustReadMessage
   ∨ run_message
       (edit_with example_grant example_env
          (Some {| FilePath := example_path; OldString := "world";
                   NewString := "there" |}) world_unread).1
     = "error deleting content: " +:+ mustReadMessage)
  ∧ (edit_with example_grant example_env
       (Some {| FilePath := example_path; OldString := "world";
                NewString := "there" |}) world_unread).2 = world_unread
  ∧ strings.Contains
      (run_message
         (write_with example_grant example_env
            (Ok {| write_FilePath := example_path; write_Content := "hi" |})
            world_unread).1)
      "has been modified since it was last read" = true
  ∧ (write_with example_grant example_env
       (Ok {| write_FilePath := example_path; write_Content := "hi" |})
       world_unread).2 = world_unread.
Proof.
  pose proof (C3_unread_file_is_refused "/wd" example_IsAbs example_Join
                example_Dir example_Format example_Diff example_grant
                example_diagnostics example_diagnostics example_env
                world_unread example_path "hello world" (example_time 0) None
                ltac:(evaluate) ltac:(evaluate) ltac:(evaluate))
    as [Hedit Hwrite].
  destruct (Hedit "world" "there" ltac:(evaluate)) as (_ & Hmsg & _ & Hsame).
  destruct (Hwrite "hi" ltac:(evaluate) ltac:(evaluate)) as (_ & Hstale & Hsame').
  exact (conj Hmsg (conj Hsame (conj Hstale Hsame'))).
Defined.

(** C3 as stated fails on the text of the message: the edit of an unread
    file fails with "you must read the file before editing it. Use the
    View tool first", and the overwrite with the message that the file was
    modified; neither contains "must read before editing". *)
Lemma C3_counterexample :
  let edit := edit_with example_grant example_env
                (Some {| FilePath := example_path; OldString := "world";
                         NewString := "there" |}) world_unread in
  let write := write_with example_grant example_env
                 (Ok {| write_FilePath := example_path;
                        write_Content := "hi" |}) world_unread in
  getLastReadTime example_path world_unread = 0
  ∧ run_failed edit.1 = true
  ∧ run_message edit.1
    = "error replacing content: you must read the file before editing it. Use the View tool first"
  ∧ strings.Contains (run_message edit.1) "must read before editing" = false
  ∧ run_failed write.1 = true
  ∧ strings.Contains (run_message write.1) "must read before editing" = false.
Proof. vm_compute. repeat split. Qed.

(** Writing "hello world" over a file that holds it, after a read. *)
Lemma C7_witness :
  run_failed
    (write_with example_grant example_env
       (Ok {| write_FilePath := example_path;
              write_Content := "hello world" |}) world_read).1 = true
  ∧ (write_with example_grant example_env
       (Ok {| write_FilePath := example_path;
              write_Content := "hello world" |}) world_read).2 = world_read
  ∧ strings.Contains
      (run_message
         (write_with example_grant example_env
            (Ok {| write_FilePath := example_path;
                   write_Content := "hello world" |}) world_read).1)
      "already contains the exact content" = true.
Proof.
  destruct (C7_identical_write_is_refused "/wd" example_IsAbs example_Join
              example_Dir example_Format example_Diff example_grant example_diagnostics
              example_env
              {| write_FilePath := example_path;
                 write_Content := "hello world" |}
              world_read (example_time 0) ltac:(evaluate))
    as (Hfail & Hsame & Hmsg).
  exact (conj Hfail
           (conj Hsame
              (Hmsg ltac:(evaluate) ltac:(evaluate) ltac:(evaluate)))).
Defined.

(** C7 as stated fails when the file was not read (or is stale): the
    identical write is refused with the staleness message, not with
    "already contains the exact content". *)
Lemma C7_counterexample :
  let run := write_with example_grant example_env
               (Ok {| write_FilePath := example_path;
                      write_Content := "hello world" |}) world_unread in
  file_content world_unread example_path = Some "hello world"
  ∧ run_failed run.1 = true
  ∧ strings.Contains (run_message run.1)
      "has been modified since it was last read" = true
  ∧ strings.Contains (run_message run.1)
      "already contains the exact content" = false.
Proof. vm_compute. repeat split. Qed.

(** An edit after a successful edit of the same file. *)
Lemma C10_witness :
  let run := edit_with example_grant example_env
               (Some {| FilePath := example_path; OldString := "world";
                        NewString := "there" |}) world_read in
  time.IsZero (getLastReadTime example_path run.2) = false
  ∧ (replaceContent "/wd" example_Dir example_Format example_Diff
       example_grant example_env example_path "there" "world" run.2).1
    ≠ Err mustReadMessage.
Proof.
  intros run.
  assert (Hpath : example_path
                  = absPath "/wd" example_IsAbs example_Join example_path)
    by evaluate.
  assert (Hok : run_failed run.1 = false) by evaluate.
  pose proof (C10_mutation_records_write_then_read "/wd" example_IsAbs
                example_Join example_Dir example_Format example_Diff
                example_grant example_diagnostics example_diagnostics
                example_env world_read example_path run
                (or_introl
                   (ex_intro _
                      {| FilePath := example_path; OldString := "world";
                         NewString := "there" |}
                      (conj Hpath eq_refl)))
                Hok) as H.
  exact (conj (proj1 (proj2 H))
           (proj1 (proj2 (proj2 H) example_env "there" "world"))).
Defined.



(** Three calls whose tasks finish in the order 2, 0, 1. *)
Lemma C5_witness :
  ∃ request w' m,
    dispatchToolCalls string example_tools None "session-1" example_calls
      [2; 0; 1]%nat world_read example_app []
    = (Ok request, w',
       {| Messages := Messages example_app ++ [m];
          Sessions := Sessions example_app |})
    ∧ Role m = Tool
    ∧ length (ToolResults m) = length example_calls
    ∧ ∀ i toolCall, example_calls !! i = Some toolCall →
        ∃ r, ToolResults m !! i = Some r ∧ ToolCallID r = tc_ID toolCall.
Proof.
  apply (C5_tool_results_keep_call_order string example_tools "session-1"
           example_calls [2; 0; 1]%nat world_read example_app []).
  unfold complete_schedule. simpl.
  apply (Permutation_cons_app [0; 1]%nat []). reflexivity.
Defined.

(** Three user messages, cache enabled. *)
Lemma C8_witness :
  hints_on_earliest
    (cacheHints string
       (convertMessages string example_Unmarshal
          {| useBedrock := false; disableCache := false |}
          [user_message "a"; user_message "b"; user_message "c"])).
Proof.
  exact (proj1 (proj2
           (C8_cache_hints_on_earliest_blocks string example_Unmarshal
              {| useBedrock := false; disableCache := false |}
              [user_message "a"; user_message "b"; user_message "c"]))
           ltac:(evaluate)).
Defined.

(** C8 as stated fails on which blocks are hinted: of three user messages
    the two oldest carry the hint and the most recent one does not. *)
Lemma C8_counterexample :
  let hints :=
    cacheHints string
      (convertMessages string example_Unmarshal
         {| useBedrock := false; disableCache := false |}
         [user_message "a"; user_message "b"; user_message "c"]) in
  hints = [true; true; false] ∧ ¬ hints_on_most_recent hints.
Proof. split; [reflexivity|]. intros H. vm_compute in H. discriminate H. Qed.

(** The first message of a session, and a failing provider. *)
Lemma C9_witness :
  NewMessage_launch {| Messages := []; Sessions := Sessions example_app |}
    "session-1" "make hello.txt containing hi"
  = [TitleGeneration 30 "session-1" "make hello.txt containing hi"]
  ∧ NewMessage_launch example_app "session-1" "now add a newline" = []
  ∧ runDetached string (λ _, inr (APIError 529 [])) "claude-3.7-sonnet" None
      (TitleGeneration 30 "session-1" "make hello.txt containing hi")
      example_app
    = (example_app, ["failed to generate session title"]).
Proof.
  destruct (C9_title_job string
              {| Messages := []; Sessions := Sessions example_app |}
              "session-1" "make hello.txt containing hi" "claude-3.7-sonnet"
              (λ _, inr (APIError 529 [])) None) as (Hfirst & _).
  destruct (C9_title_job string example_app "session-1" "now add a newline"
              "claude-3.7-sonnet" (λ _, inr (APIError 529 [])) None)
    as (_ & Hlater & _).
  destruct (C9_title_job string example_app "session-1"
              "make hello.txt containing hi" "claude-3.7-sonnet"
              (λ _, inr (APIError 529 [])) None)
    as (_ & _ & _ & Hfail & _).
  exact (conj (Hfirst ltac:(evaluate))
           (conj (Hlater ltac:(evaluate))
              (Hfail 30 (APIError 529 []) ltac:(reflexivity)))).
Defined.

(** C9 as stated fails on a session that has no title but already has a
    message: no title task is started; and the model asked is the one
    configured as [models.big]. *)
Lemma C9_counterexample :
  Title <$> (Sessions example_app !! "session-1") = Some ""
  ∧ NewMessage_launch example_app "session-1" "now add a newline" = []
  ∧ mnp_Model string (titleRequest string "claude-3.7-sonnet" "hi")
    = "claude-3-7-sonnet-latest".
Proof. vm_compute. repeat split. Qed.

(** ** The further properties at concrete inputs *)

Ltac all_retryable :=
  repeat (apply Forall_cons; split;
          [ eexists _, _; split_and!;
            [ reflexivity
            | first [left; reflexivity | right; reflexivity]
            | reflexivity ]
          | ]);
  by apply Forall_nil.


(** An edit that is refused permission. *)
Lemma X2_witness :
  let run := edit_with example_deny example_env
               (Some {| FilePath := example_path; OldString := "world";
                        NewString := "there" |}) world_read in
  fileRecords run.2 = fileRecords world_read
  ∧ same_files world_read run.2.
Proof.
  intros run.
  assert (Hfailed : run_failed run.1 = true) by evaluate.
  destruct (proj1 (X2_failed_run_records_nothing "/wd" example_IsAbs
                     example_Join example_Dir example_Format example_Diff
                     example_deny example_diagnostics example_diagnostics
                     example_env world_read)
              {| FilePath := example_path; OldString := "world";
                 NewString := "there" |} Hfailed)
    as (Hrecords & Hfiles).
  exact (conj Hrecords (Hfiles (or_introl eq_refl))).
Defined.

(** A write into an empty file system that is refused permission: no file
    is made, but the directory [/wd] is. *)
Lemma X3_witness :
  let run := write_with example_deny example_env
               (Ok {| write_FilePath := example_path; write_Content := "hi" |})
               world_fresh in
  run_failed run.1 = true
  ∧ fileRecords run.2 = fileRecords world_fresh
  ∧ same_files world_fresh run.2
  ∧ is_Some (fs run.2 !! "/wd").
Proof.
  intros run.
  assert (Hdeny : ∀ req, example_deny req = false) by evaluate.
  destruct (proj2 (X3_no_mutation_without_permission "/wd" example_IsAbs
                     example_Join example_Dir example_Format example_Diff
                     example_deny example_diagnostics example_diagnostics
                     example_env world_fresh Hdeny)
              {| write_FilePath := example_path; write_Content := "hi" |})
    as (Hfailed & Hrecords & Hfiles & Hdirs).
  split_and!; [exact Hfailed | exact Hrecords | exact Hfiles |].
  apply Hdirs; [discriminate | discriminate | reflexivity | reflexivity |].
  vm_compute. by left.
Defined.

(** Cutting " world" out of "hello world". *)
Lemma X4_witness :
  ∃ pre post,
    "hello world" = pre +:+ " world" +:+ post
    ∧ run_failed
        (edit_with example_grant example_env
           (Some {| FilePath := example_path; OldString := " world";
                    NewString := "" |}) world_read).1 = false
    ∧ file_content
        (edit_with example_grant example_env
           (Some {| FilePath := example_path; OldString := " world";
                    NewString := "" |}) world_read).2
        (absPath "/wd" example_IsAbs example_Join example_path)
      = Some (pre +:+ post).
Proof.
  exact (X4_delete_cuts_the_single_occurrence "/wd" example_IsAbs
           example_Join example_Dir example_Format example_Diff example_grant
           example_diagnostics example_env world_read example_path " world"
           "hello world" (example_time 0)
           ltac:(evaluate) ltac:(evaluate) ltac:(evaluate) ltac:(evaluate)
           ltac:(evaluate) ltac:(evaluate) ltac:(evaluate) ltac:(evaluate)
           ltac:(evaluate) ltac:(evaluate) ltac:(evaluate)).
Defined.

(** Creating [hello.txt] where nothing exists, and where it exists. *)
Lemma X5_witness :
  (run_failed
     (edit_with example_grant example_env
        (Some {| FilePath := example_path; OldString := "";
                 NewString := "hi" |}) world_fresh).1 = false
   ∧ file_content
       (edit_with example_grant example_env
          (Some {| FilePath := example_path; OldString := "";
                   NewString := "hi" |}) world_fresh).2
       (absPath "/wd" example_IsAbs example_Join example_path) = Some "hi")
  ∧ run_failed
      (edit_with example_grant example_env
         (Some {| FilePath := example_path; OldString := "";
                  NewString := "hi" |}) world_read).1 = true.
Proof.
  split.
  - exact (proj2 (X5_creation_mode "/wd" example_IsAbs example_Join
                    example_Dir example_Format example_Diff example_grant
                    example_diagnostics example_env world_fresh example_path
                    "hi" ltac:(evaluate))
             ltac:(evaluate) ltac:(evaluate) ltac:(evaluate) ltac:(evaluate)
             ltac:(evaluate) ltac:(evaluate) ltac:(evaluate)).
  - exact (proj1 (proj1 (X5_creation_mode "/wd" example_IsAbs example_Join
                           example_Dir example_Format example_Diff
                           example_grant example_diagnostics example_env
                           world_read example_path "hi" ltac:(evaluate))
                    (RegularFile "hello world" (example_time 0) None)
                    ltac:(evaluate))).
Defined.

Lemma X6_witness :
  run_failed
    (write_with example_grant example_env
       (Ok {| write_FilePath := example_path; write_Content := "hi" |})
       world_fresh).1 = false
  ∧ file_content
      (write_with example_grant example_env
         (Ok {| write_FilePath := example_path; write_Content := "hi" |})
         world_fresh).2
      (absPath "/wd" example_IsAbs example_Join example_path) = Some "hi".
Proof.
  exact (X6_write_creates_without_read "/wd" example_IsAbs example_Join
           example_Dir example_Format example_Diff example_grant example_diagnostics
           example_env
           {| write_FilePath := example_path; write_Content := "hi" |}
           world_fresh
           ltac:(evaluate) ltac:(evaluate) ltac:(evaluate) ltac:(evaluate)
           ltac:(evaluate) ltac:(evaluate) ltac:(evaluate) ltac:(evaluate)
           ltac:(evaluate)).
Defined.

(** Writing "hi" to a new file, twice. *)
Lemma X7_witness :
  let first := write_with example_grant example_env_synced
                 (Ok {| write_FilePath := example_path;
                        write_Content := "hi" |}) world_fresh in
  let second := write_with example_grant example_env_synced
                  (Ok {| write_FilePath := example_path;
                         write_Content := "hi" |}) first.2 in
  run_failed second.1 = true
  ∧ strings.Contains (run_message second.1)
      "already contains the exact content" = true
  ∧ second.2 = first.2.
Proof.
  exact (X7_second_identical_write_is_refused "/wd" example_IsAbs
           example_Join example_Dir example_Format example_Diff example_grant
           example_diagnostics example_env_synced example_env_synced
           {| write_FilePath := example_path; write_Content := "hi" |}
           world_fresh ltac:(evaluate) ltac:(evaluate) ltac:(evaluate)).
Defined.

(** A path that was only written counts as unread. *)
Lemma X8_witness :
  time.IsZero
    (getLastReadTime example_path (recordFileWrite example_path world_unread))
  = true.
Proof.
  destruct (X8_file_records example_path world_unread)
    as (_ & _ & _ & _ & Hunread).
  exact (Hunread ltac:(evaluate)).
Defined.

Lemma X9_witness :
  removeWorkingDirectoryPrefix "/wd" "/wd/hello.txt" = "hello.txt"
  ∧ removeWorkingDirectoryPrefix "/wd" "/tmp/hello.txt" = "/tmp/hello.txt".
Proof.
  split.
  - assert (H : "/wd/hello.txt"
                = "/wd" +:+ String (Ascii.ascii_of_nat 47) "hello.txt")
      by evaluate.
    exact (proj1 (X9_removeWorkingDirectoryPrefix "/wd" "/wd/hello.txt")
             (Ascii.ascii_of_nat 47) "hello.txt" H).
  - assert (H : strings.HasPrefix "/tmp/hello.txt" "/wd" = false)
      by evaluate.
    exact (proj2 (X9_removeWorkingDirectoryPrefix "/wd" "/tmp/hello.txt")
             (or_intror H)).
Defined.

(** A [Retry-After] header given as a date. *)
Lemma X10_witness :
  shouldRetry example_Sscanf 2
    (APIError 429 ["Wed, 21 Oct 2015 07:28:00 GMT"])
  = Some (true, 2400 * 2 ^ (2 - 1), None).
Proof.
  exact (X10_unreadable_retry_after_is_ignored example_Sscanf 2 429
           "Wed, 21 Oct 2015 07:28:00 GMT" []
           ltac:(left; reflexivity) ltac:(lia) ltac:(evaluate)).
Defined.

(** Nine overloaded answers. *)
Lemma X11_witness :
  (send example_Sscanf (replicate 9 round_overloaded)).1
  = Failed retriesExhausted
  ∧ length (send example_Sscanf (replicate 9 round_overloaded)).2 = 8%nat.
Proof.
  apply (X11_send_gives_up_after_eight_retries example_Sscanf
           (replicate 9 round_overloaded)).
  - simpl. all_retryable.
  - simpl. lia.
Defined.

(** Three rate-limited answers with [Retry-After: 2], then an answer. *)
Lemma X12_witness :
  (send example_Sscanf
     (replicate 3 (round_rate_limited "2") ++ round_answered :: [])).1
  = Returned {| pr_Content := textOf (am_Content example_answer);
                pr_ToolCalls := toolCalls (am_Content example_answer);
                pr_Usage := usage example_answer |}
  ∧ length (send example_Sscanf
              (replicate 3 (round_rate_limited "2") ++ round_answered :: [])).2
    = length (replicate 3 (round_rate_limited "2")).
Proof.
  assert (Hall : Forall retryable (replicate 3 (round_rate_limited "2")))
    by (simpl; all_retryable).
  assert (Hlen : (length (replicate 3 (round_rate_limited "2")) ≤ 8)%nat)
    by (simpl; lia).
  exact (X12_send_returns_first_good_answer example_Sscanf
           (replicate 3 (round_rate_limited "2")) [] round_answered
           example_answer Hall Hlen eq_refl).
Defined.

Lemma X13_witness :
  (send example_Sscanf
     ([round_overloaded] ++ round_canceled :: [round_answered])).1 = Canceled
  ∧ length (send example_Sscanf
              ([round_overloaded] ++ round_canceled :: [round_answered])).2
    = 1%nat.
Proof.
  exact (X13_send_stops_on_cancellation example_Sscanf [round_overloaded]
           [round_answered] round_canceled 429 []
           ltac:(all_retryable) ltac:(simpl; lia) eq_refl
           ltac:(left; reflexivity) eq_refl).
Defined.

(** An assistant message without text whose only tool call does not
    decode is left out of the request. *)
Lemma X14_witness :
  Forall (λ m, mp_Role string m = RoleAssistant → mp_Content string m ≠ [])
    (convertMessages string (λ _, None)
       {| useBedrock := false; disableCache := false |}
       [user_message "list the files";
        {| msg_SessionID := "session-1"; Role := Assistant; msg_Content := "";
           ToolCalls := [ {| tc_ID := "toolu_01"; tc_Name := "ls";
                             tc_Input := "{"; tc_Type := "tool_use" |} ];
           ToolResults := [] |}]).
Proof.
  exact (proj1 (proj2
           (X14_translated_request_shape string (λ _, None)
              {| useBedrock := false; disableCache := false |}
              [user_message "list the files";
               {| msg_SessionID := "session-1"; Role := Assistant;
                  msg_Content := "";
                  ToolCalls := [ {| tc_ID := "toolu_01"; tc_Name := "ls";
                                    tc_Input := "{"; tc_Type := "tool_use" |} ];
                  ToolResults := [] |}]))).
Defined.

Lemma X16_witness :
  ∃ tool,
    convertTools string {| useBedrock := false; disableCache := false |}
      [ {| info_Name := "ls"; info_Description := "list";
           info_Parameters := "{}"; info_Required := ["path"] |};
        {| info_Name := "edit"; info_Description := "edit";
           info_Parameters := "{}"; info_Required := ["file_path"] |} ]
      !! 1%nat = Some tool
    ∧ tp_Name string tool = "edit"
    ∧ tp_CacheControl string tool = true.
Proof.
  eexists. split; [reflexivity|]. split; [reflexivity|].
  exact (proj2 (proj2 (X16_cache_hint_on_last_tool string
                         {| useBedrock := false; disableCache := false |}
                         [ {| info_Name := "ls"; info_Description := "list";
                              info_Parameters := "{}";
                              info_Required := ["path"] |};
                           {| info_Name := "edit"; info_Description := "edit";
                              info_Parameters := "{}";
                              info_Required := ["file_path"] |} ])
                  1%nat _ eq_refl)
           (conj eq_refl eq_refl)).
Defined.

(** A call of [grep], registered second. *)
Lemma X18_witness :
  runToolCall example_tools
    {| tc_ID := "toolu_01"; tc_Name := "grep"; tc_Input := "{}";
       tc_Type := "tool_use" |} world_read
  = ({| ToolCallID := "toolu_01";
        tr_Content := "error running tool: pattern is required";
        tr_IsError := true |}, world_read).
Proof.
  assert (Hbefore :
    Forall (λ t, Info_Name t ≠ "grep")
      [ {| Info_Name := "ls";
           tool_Run := λ _ w, (Ok (NewTextResponse "hello.txt"), w) |} ]).
  { apply Forall_cons. split; [discriminate | by apply Forall_nil]. }
  exact (X18_first_registered_tool_runs
           [ {| Info_Name := "ls";
                tool_Run := λ _ w, (Ok (NewTextResponse "hello.txt"), w) |} ]
           []
           {| Info_Name := "grep";
              tool_Run := λ _ w, (Err "pattern is required", w) |}
           {| tc_ID := "toolu_01"; tc_Name := "grep"; tc_Input := "{}";
              tc_Type := "tool_use" |} world_read Hbefore eq_refl).
Defined.

(** The main flow adds the usage of an answer (120 and 30 tokens) while
    the title task holds the session it read: the task's save puts the
    counters back to 0. *)
Lemma X19_witness :
  let client := λ _ : MessageNewParams string,
      inl {| am_Content := [TextBlock "Hello file"];
             am_Usage := am_Usage example_answer |} in
  let between := λ app, (addUsage None "session-1" example_answer app).2 in
  let app' := (runDetached_beside string between client "claude-3.7-sonnet"
                 None
                 (TitleGeneration 30 "session-1"
                    "make hello.txt containing hi") example_app).1 in
  PromptTokens <$> (Sessions (between example_app) !! "session-1") = Some 120
  ∧ ∃ saved, Sessions app' !! "session-1" = Some saved
             ∧ Title saved = "Hello file"
             ∧ PromptTokens saved = 0.
Proof.
  intros client between app'.
  split; [reflexivity|].
  destruct (X19_title_task_saves_what_it_read string client
              "claude-3.7-sonnet" 30 "session-1"
              "make hello.txt containing hi" between example_app
              {| am_Content := [TextBlock "Hello file"];
                 am_Usage := am_Usage example_answer |}
              {| sess_ID := "session-1"; Title := "";
                 PromptTokens := 0; CompletionTokens := 0 |}
              eq_refl eq_refl eq_refl)
    as (_ & _ & saved & Hsaved & Htitle & Hprompt & _).
  exists saved. exact (conj Hsaved (conj Htitle Hprompt)).
Defined.

(** No messages: the index of the last message is out of range. *)
Lemma X20_witness :
  preparedMessages string
    {| po_APIModel := "claude-3-7-sonnet-latest"; po_maxTokens := 5000;
       po_systemMessage := "You are a coding agent." |}
    (Some (λ s, strings.Contains s "think")) [] [] = None.
Proof.
  exact (proj2 (proj1 (X20_thinking_and_temperature string
                         {| po_APIModel := "claude-3-7-sonnet-latest";
                            po_maxTokens := 5000;
                            po_systemMessage := "You are a coding agent." |}
                         (Some (λ s, strings.Contains s "think")) [] []))
           eq_refl).
Defined.

(** Replacing in a file that does not exist; writing over a directory. *)
Lemma X21_witness :
  strings.Contains
    (run_message
       (edit_with example_grant example_env
          (Some {| FilePath := example_path; OldString := "world";
                   NewString := "there" |}) world_fresh).1)
    "file not found: " = true
  ∧ strings.Contains
      (run_message
         (write_with example_grant example_env
            (Ok {| write_FilePath := example_path; write_Content := "hi" |})
            world_directory).1)
      "Path is a directory, not a file: " = true.
Proof.
  split.
  - exact (proj1 (proj2
             (proj1 (X21_missing_or_directory_target "/wd" example_IsAbs
                       example_Join example_Dir example_Format example_Diff
                       example_grant example_diagnostics example_diagnostics
                       example_env world_fresh example_path ltac:(evaluate))
                ltac:(evaluate) "world" "there" ltac:(evaluate)))).
  - exact (proj1 (proj2
             (proj2 (proj2 (X21_missing_or_directory_target "/wd"
                              example_IsAbs example_Join example_Dir
                              example_Format example_Diff example_grant
                              example_diagnostics example_diagnostics
                              example_env world_directory example_path
                              ltac:(evaluate))
                       (example_time 0) ltac:(evaluate))
                "hi" ltac:(evaluate)))).
Defined.

(** A second edit right after the first. *)
Lemma X22_witness :
  let run := edit_with example_grant example_env_synced
               (Some {| FilePath := example_path; OldString := "world";
                        NewString := "there" |}) world_read in
  time.IsZero (getLastReadTime example_path run.2) = false
  ∧ time.After (example_time 60) (getLastReadTime example_path run.2) = false.
Proof.
  intros run.
  assert (Hpath : example_path
                  = absPath "/wd" example_IsAbs example_Join example_path)
    by evaluate.
  assert (Hok : run_failed run.1 = false) by evaluate.
  pose proof (X22_chained_edits "/wd" example_IsAbs example_Join example_Dir
                example_Format example_Diff example_grant example_diagnostics
                example_diagnostics example_env_synced world_read example_path
                run
                (or_introl
                   (ex_intro _
                      {| FilePath := example_path; OldString := "world";
                         NewString := "there" |}
                      (conj Hpath eq_refl)))
                Hok) as (_ & _ & Hfresh & _).
  exact (Hfresh ltac:(evaluate)).
Defined.

(** "world" replaced by "there", and back. *)
Lemma X23_witness :
  let first := edit_with example_grant example_env_synced
                 (Some {| FilePath := example_path; OldString := "world";
                          NewString := "there" |}) world_read in
  let second := edit_with example_grant example_env_synced
                  (Some {| FilePath := example_path; OldString := "there";
                           NewString := "world" |}) first.2 in
  run_failed first.1 = false
  ∧ run_failed second.1 = false
  ∧ file_content second.2
      (absPath "/wd" example_IsAbs example_Join example_path)
    = Some "hello world".
Proof.
  assert (Hunique :
    ∀ edited,
      file_content
        (edit_with example_grant example_env_synced
           (Some {| FilePath := example_path; OldString := "world";
                    NewString := "there" |}) world_read).2
        (absPath "/wd" example_IsAbs example_Join example_path) = Some edited →
      strings.occurrences edited "there" = 1%nat).
  { intros edited H. vm_compute in H. injection H as <-. reflexivity. }
  assert (H1 : example_path ≠ "") by evaluate.
  assert (H2 : "world" ≠ "") by evaluate.
  assert (H3 : "there" ≠ "") by evaluate.
  assert (H4 : fs world_read
                 !! absPath "/wd" example_IsAbs example_Join example_path
               = Some (RegularFile "hello world" (example_time 0) None))
    by evaluate.
  assert (H5 : getLastReadTime
                 (absPath "/wd" example_IsAbs example_Join example_path)
                 world_read ≠ 0) by evaluate.
  assert (H6 : time.After (example_time 0)
                 (getLastReadTime
                    (absPath "/wd" example_IsAbs example_Join example_path)
                    world_read) = false) by evaluate.
  assert (H7 : strings.occurrences "hello world" "world" = 1%nat) by evaluate.
  assert (H8 : sessionID example_env_synced ≠ "") by evaluate.
  assert (H9 : messageID example_env_synced ≠ "") by evaluate.
  assert (H10 : writeErr example_env_synced = None) by evaluate.
  assert (H11 : ∀ a b c, is_Err (example_Diff a b c) = false) by evaluate.
  assert (H12 : ∀ req, example_grant req = true) by evaluate.
  assert (H13 : writeModTime example_env_synced ≤ time_Now world_read)
    by evaluate.
  exact (X23_reverse_edit_restores_the_file "/wd" example_IsAbs example_Join
           example_Dir example_Format example_Diff example_grant
           example_diagnostics example_env_synced example_env_synced
           world_read example_path "world" "there" "hello world"
           (example_time 0) H1 H2 H3 H4 H5 H6 H7 H8 H9 H10 H8 H9 H10 H11 H12
           H13 Hunique).
Defined.

(** A directory that holds two files. *)
Lemma X26_witness :
  createFileTree example_Join ["README.md"; "main.go"]
  = [mkTreeNode "README.md" "README.md" "file" None;
     mkTreeNode "main.go" "main.go" "file" None].
Proof.
  assert (Hnd : NoDup ["README.md"; "main.go"]).
  { apply NoDup_cons. split; [|apply NoDup_singleton].
    intros H. apply list_elem_of_singleton in H. discriminate. }
  assert (Hall : Forall (λ name, name ≠ ""
                           ∧ strings.Contains name SeparatorString = false)
                   ["README.md"; "main.go"]).
  { repeat (apply Forall_cons; split); [| |apply Forall_nil_2];
      (split; [discriminate | reflexivity]). }
  exact (X26_flat_listing example_Join _ Hnd Hall).
Defined.

(** The second change of [/wd/hello.txt] arrives as an event. *)
Lemma X28_witness :
  processFileChanges "/wd" "initial" example_GenerateDiff
    (answering history_now
       (loadModifiedFiles "/wd" "initial" example_GenerateDiff
          (NewSidebarCmp example_session (Some history_earlier))))
    snapshot_v2
  = Returns
      (loadModifiedFiles "/wd" "initial" example_GenerateDiff
         (answering history_now
            (NewSidebarCmp example_session (Some history_earlier)))).
Proof.
  assert (Hid : sess_ID example_session ≠ "") by discriminate.
  assert (Hsame : ∀ f, f ∈ [] ++ [] →
            initialVersionOf "initial" [snapshot_initial; snapshot_v1] (Path f)
            = initialVersionOf "initial"
                [snapshot_initial; snapshot_v1; snapshot_v2] (Path f)).
  { intros f Hf. inversion Hf. }
  assert (Hnd : NoDup (map (λ f, getDisplayPath "/wd" (Path f))
                         ([] ++ snapshot_v2 :: []))).
  { apply NoDup_singleton. }
  assert (Htracked : tracked "initial"
                       [snapshot_initial; snapshot_v1; snapshot_v2]
                       snapshot_v2 = true) by evaluate.
  exact (X28_file_event_agrees_with_reload "/wd" "initial"
           example_GenerateDiff
           (NewSidebarCmp example_session (Some history_earlier))
           history_earlier history_now
           [snapshot_initial; snapshot_v1]
           [snapshot_initial; snapshot_v1; snapshot_v2]
           [] [snapshot_v1] [] snapshot_v2
           eq_refl Hid eq_refl eq_refl eq_refl eq_refl Hsame Hnd
           (or_intror (ex_intro _ snapshot_v1
                         (conj eq_refl (conj eq_refl Htracked))))).
Defined.
